(** * bestDeal: the catalog acquisition pipeline

    A shallow embedding of the Go backend of bestDeal: the URL templater
    ([extractPageNumber], [buildPageURL]), the image locator
    ([extractImageFromPage] and the script it evaluates in the page), the
    asset fetcher ([downloadImage]), the config-driven run
    ([ScrapeAndDownloadFromConfig]) and the store scraper's page iteration,
    download phase and sort ([scrapeCatalogPages], [downloadCatalogImages],
    [sortPages]); then the rest of the store scraper ([extractTitle],
    [extractDates], [extractCatalogURLs], [ScrapeAndDownload],
    [saveNewslettersToFile]), the Lidl scraper it grew from and the listing
    of the config files ([ListAvailableConfigs], [ListAvailableStores]).

    Go strings are byte strings ([string]); Go's [int] is a 64-bit integer,
    kept in [Z] with its wrap-around written out ([wrap64]); a Go [error] is
    its message; functions returning [(T, error)] return a [result]. What the
    code obtains from outside the process (the browser, the network, the file
    system) is read from an [Env] of oracles indexed by a clock, so that two
    calls with the same arguments may answer differently. Logging, sleeping
    and the deferred [Close] calls have no counterpart here; the deadline of
    the browser context shows as errors of the browser oracle. *)

From Stdlib Require Import ZArith NArith String Ascii List Lia Bool.
From Stdlib Require Import DecimalString DecimalZ.
From stdpp Require Import gmap strings list sorting.

Open Scope Z_scope.

(** ** Go values and library functions *)

Module GoLib.

Definition error := string.

Inductive result (A : Type) : Type :=
| Ok (a : A)
| Err (e : error).
Arguments Ok {A} a.
Arguments Err {A} e.

(** [int] on a 64-bit platform. *)
Definition MaxInt : Z := 2 ^ 63 - 1.
Definition MinInt : Z := - 2 ^ 63.
Definition wrap64 (z : Z) : Z := (z + 2 ^ 63) mod 2 ^ 64 - 2 ^ 63.

(** *** strings *)

Definition byte (n : nat) : string := String (ascii_of_nat n) "".

Fixpoint drop_bytes (n : nat) (s : string) : string :=
  match n, s with
  | O, _ => s
  | S k, String _ t => drop_bytes k t
  | S _, EmptyString => EmptyString
  end.

Fixpoint rev_string (s : string) : string :=
  match s with
  | EmptyString => EmptyString
  | String c t => rev_string t +:+ String c ""
  end.

(** [strings.HasPrefix]. *)
Definition HasPrefix (s pre : string) : bool := String.prefix pre s.

(** [strings.Contains], also JavaScript's [String.prototype.includes]. *)
Fixpoint Contains (s sub : string) : bool :=
  String.prefix sub s ||
  match s with
  | EmptyString => false
  | String _ t => Contains t sub
  end.

(** The UTF-8 encodings of the runes [unicode.IsSpace] accepts: the six
    ASCII ones, U+0085, U+00A0, U+1680, U+2000..U+200A, U+2028, U+2029,
    U+202F, U+205F and U+3000. *)
Definition space_runes : list string :=
  [ byte 9; byte 10; byte 11; byte 12; byte 13; byte 32;
    byte 194 +:+ byte 133; byte 194 +:+ byte 160;
    byte 225 +:+ byte 154 +:+ byte 128;
    byte 226 +:+ byte 128 +:+ byte 128; byte 226 +:+ byte 128 +:+ byte 129;
    byte 226 +:+ byte 128 +:+ byte 130; byte 226 +:+ byte 128 +:+ byte 131;
    byte 226 +:+ byte 128 +:+ byte 132; byte 226 +:+ byte 128 +:+ byte 133;
    byte 226 +:+ byte 128 +:+ byte 134; byte 226 +:+ byte 128 +:+ byte 135;
    byte 226 +:+ byte 128 +:+ byte 136; byte 226 +:+ byte 128 +:+ byte 137;
    byte 226 +:+ byte 128 +:+ byte 138;
    byte 226 +:+ byte 128 +:+ byte 168; byte 226 +:+ byte 128 +:+ byte 169;
    byte 226 +:+ byte 128 +:+ byte 175; byte 226 +:+ byte 129 +:+ byte 159;
    byte 227 +:+ byte 128 +:+ byte 128 ].

(** Width in bytes of the white-space rune [s] starts with, among [runes];
    [0] when it starts with none. *)
Fixpoint space_width (runes : list string) (s : string) : nat :=
  match runes with
  | [] => O
  | r :: rest => if String.prefix r s then String.length r
                 else space_width rest s
  end.

Fixpoint trim_front (fuel : nat) (runes : list string) (s : string) : string :=
  match fuel with
  | O => s
  | S f => match space_width runes s with
           | O => s
           | w => trim_front f runes (drop_bytes w s)
           end
  end.

Definition TrimLeftSpace (s : string) : string :=
  trim_front (String.length s) space_runes s.

(** Trailing white space is a suffix test on the same encodings: the last
    rune of a string that ends with one of them decodes to it. *)
Definition TrimRightSpace (s : string) : string :=
  rev_string
    (trim_front (String.length s) (map rev_string space_runes) (rev_string s)).

(** [strings.TrimSpace]. *)
Definition TrimSpace (s : string) : string := TrimRightSpace (TrimLeftSpace s).

(** *** strconv and fmt *)

(** [fmt.Sprintf("%d", n)]. *)
Definition FormatInt (n : Z) : string := NilZero.string_of_int (Z.to_int n).

Definition quoted (s : string) : string := byte 34 +:+ s +:+ byte 34.

Definition parse_digits (s : string) : option Z :=
  match NilZero.uint_of_string s with
  | Some d => Some (Z.of_uint d)
  | None => None
  end.

Definition range_checked (orig : string) (v : Z) : result Z :=
  if (MinInt <=? v) && (v <=? MaxInt) then Ok v
  else Err ("strconv.Atoi: parsing " +:+ quoted orig +:+ ": value out of range").

(** [strconv.Atoi]: an optional sign and decimal digits, a syntax error on
    anything else, a range error outside [int]. *)
Definition Atoi (s : string) : result Z :=
  let syntax :=
    Err ("strconv.Atoi: parsing " +:+ quoted s +:+ ": invalid syntax") in
  let unsigned :=
    match parse_digits s with
    | Some v => range_checked s v
    | None => syntax
    end in
  match s with
  | EmptyString => syntax
  | String c t =>
      if Ascii.eqb c "+" then
        match parse_digits t with
        | Some v => range_checked s v
        | None => syntax
        end
      else if Ascii.eqb c "-" then
        match parse_digits t with
        | Some v => range_checked s (- v)
        | None => syntax
        end
      else unsigned
  end.

Fixpoint zeros (n : nat) : string :=
  match n with
  | O => EmptyString
  | S k => String "0" (zeros k)
  end.

(** [fmt.Sprintf("%0<w>d", n)]: the sign first, then zeros up to width [w]. *)
Definition FormatIntPad (w : nat) (n : Z) : string :=
  if n <? 0 then
    let ds := FormatInt (- n) in
    "-" +:+ zeros (w - 1 - String.length ds) +:+ ds
  else
    let ds := FormatInt n in
    zeros (w - String.length ds) +:+ ds.

End GoLib.

(** ** What lies outside the process *)

Module Outside.
Import GoLib.

(** An [<img>] element as the page script reads it. The DOM gives the four
    dimensions as unsigned integers; their products are taken exactly. *)
Record Img : Type := {
  naturalWidth : N;
  width : N;
  naturalHeight : N;
  height : N;
  src : string
}.

(** What [document.querySelector(selector)] does. *)
Inductive Query : Type :=
| Throws
| NoMatch
| Match (img : Img).

(** A rendered document: [document.querySelectorAll('img')] in document
    order, and [document.querySelector]. *)
Record Document : Type := {
  images : list Img;
  querySelector : string -> Query
}.

(** The body of an HTTP response as [io.Copy] into a file sees it: the bytes
    that reach the file, and the error the copy ends with, if any. *)
Record Stream : Type := {
  copied : string;
  copy_err : option error
}.

Record Response : Type := {
  StatusCode : Z;
  Status : string;
  Body : Stream
}.

(** The state the code acts on: a clock that advances with every consulted
    oracle, the regular files by path, and the URLs [http.Get] was called
    with, in order. *)
Record World : Type := {
  clock : nat;
  files : gmap string string;
  gets : list string
}.

Definition tick (w : World) : World :=
  {| clock := S (clock w); files := files w; gets := gets w |}.

Definition log_get (url : string) (w : World) : World :=
  {| clock := clock w; files := files w; gets := gets w ++ [url] |}.

Definition write_file (path data : string) (w : World) : World :=
  {| clock := clock w; files := <[path := data]> (files w); gets := gets w |}.

End Outside.

(** ** The config-driven scraper *)

Module ConfigScraper.
Import GoLib Outside.

(** *** URL templater *)

(** [\d]: an ASCII digit. *)
Definition is_digit (c : ascii) : bool :=
  (48 <=? nat_of_ascii c)%nat && (nat_of_ascii c <=? 57)%nat.

(** [\d*] at the front of [s]: the longest run of digits and what follows. *)
Fixpoint span_digits (s : string) : string * string :=
  match s with
  | EmptyString => (EmptyString, EmptyString)
  | String c t =>
      if is_digit c then
        let (ds, rest) := span_digits t in (String c ds, rest)
      else (EmptyString, s)
  end.

(** Every byte of [s] is a digit. *)
Fixpoint all_digits (s : string) : bool :=
  match s with
  | EmptyString => true
  | String c t => is_digit c && all_digits t
  end.

(** [s] does not start with a digit. *)
Definition no_digit_ahead (s : string) : bool :=
  match s with
  | EmptyString => true
  | String c _ => negb (is_digit c)
  end.

Fixpoint strip_prefix (pre s : string) : option string :=
  match pre, s with
  | EmptyString, _ => Some s
  | String a p, String b t => if Ascii.eqb a b then strip_prefix p t else None
  | String _ _, EmptyString => None
  end.

(** A match of [/page/(\d+)] that starts at the first byte of [s]: the
    digits (greedy) and the rest of [s] after them. *)
Definition match_here (s : string) : option (string * string) :=
  match strip_prefix "/page/" s with
  | Some t =>
      match span_digits t with
      | (EmptyString, _) => None
      | (ds, rest) => Some (ds, rest)
      end
  | None => None
  end.

(** The leftmost match of [/page/(\d+)] in [s]: what precedes it, its digits
    and what follows it. *)
Fixpoint find_match (s : string) : option (string * string * string) :=
  match match_here s with
  | Some (ds, rest) => Some (EmptyString, ds, rest)
  | None =>
      match s with
      | EmptyString => None
      | String c t =>
          match find_match t with
          | Some (pre, ds, rest) => Some (String c pre, ds, rest)
          | None => None
          end
      end
  end.

(** [extractPageNumber]: [FindStringSubmatch], then [Atoi] on group 1. *)
Definition extractPageNumber (pageURL : string) : result Z :=
  match find_match pageURL with
  | None => Err ("page number not found in URL: " +:+ pageURL)
  | Some (_, ds, _) => Atoi ds
  end.

(** [regexp.MustCompile(`/page/\d+`).ReplaceAllString(s, repl)] for a [repl]
    without [$]: every match, left to right, each search resuming after the
    previous match. A match is at least seven bytes long, so [s] has fewer
    matches than bytes. *)
Fixpoint replace_all (fuel : nat) (s repl : string) : string :=
  match fuel with
  | O => s
  | S f =>
      match find_match s with
      | None => s
      | Some (pre, _, rest) => pre +:+ repl +:+ replace_all f rest repl
      end
  end.

Definition ReplaceAllString (s repl : string) : string :=
  replace_all (String.length s) s repl.

(** [buildPageURL]. *)
Definition buildPageURL (templateURL : string) (pageNum : Z) : string :=
  ReplaceAllString templateURL ("/page/" +:+ FormatInt pageNum).

(** The digit groups of all the matches of [/page/(\d+)] in [s], in order. *)
Fixpoint segments_fuel (fuel : nat) (s : string) : list string :=
  match fuel with
  | O => []
  | S f =>
      match find_match s with
      | None => []
      | Some (_, ds, rest) => ds :: segments_fuel f rest
      end
  end.

Definition page_segments (s : string) : list string :=
  segments_fuel (String.length s) s.

(** *** Image locator *)

(** JavaScript's [a || b] on numbers. *)
Definition js_or (a b : N) : N := if (a =? 0)%N then b else a.

(** The filter that keeps the large images. *)
Definition is_large (img : Img) : bool :=
  let w := js_or (js_or (naturalWidth img) (width img)) 0 in
  let h := js_or (js_or (naturalHeight img) (height img)) 0 in
  (500 <? w)%N && (500 <? h)%N.

Definition size (a : Img) : N :=
  (js_or (naturalWidth a) (width a) * js_or (naturalHeight a) (height a))%N.

(** The comparator [(a, b) => sizeB - sizeA]. *)
Definition by_size_desc (a b : Img) : Z := Z.of_N (size b) - Z.of_N (size a).

(** [Array.prototype.sort(cmp)]: a stable sort that puts [a] after [b] only
    if [cmp(a, b) > 0]. *)
Fixpoint js_insert {A} (cmp : A -> A -> Z) (x : A) (l : list A) : list A :=
  match l with
  | [] => [x]
  | y :: l' => if 0 <? cmp x y then y :: js_insert cmp x l' else x :: l
  end.

Fixpoint js_sort {A} (cmp : A -> A -> Z) (l : list A) : list A :=
  match l with
  | [] => []
  | x :: l' => js_insert cmp x (js_sort cmp l')
  end.

Definition selectors : list string :=
  [ "img.flyer-image";
    "img[class*=" +:+ quoted "flyer" +:+ "]";
    "img[class*=" +:+ quoted "catalog" +:+ "]";
    "div.flyer-container img";
    "div[class*=" +:+ quoted "flyer" +:+ "] img";
    "div[class*=" +:+ quoted "catalog" +:+ "] img";
    "main img";
    "article img" ].

(** [img && img.src && !img.src.includes('.svg')]. *)
Definition usable (img : Img) : bool :=
  negb (String.eqb (src img) "") && negb (Contains (src img) ".svg").

(** The [for (const selector of selectors)] loop; an exception of
    [querySelector] is caught and the loop goes on. *)
Fixpoint try_selectors (doc : Document) (sels : list string) : string :=
  match sels with
  | [] => EmptyString
  | selector :: rest =>
      match querySelector doc selector with
      | Match img => if usable img then src img else try_selectors doc rest
      | NoMatch | Throws => try_selectors doc rest
      end
  end.

Definition largeImages (doc : Document) : list Img :=
  List.filter is_large (images doc).

(** The script [selectorJS] that [extractImageFromPage] evaluates. *)
Definition selectorJS (doc : Document) : string :=
  match largeImages doc with
  | [] => try_selectors doc selectors
  | _ :: _ =>
      match js_sort by_size_desc (largeImages doc) with
      | first :: _ => src first
      | [] => EmptyString
      end
  end.

(** *** The run *)

(** [config.go]. *)
Record ScraperConfig : Type := {
  ID : string;
  CoverImage : string;
  FirstPage : string;
  LastPage : string
}.

(** The oracles and library functions the run consults. [chromedp_Run] is
    the document the script is evaluated on after [Navigate], [WaitReady]
    and [Sleep], or the error of [chromedp.Run]; [url_Parse] gives the
    scheme and the host. *)
Record Env : Type := {
  os_ReadFile : nat -> string -> result string;
  json_Unmarshal : string -> result ScraperConfig;
  os_MkdirAll : nat -> string -> option error;
  os_Create : nat -> string -> option error;
  http_Get : nat -> string -> result Response;
  chromedp_Run : nat -> string -> result Document;
  filepath_Join : string -> string -> string;
  url_Parse : string -> result (string * string)
}.

(** [LoadScraperConfig]. *)
Definition LoadScraperConfig (env : Env) (configPath : string) (w : World)
  : result ScraperConfig * World :=
  match os_ReadFile env (clock w) configPath with
  | Err err => (Err err, tick w)
  | Ok data =>
      match json_Unmarshal env data with
      | Err err => (Err err, tick w)
      | Ok config => (Ok config, tick w)
      end
  end.

(** [extractImageFromPage]. *)
Definition extractImageFromPage (env : Env) (pageURL : string) (w : World)
  : result string * World :=
  match chromedp_Run env (clock w) pageURL with
  | Err err => (Err err, tick w)
  | Ok doc =>
      let imageURL := TrimSpace (selectorJS doc) in
      if String.eqb imageURL "" then (Err "no image found on page", tick w)
      else if HasPrefix imageURL "http" then (Ok imageURL, tick w)
      else
        match url_Parse env pageURL with
        | Ok (scheme, host) =>
            (Ok (scheme +:+ "://" +:+ host +:+ imageURL), tick w)
        | Err _ => (Ok imageURL, tick w)
        end
  end.

(** [downloadImage]: the error it returns ([None] is [nil]). *)
Definition downloadImage (env : Env) (imageURL filePath : string) (w : World)
  : option error * World :=
  let w1 := tick (log_get imageURL w) in
  match http_Get env (clock w) imageURL with
  | Err err => (Some err, w1)
  | Ok resp =>
      if negb (StatusCode resp =? 200) then
        (Some ("HTTP " +:+ FormatInt (StatusCode resp) +:+ ": " +:+ Status resp),
         w1)
      else
        match os_Create env (clock w1) filePath with
        | Some err => (Some err, tick w1)
        | None =>
            let w2 := write_file filePath EmptyString (tick w1) in
            (copy_err (Body resp), write_file filePath (copied (Body resp)) w2)
        end
  end.

(** The body of the page loop. *)
Definition process_page (env : Env) (config : ScraperConfig)
    (pagesDir : string) (pageNum : Z) (w : World) : World :=
  let pageURL := buildPageURL (FirstPage config) pageNum in
  match extractImageFromPage env pageURL w with
  | (Err _, w1) => w1
  | (Ok imageURL, w1) =>
      let filename := "page-" +:+ FormatIntPad 3 pageNum +:+ ".jpg" in
      let imagePath := filepath_Join env pagesDir filename in
      snd (downloadImage env imageURL imagePath w1)
  end.

(** [for pageNum := firstPageNum; pageNum <= lastPageNum; pageNum++]; [None]
    when [fuel] iterations did not end it. *)
Fixpoint page_loop (fuel : nat) (env : Env) (config : ScraperConfig)
    (pagesDir : string) (pageNum lastPageNum : Z) (w : World) : option World :=
  if pageNum <=? lastPageNum then
    match fuel with
    | O => None
    | S f =>
        page_loop f env config pagesDir (wrap64 (pageNum + 1)) lastPageNum
          (process_page env config pagesDir pageNum w)
    end
  else Some w.

(** [ScrapeAndDownloadFromConfig]: the error it returns and the world it
    leaves, or [None] when the page loop did not end within [fuel]. *)
Definition ScrapeAndDownloadFromConfig (fuel : nat) (env : Env)
    (configPath : string) (w : World) : option (option error * World) :=
  match LoadScraperConfig env configPath w with
  | (Err err, w1) => Some (Some ("failed to load config: " +:+ err), w1)
  | (Ok config, w1) =>
      let baseDir := filepath_Join env "../newsletters" (ID config) in
      let pagesDir := filepath_Join env baseDir "pages" in
      match os_MkdirAll env (clock w1) pagesDir with
      | Some err =>
          Some (Some ("failed to create directories: " +:+ err), tick w1)
      | None =>
          let w2 := tick w1 in
          let w3 :=
            match extractImageFromPage env (CoverImage config) w2 with
            | (Err _, w') => w'
            | (Ok coverImageURL, w') =>
                let coverPath := filepath_Join env baseDir "cover-image.jpg" in
                snd (downloadImage env coverImageURL coverPath w')
            end in
          match extractPageNumber (FirstPage config) with
          | Err err =>
              Some (Some ("failed to parse first page number: " +:+ err), w3)
          | Ok firstPageNum =>
              match extractPageNumber (LastPage config) with
              | Err err =>
                  Some (Some ("failed to parse last page number: " +:+ err), w3)
              | Ok lastPageNum =>
                  match page_loop fuel env config pagesDir
                          firstPageNum lastPageNum w3 with
                  | Some w4 => Some (None, w4)
                  | None => None
                  end
              end
          end
      end
  end.

End ConfigScraper.

(** ** The store scraper *)

(** The API's data types. *)
Module Api.

Record Page : Type := {
  PageNumber : Z;
  ImageURL : string
}.

Record Newsletter : Type := {
  ID : string;
  Store : string;
  Title : string;
  ValidFrom : string;
  ValidUntil : string;
  CoverImage : string;
  Pages : list Page;
  LastUpdated : Z
}.

End Api.

Module StoreScraper.
Import GoLib Outside.
Export Api.

Record ScraperSelectors : Type := {
  CatalogURLRegex : string;
  TitleSelector : string;
  DateFormat : string;
  PageImageRegex : string;
  PageImageSelector : string
}.

Record ScraperConfig : Type := {
  StoreName : string;
  CatalogListURL : string;
  URLPattern : string;
  PageURLPattern : string;
  PageIndexStart : Z;
  Selectors : ScraperSelectors;
  WaitTime : Z;
  MaxCatalogs : Z;
  MaxPages : Z
}.

Record ScrapedCatalog : Type := {
  Title : string;
  ValidFrom : string;
  ValidUntil : string;
  CoverImage : string;
  PageImages : list string
}.

(** The oracles and library functions consulted. [chromedp_Evaluate] is
    [chromedp.Run] of [Navigate(pageURL)], [Sleep] and [Evaluate(script)]:
    the string the script yields or the error of the run. [fmt_Sprintf] is
    [fmt.Sprintf] of a format with one [int] argument, [time_Now] the
    clock read. *)
Record Env : Type := {
  os_MkdirAll : nat -> string -> option error;
  os_Create : nat -> string -> option error;
  http_Get : nat -> string -> result Response;
  chromedp_Evaluate : nat -> string -> string -> result string;
  filepath_Join : string -> string -> string;
  strings_ToLower : string -> string;
  fmt_Sprintf : string -> Z -> string;
  time_Now : nat -> Z
}.

(** *** buildSelectorJS *)

(** [strings.Split(s, ",")]. *)
Fixpoint split_commas (s : string) : list string :=
  match s with
  | EmptyString => [EmptyString]
  | String c t =>
      if Ascii.eqb c "," then EmptyString :: split_commas t
      else
        match split_commas t with
        | h :: tl => String c h :: tl
        | [] => [String c EmptyString]
        end
  end.

(** [strings.Join(elems, sep)]. *)
Fixpoint Join (elems : list string) (sep : string) : string :=
  match elems with
  | [] => EmptyString
  | [e] => e
  | e :: rest => e +:+ sep +:+ Join rest sep
  end.

Definition nl : string := byte 10.
Definition tab : string := byte 9.

Definition buildSelectorJS (selectorString : string) : string :=
  let selectors := split_commas selectorString in
  let conditions :=
    map (fun sel => "document.querySelector('" +:+ TrimSpace sel +:+ "')")
        selectors in
  nl +:+ tab +:+ tab +:+ "(() => {" +:+
  nl +:+ tab +:+ tab +:+ tab +:+ "const img = " +:+ Join conditions " || " +:+ ";" +:+
  nl +:+ tab +:+ tab +:+ tab +:+ "return img ? img.src : '';" +:+
  nl +:+ tab +:+ tab +:+ "})()" +:+
  nl +:+ tab.

(** *** The page-by-page loop of scrapeCatalogPages *)

(** The variables of the loop: the map [seen], [emptyCount], the slice
    [catalog.PageImages], and the values of [page] the body ran for. *)
Record Iter : Type := {
  seen : gset string;
  emptyCount : Z;
  found : list string;
  visited : list Z
}.

Definition Iter0 : Iter :=
  {| seen := ∅; emptyCount := 0; found := []; visited := [] |}.

Inductive Flow : Type := Continue | Break.

(** [emptyCount++; if emptyCount >= 3 { break }; continue]. *)
Definition count_empty (page : Z) (st : Iter) : Flow * Iter :=
  let st' := {| seen := seen st; emptyCount := emptyCount st + 1;
                found := found st; visited := visited st ++ [page] |} in
  (if emptyCount st' >=? 3 then Break else Continue, st').

(** The [chromedp.Run] of the body for [page], at clock value [clk]. *)
Definition evaluate_page (env : Env) (baseURL : string)
    (config : ScraperConfig) (page : Z) (clk : nat) : result string :=
  let pageIndex := wrap64 (wrap64 (page - 1) + PageIndexStart config) in
  let pageURL := baseURL +:+ fmt_Sprintf env (PageURLPattern config) pageIndex in
  let selectorJS := buildSelectorJS (PageImageSelector (Selectors config)) in
  chromedp_Evaluate env clk pageURL selectorJS.

(** The body of the loop for one value of [page]. *)
Definition scrape_page (env : Env) (baseURL : string) (config : ScraperConfig)
    (page : Z) (st : Iter) (w : World) : Flow * Iter * World :=
  match evaluate_page env baseURL config page (clock w) with
  | Err _ => (count_empty page st, tick w)
  | Ok imageURL =>
      let imageURL := TrimSpace imageURL in
      if String.eqb imageURL "" then (count_empty page st, tick w)
      else if bool_decide (imageURL ∈ seen st) then
        (Break,
         {| seen := seen st; emptyCount := emptyCount st; found := found st;
            visited := visited st ++ [page] |},
         tick w)
      else
        (Continue,
         {| seen := {[imageURL]} ∪ seen st; emptyCount := 0;
            found := found st ++ [imageURL];
            visited := visited st ++ [page] |},
         tick w)
  end.

(** [for page := 1; page <= config.MaxPages; page++]; [None] when [fuel]
    iterations did not end it. *)
Fixpoint scrape_loop (fuel : nat) (env : Env) (baseURL : string)
    (config : ScraperConfig) (page : Z) (st : Iter) (w : World)
  : option (Iter * World) :=
  if page <=? MaxPages config then
    match fuel with
    | O => None
    | S f =>
        match scrape_page env baseURL config page st w with
        | (Break, st', w') => Some (st', w')
        | (Continue, st', w') =>
            scrape_loop f env baseURL config (wrap64 (page + 1)) st' w'
        end
    end
  else Some (st, w).

Definition page_by_page (fuel : nat) (env : Env) (baseURL : string)
    (config : ScraperConfig) (w : World) : option (Iter * World) :=
  scrape_loop fuel env baseURL config 1 Iter0 w.

(** What a run resolves to: the trimmed image URL, or nothing when the run
    fails or the URL is empty. *)
Definition resolution (r : result string) : option string :=
  match r with
  | Err _ => None
  | Ok imageURL =>
      if String.eqb (TrimSpace imageURL) "" then None
      else Some (TrimSpace imageURL)
  end.

(** What page [page] resolves to in an iteration started in world [w]: the
    body consults one oracle, so it runs for [page] at clock value
    [clock w + (page - 1)]. *)
Definition page_outcome (env : Env) (baseURL : string)
    (config : ScraperConfig) (w : World) (page : Z) : option string :=
  resolution
    (evaluate_page env baseURL config page
       (clock w + Z.to_nat (page - 1))%nat).

(** Three consecutive pages, [k], [k+1] and [k+2], resolve to no image URL,
    or all three to the same one, in an iteration started in world [w0]. *)
Definition stale_triple (env : Env) (baseURL : string) (config : ScraperConfig)
    (w0 : World) (k : Z) : Prop :=
  (forall j, k <= j <= k + 2 -> page_outcome env baseURL config w0 j = None) \/
  (exists u, forall j, k <= j <= k + 2 ->
     page_outcome env baseURL config w0 j = Some u).

(** What holds of the variables of the loop when its body is about to run
    for [page], in an iteration with such pages [k], [k+1] and [k+2]. *)
Definition loop_inv (env : Env) (baseURL : string) (config : ScraperConfig)
    (w0 : World) (k : Z) (page : Z) (st : Iter) (w : World) : Prop :=
  1 <= page <= k + 2 /\
  clock w = (clock w0 + Z.to_nat (page - 1))%nat /\
  visited st = seqZ 1 (page - 1) /\
  0 <= emptyCount st /\
  (k < page ->
     ((forall j, k <= j <= k + 2 ->
         page_outcome env baseURL config w0 j = None) ->
      page - k <= emptyCount st) /\
     (forall u, (forall j, k <= j <= k + 2 ->
                   page_outcome env baseURL config w0 j = Some u) ->
      u ∈ seen st)).

(** *** sortPages *)

(** [pages[i], pages[j] = pages[j], pages[i]]. *)
Definition swap (pages : list Page) (i j : nat) : list Page :=
  match pages !! i, pages !! j with
  | Some pi, Some pj => <[j := pi]> (<[i := pj]> pages)
  | _, _ => pages
  end.

(** [if pages[i].PageNumber > pages[j].PageNumber { swap }]. *)
Definition compare_swap (pages : list Page) (i j : nat) : list Page :=
  match pages !! i, pages !! j with
  | Some pi, Some pj =>
      if PageNumber pi >? PageNumber pj then swap pages i j else pages
  | _, _ => pages
  end.

(** [for j := ...; j < len(pages); j++], with [n] iterations left. *)
Fixpoint inner_loop (n : nat) (i j : nat) (pages : list Page) : list Page :=
  match n with
  | O => pages
  | S n' => inner_loop n' i (S j) (compare_swap pages i j)
  end.

(** [for i := range pages], with [n] iterations left. *)
Fixpoint outer_loop (n : nat) (i : nat) (pages : list Page) : list Page :=
  match n with
  | O => pages
  | S n' =>
      outer_loop n' (S i)
        (inner_loop (length pages - (i + 1)) i (i + 1) pages)
  end.

Definition sortPages (pages : list Page) : list Page :=
  outer_loop (length pages) 0 pages.

(** The loops of [sortPages] read on lists. [sweep x rest] is the inner
    loop for a slot holding [x] and the slots [rest] after it: what the
    slot holds at the end, and what the slots after it hold. *)
Fixpoint sweep (x : Page) (rest : list Page) : Page * list Page :=
  match rest with
  | [] => (x, [])
  | y :: ys =>
      if PageNumber x >? PageNumber y then
        let (m, r) := sweep y ys in (m, x :: r)
      else
        let (m, r) := sweep x ys in (m, y :: r)
  end.

(** [n] rounds of the outer loop on the slots not yet settled. *)
Fixpoint sweep_all (n : nat) (l : list Page) : list Page :=
  match n, l with
  | S n', x :: rest => let (m, r) := sweep x rest in m :: sweep_all n' r
  | _, _ => l
  end.

(** The order the pages are sorted by. *)
Definition le_page (p q : Page) : Prop := PageNumber p <= PageNumber q.

(** The test of a page number. *)
Definition has_number (n : Z) (p : Page) : bool := PageNumber p =? n.

(** A standard stable sort by the page-number key: insertion sort, an
    element never moving past one with an equal key. *)
Fixpoint stable_insert (p : Page) (l : list Page) : list Page :=
  match l with
  | [] => [p]
  | q :: l' =>
      if PageNumber p <=? PageNumber q then p :: l
      else q :: stable_insert p l'
  end.

Fixpoint stable_sort (l : list Page) : list Page :=
  match l with
  | [] => []
  | p :: l' => stable_insert p (stable_sort l')
  end.

(** *** The download phase *)

(** [downloadImage]. *)
Definition downloadImage (env : Env) (url dir filename : string) (w : World)
  : result string * World :=
  let w1 := tick (log_get url w) in
  match http_Get env (clock w) url with
  | Err err => (Err err, w1)
  | Ok resp =>
      if negb (StatusCode resp =? 200) then
        (Err ("status: " +:+ Status resp), w1)
      else
        let path := filepath_Join env dir filename in
        match os_Create env (clock w1) path with
        | Some err => (Err err, tick w1)
        | None =>
            let w2 := write_file path EmptyString (tick w1) in
            let w3 := write_file path (copied (Body resp)) w2 in
            match copy_err (Body resp) with
            | Some err => (Err err, w3)
            | None => (Ok path, w3)
            end
        end
  end.

(** [strings.ReplaceAll(s, "-", "")]. *)
Fixpoint remove_dashes (s : string) : string :=
  match s with
  | EmptyString => EmptyString
  | String c t =>
      if Ascii.eqb c "-" then remove_dashes t else String c (remove_dashes t)
  end.

(** The goroutines started by [for i, url := range catalog.PageImages], as
    their arguments [(num, imgURL)]. *)
Fixpoint spawn (config : ScraperConfig) (i : Z) (urls : list string)
  : list (Z * string) :=
  match urls with
  | [] => []
  | url :: rest =>
      if i >=? MaxPages config then []
      else (i, url) :: spawn config (i + 1) rest
  end.

(** One goroutine: the download, then the append under the mutex. *)
Definition goroutine (env : Env) (id dir : string) (num : Z) (imgURL : string)
    (pages : list Page) (w : World) : list Page * World :=
  let filename := "page-" +:+ FormatIntPad 2 (num + 1) +:+ ".jpg" in
  match downloadImage env imgURL dir filename w with
  | (Err _, w') => (pages, w')
  | (Ok _, w') =>
      (pages ++ [{| PageNumber := num + 1;
                    ImageURL := "/newsletters/" +:+ id +:+ "/" +:+ filename |}],
       w')
  end.

(** The goroutines run to completion in the order [schedule] lists them (by
    position in the list of started goroutines). The mutex serialises the
    appends, the goroutines write different files, and the oracles answer
    freely at every clock value, so every interleaving of the pool leaves
    the slice [pages] that one such order leaves. *)
Fixpoint run_pool (env : Env) (id dir : string) (tasks : list (Z * string))
    (schedule : list nat) (pages : list Page) (w : World)
  : list Page * World :=
  match schedule with
  | [] => (pages, w)
  | k :: rest =>
      match tasks !! k with
      | Some (num, imgURL) =>
          let (pages', w') := goroutine env id dir num imgURL pages w in
          run_pool env id dir tasks rest pages' w'
      | None => run_pool env id dir tasks rest pages w
      end
  end.

(** [downloadCatalogImages], for the completion order [schedule]. *)
Definition downloadCatalogImages (env : Env) (schedule : list nat)
    (catalog : ScrapedCatalog) (config : ScraperConfig) (w : World)
  : result Newsletter * World :=
  let storeLower := strings_ToLower env (StoreName config) in
  let id := storeLower +:+ "-" +:+ remove_dashes (ValidFrom catalog) in
  let dir := filepath_Join env "../newsletters" id in
  match os_MkdirAll env (clock w) dir with
  | Some err => (Err err, tick w)
  | None =>
      let w1 := tick w in
      let w2 :=
        if String.eqb (CoverImage catalog) "" then w1
        else snd (downloadImage env (CoverImage catalog) dir "cover.jpg" w1) in
      let tasks := spawn config 0 (PageImages catalog) in
      let (pages, w3) := run_pool env id dir tasks schedule [] w2 in
      (Ok {| Api.ID := id;
             Api.Store := StoreName config;
             Api.Title := Title catalog;
             Api.ValidFrom := ValidFrom catalog;
             Api.ValidUntil := ValidUntil catalog;
             Api.CoverImage := "/newsletters/" +:+ id +:+ "/cover.jpg";
             Api.Pages := sortPages pages;
             Api.LastUpdated := time_Now env (clock w3) |},
       tick w3)
  end.

End StoreScraper.

(** ** The output files of the config-driven run *)

Module RunPaths.
Import GoLib Outside ConfigScraper.

(** [baseDir] and [pagesDir] of [ScrapeAndDownloadFromConfig]. *)
Definition base_dir (env : Env) (config : ScraperConfig) : string :=
  filepath_Join env "../newsletters" (ID config).

Definition pages_dir (env : Env) (config : ScraperConfig) : string :=
  filepath_Join env (base_dir env config) "pages".

(** [coverPath]. *)
Definition cover_path (env : Env) (config : ScraperConfig) : string :=
  filepath_Join env (base_dir env config) "cover-image.jpg".

(** [imagePath] for page [n]. *)
Definition page_path (env : Env) (pagesDir : string) (n : Z) : string :=
  filepath_Join env pagesDir ("page-" +:+ FormatIntPad 3 n +:+ ".jpg").

(** The work on the cover in [ScrapeAndDownloadFromConfig]. *)
Definition cover_step (env : Env) (config : ScraperConfig) (w : World) : World :=
  match extractImageFromPage env (CoverImage config) w with
  | (Err _, w') => w'
  | (Ok coverImageURL, w') =>
      snd (downloadImage env coverImageURL (cover_path env config) w')
  end.

(** The number of pages of a range. *)
Definition range_size (first last : Z) : nat := Z.to_nat (last - first + 1).

End RunPaths.

(** ** The page iteration of the store scraper, seen from outside *)

Module IterationViews.
Import GoLib Outside StoreScraper.

(** What holds of the loop variables before and after every run of the
    body: the URLs collected are distinct, not empty and those recorded as
    seen. *)
Definition found_ok (st : Iter) : Prop :=
  NoDup (found st) /\
  (forall u, u ∈ seen st <-> u ∈ found st) /\
  Forall (fun u => u <> EmptyString) (found st) /\
  0 <= emptyCount st <= 3 /\
  (length (found st) <= length (visited st))%nat.

(** What holds when the loop is about to run its body for [page], in an
    iteration started in world [w0]. *)
Definition at_page (env : Env) (baseURL : string) (config : ScraperConfig)
    (w0 : World) (page : Z) (st : Iter) (w : World) : Prop :=
  1 <= page /\
  found_ok st /\ emptyCount st <= 2 /\
  clock w = (clock w0 + Z.to_nat (page - 1))%nat /\
  visited st = seqZ 1 (page - 1) /\
  omap (page_outcome env baseURL config w0) (visited st) = found st.

(** The outcomes of the visited pages against the URLs collected. *)
Definition collected (env : Env) (baseURL : string) (config : ScraperConfig)
    (w0 : World) (st : Iter) : Prop :=
  omap (page_outcome env baseURL config w0) (visited st) = found st \/
  exists u, u ∈ found st /\
    omap (page_outcome env baseURL config w0) (visited st) = found st ++ [u].

End IterationViews.

(** ** The download phase of the store scraper, seen from outside *)

Module DownloadViews.
Import GoLib Outside StoreScraper.

(** The [id] of [downloadCatalogImages]. *)
Definition newsletter_id (env : Env) (catalog : ScrapedCatalog)
    (config : ScraperConfig) : string :=
  strings_ToLower env (StoreName config) +:+ "-" +:+
  remove_dashes (ValidFrom catalog).

(** A page as the download phase records it for number [n]. *)
Definition recorded (id : string) (n : Z) : Page :=
  {| PageNumber := n;
     ImageURL := "/newsletters/" +:+ id +:+ "/" +:+
                 ("page-" +:+ FormatIntPad 2 n +:+ ".jpg") |}.

(** The answers of the network and of the file system do not depend on
    the time of asking. *)
Definition steady (env : Env) : Prop :=
  (forall c c' url, http_Get env c url = http_Get env c' url) /\
  (forall c c' path, os_Create env c path = os_Create env c' path).

(** What the goroutine at position [k] appends, when the answers are
    steady. *)
Definition appended (env : Env) (id dir : string) (tasks : list (Z * string))
    (w0 : World) (k : nat) : option Page :=
  match tasks !! k with
  | Some (num, imgURL) =>
      match fst (downloadImage env imgURL dir
                   ("page-" +:+ FormatIntPad 2 (num + 1) +:+ ".jpg") w0) with
      | Ok _ => Some (recorded id (num + 1))
      | Err _ => None
      end
  | None => None
  end.

End DownloadViews.

(** ** The store scraper from the catalog list to the saved newsletters *)

Module StoreCatalogs.
Import GoLib Outside StoreScraper.
Import ConfigScraper(is_digit, strip_prefix, span_digits, all_digits).

(** *** extractTitle *)

(** The longest run of bytes other than [stop] at the front of [s], and what
    follows it. *)
Fixpoint span_until (stop : ascii) (s : string) : string * string :=
  match s with
  | EmptyString => (EmptyString, EmptyString)
  | String c t =>
      if Ascii.eqb c stop then (EmptyString, s)
      else let (run, rest) := span_until stop t in (String c run, rest)
  end.

(** A match of [<h1[^>]*>([^<]+)</h1>] that starts at the first byte of
    [s]: its group. Both runs are greedy and end at the first [>] and the
    first [<], the only places where the pattern can go on. *)
Definition title_here (s : string) : option string :=
  match strip_prefix "<h1" s with
  | None => None
  | Some t =>
      match span_until ">" t with
      | (_, EmptyString) => None
      | (_, String _ u) =>
          match span_until "<" u with
          | (EmptyString, _) => None
          | (text, v) => if String.prefix "</h1>" v then Some text else None
          end
      end
  end.

(** [FindStringSubmatch]: the group of the leftmost match. *)
Fixpoint find_title (s : string) : option string :=
  match title_here s with
  | Some text => Some text
  | None =>
      match s with
      | EmptyString => None
      | String _ t => find_title t
      end
  end.

(** [extractTitle]. *)
Definition extractTitle (html : string) (config : ScraperConfig) : string :=
  match find_title html with
  | Some text => TrimSpace text
  | None => StoreName config +:+ " Catalog"
  end.

(** *** extractDates *)

(** [\d{n}] at the front of [s]: the [n] digits and what follows them. *)
Fixpoint take_digits (n : nat) (s : string) : option (string * string) :=
  match n with
  | O => Some (EmptyString, s)
  | S k =>
      match s with
      | EmptyString => None
      | String c t =>
          if is_digit c then
            match take_digits k t with
            | Some (ds, rest) => Some (String c ds, rest)
            | None => None
            end
          else None
      end
  end.

(** A match of [(\d{2})\.(\d{2})\.(\d{4})] that starts at the first byte of
    [s]: its three groups and the rest of [s] after it. *)
Definition date_here (s : string)
  : option (string * string * string * string) :=
  match take_digits 2 s with
  | None => None
  | Some (g1, s1) =>
      match strip_prefix "." s1 with
      | None => None
      | Some s2 =>
          match take_digits 2 s2 with
          | None => None
          | Some (g2, s3) =>
              match strip_prefix "." s3 with
              | None => None
              | Some s4 =>
                  match take_digits 4 s4 with
                  | None => None
                  | Some (g3, rest) => Some (g1, g2, g3, rest)
                  end
              end
          end
      end
  end.

(** The leftmost match in [s]. *)
Fixpoint find_date (s : string)
  : option (string * string * string * string) :=
  match date_here s with
  | Some m => Some m
  | None =>
      match s with
      | EmptyString => None
      | String _ t => find_date t
      end
  end.

(** [FindAllStringSubmatch(html, 2)]: the groups of the first two matches,
    the second search starting where the first match ends. *)
Definition find_two_dates (html : string) : list (string * string * string) :=
  match find_date html with
  | None => []
  | Some (g1, g2, g3, rest) =>
      (g1, g2, g3) ::
      match find_date rest with
      | None => []
      | Some (h1, h2, h3, _) => [(h1, h2, h3)]
      end
  end.

(** [extractDates]: the catalog after the call. *)
Definition extractDates (catalog : ScrapedCatalog) (html : string)
  : ScrapedCatalog :=
  match find_two_dates html with
  | (g1, g2, g3) :: (h1, h2, h3) :: _ =>
      {| Title := Title catalog;
         ValidFrom := g3 +:+ "-" +:+ g2 +:+ "-" +:+ g1;
         ValidUntil := h3 +:+ "-" +:+ h2 +:+ "-" +:+ h1;
         CoverImage := CoverImage catalog;
         PageImages := PageImages catalog |}
  | _ => catalog
  end.

(** *** extractCatalogURLs *)

(** A match of [lit\d+] that starts at the first byte of [s], for a literal
    [lit]: the rest of [s] after it. *)
Definition lit_digits_here (lit s : string) : option string :=
  match strip_prefix lit s with
  | None => None
  | Some t =>
      match span_digits t with
      | (EmptyString, _) => None
      | (_, rest) => Some rest
      end
  end.

(** The leftmost match of [lit\d+]: what precedes it and what follows it. *)
Fixpoint find_lit_digits (lit s : string) : option (string * string) :=
  match lit_digits_here lit s with
  | Some rest => Some (EmptyString, rest)
  | None =>
      match s with
      | EmptyString => None
      | String c t =>
          match find_lit_digits lit t with
          | Some (pre, rest) => Some (String c pre, rest)
          | None => None
          end
      end
  end.

(** [regexp.MustCompile(lit\d+).ReplaceAllString(s, "")]: a match is not
    empty, so [s] has no more matches than bytes. *)
Fixpoint remove_all (fuel : nat) (lit s : string) : string :=
  match fuel with
  | O => s
  | S f =>
      match find_lit_digits lit s with
      | None => s
      | Some (pre, rest) => pre +:+ remove_all f lit rest
      end
  end.

Definition RemoveAll (lit s : string) : string :=
  remove_all (String.length s) lit s.

(** What the loop of [extractCatalogURLs] makes of group 1 of a match. *)
Definition clean_url (url : string) : string :=
  let url :=
    if negb (HasPrefix url "http") then "https://www.lidl.ro" +:+ url
    else url in
  let url := RemoveAll "/ar/" url in
  RemoveAll "/view/flyer/page/" url.

(** [for _, match := range matches], with the map [seen] and the slice
    [urls]. *)
Fixpoint collect_urls (matches : list (list string)) (seen : gset string)
    (urls : list string) : list string :=
  match matches with
  | [] => urls
  | m :: rest =>
      match m !! 1%nat with
      | None => collect_urls rest seen urls
      | Some group =>
          let url := clean_url group in
          if negb (bool_decide (url ∈ seen)) &&
             negb (Contains url "reduceri") && Contains url "perioada"
          then collect_urls rest ({[url]} ∪ seen) (urls ++ [url])
          else collect_urls rest seen urls
      end
  end.

(** A call returns or panics. *)
Inductive outcome (A : Type) : Type :=
| Returns (a : A)
| Panics (value : string).
Arguments Returns {A} a.
Arguments Panics {A} value.

(** What [os.WriteFile(name, data, perm)] does: the file is not opened and
    stays as it is; or it is opened and truncated, and holds the first [n]
    bytes of [data] when the error comes; or it holds [data]. *)
Inductive Written : Type :=
| NotOpened (err : error)
| Cut (n : nat) (err : error)
| Complete.

(** An [<img>] element as the single-page script reads it: [img.src],
    [img.dataset.src] and [img.getAttribute('data-src')], the last two
    absent ([undefined] and [null]) or a string. *)
Record Lazy : Type := {
  lazy_src : string;
  dataset_src : option string;
  data_src : option string
}.

(** The oracles and library functions the rest of the store scraper
    consults. [chromedp_OuterHTML] is [chromedp.Run] of [Navigate(url)],
    [WaitReady], [Sleep(wait)] and [OuterHTML]; [chromedp_Images] is the
    same run up to [Sleep(wait)]: the [<img>] elements of the document in
    document order. [regexp_FindAllStringSubmatch] panics when the pattern
    does not compile. *)
Record Site : Type := {
  chromedp_OuterHTML : nat -> string -> Z -> result string;
  chromedp_Images : nat -> string -> Z -> result (list Lazy);
  regexp_FindAllStringSubmatch : string -> string -> outcome (list (list string));
  time_AddDate : Z -> Z -> Z -> Z -> Z;
  time_Format : Z -> string -> string;
  json_MarshalIndent : list Newsletter -> result string;
  os_WriteFile : nat -> string -> string -> Written
}.

(** [extractCatalogURLs]. *)
Definition extractCatalogURLs (site : Site) (html : string)
    (config : ScraperConfig) : outcome (list string) :=
  match regexp_FindAllStringSubmatch site
          (CatalogURLRegex (Selectors config)) html with
  | Panics v => Panics v
  | Returns matches => Returns (collect_urls matches ∅ [])
  end.

(** *** scrapeCatalogPages *)

(** JavaScript's [a || b] on a value that is a string or absent: the empty
    string and the absent value are falsy. *)
Definition js_or_else (a b : option string) : option string :=
  match a with
  | Some (String _ _) => a
  | _ => b
  end.

(** The script of the single-page approach:
    [img.src || img.dataset.src || img.getAttribute('data-src')] of every
    image, those kept that are truthy and include one of the two words. *)
Definition single_page_sources (imgs : list Lazy) : list string :=
  omap (fun img =>
          match js_or_else (js_or_else (Some (lazy_src img)) (dataset_src img))
                  (data_src img) with
          | Some (String c t) =>
              let s := String c t in
              if Contains s "imgproxy.leaflets.schwarz" || Contains s "leaflets"
              then Some s else None
          | _ => None
          end) imgs.

(** [for _, imageURL := range imageURLs] of the single-page approach. *)
Fixpoint add_images (imageURLs : list string) (seen : gset string)
    (images : list string) : gset string * list string :=
  match imageURLs with
  | [] => (seen, images)
  | imageURL :: rest =>
      let imageURL := TrimSpace imageURL in
      if negb (bool_decide (imageURL ∈ seen)) && negb (String.eqb imageURL "")
      then add_images rest ({[imageURL]} ∪ seen) (images ++ [imageURL])
      else add_images rest seen images
  end.

(** [time.Duration(config.WaitTime) * time.Second]. *)
Definition waitDuration (config : ScraperConfig) : Z :=
  wrap64 (WaitTime config * 1000000000).

(** [scrapeCatalogPages]; [None] when the page-by-page loop did not end
    within [fuel] iterations. *)
Definition scrapeCatalogPages (fuel : nat) (env : Env) (site : Site)
    (baseURL : string) (config : ScraperConfig) (w : World)
  : option (result ScrapedCatalog * World) :=
  match chromedp_OuterHTML site (clock w) baseURL (waitDuration config) with
  | Err err => Some (Err ("failed to load catalog: " +:+ err), tick w)
  | Ok htmlContent =>
      let w1 := tick w in
      let w2 := tick w1 in
      let w3 := tick w2 in
      let catalog :=
        {| Title := extractTitle htmlContent config;
           ValidFrom := time_Format site (time_Now env (clock w1)) "2006-01-02";
           ValidUntil :=
             time_Format site
               (time_AddDate site (time_Now env (clock w2)) 0 0 7) "2006-01-02";
           CoverImage := EmptyString;
           PageImages := [] |} in
      let catalog := extractDates catalog htmlContent in
      match page_by_page fuel env baseURL config w3 with
      | None => None
      | Some (st, w4) =>
          let (images, w5) :=
            if (length (found st) =? 0)%nat then
              match chromedp_Images site (clock w4) baseURL
                      (waitDuration config) with
              | Err _ => (found st, tick w4)
              | Ok imgs =>
                  (snd (add_images (single_page_sources imgs)
                          (seen st) (found st)),
                   tick w4)
              end
            else (found st, w4) in
          Some (Ok {| Title := Title catalog;
                      ValidFrom := ValidFrom catalog;
                      ValidUntil := ValidUntil catalog;
                      CoverImage :=
                        match images with
                        | first :: _ => first
                        | [] => CoverImage catalog
                        end;
                      PageImages := images |},
                w5)
      end
  end.

(** *** ScrapeAndDownload *)

(** [saveNewslettersToFile]: the error it returns ([None] is [nil]). *)
Definition saveNewslettersToFile (site : Site) (newsletters : list Newsletter)
    (w : World) : option error * World :=
  match json_MarshalIndent site newsletters with
  | Err err => (Some err, w)
  | Ok data =>
      let path := "../newsletters/newsletters.json" in
      match os_WriteFile site (clock w) path data with
      | NotOpened err => (Some err, tick w)
      | Cut n err =>
          (Some err, write_file path (String.substring 0 n data) (tick w))
      | Complete => (None, write_file path data (tick w))
      end
  end.

(** [for i, url := range catalogURLs]; the goroutines of the download of
    catalog [i] complete in the order [schedules i]. *)
Fixpoint catalogs_loop (fuel : nat) (env : Env) (site : Site)
    (config : ScraperConfig) (schedules : Z -> list nat) (maxCatalogs : Z)
    (i : Z) (catalogURLs : list string) (newsletters : list Newsletter)
    (w : World) : option (list Newsletter * World) :=
  match catalogURLs with
  | [] => Some (newsletters, w)
  | url :: rest =>
      if i >=? maxCatalogs then Some (newsletters, w)
      else
        match scrapeCatalogPages fuel env site url config w with
        | None => None
        | Some (Err _, w1) =>
            catalogs_loop fuel env site config schedules maxCatalogs
              (i + 1) rest newsletters w1
        | Some (Ok catalog, w1) =>
            match downloadCatalogImages env (schedules i) catalog config w1 with
            | (Err _, w2) =>
                catalogs_loop fuel env site config schedules maxCatalogs
                  (i + 1) rest newsletters w2
            | (Ok newsletter, w2) =>
                catalogs_loop fuel env site config schedules maxCatalogs
                  (i + 1) rest (newsletters ++ [newsletter]) w2
            end
        end
  end.

(** [ScrapeAndDownload]; [None] when a page-by-page loop did not end within
    [fuel] iterations. *)
Definition ScrapeAndDownload (fuel : nat) (env : Env) (site : Site)
    (schedules : Z -> list nat) (config : ScraperConfig) (w : World)
  : option (outcome (result (list Newsletter)) * World) :=
  match chromedp_OuterHTML site (clock w) (CatalogListURL config)
          (waitDuration config) with
  | Err err => Some (Returns (Err ("failed to scrape: " +:+ err)), tick w)
  | Ok htmlContent =>
      match extractCatalogURLs site htmlContent config with
      | Panics v => Some (Panics v, tick w)
      | Returns catalogURLs =>
          let maxCatalogs :=
            if MaxCatalogs config =? 0 then Z.of_nat (length catalogURLs)
            else MaxCatalogs config in
          match catalogs_loop fuel env site config schedules maxCatalogs 0
                  catalogURLs [] (tick w) with
          | None => None
          | Some (newsletters, w1) =>
              Some (Returns (Ok newsletters),
                    snd (saveNewslettersToFile site newsletters w1))
          end
      end
  end.

End StoreCatalogs.

(** ** The store scraper from the catalog list, seen from outside *)

Module CatalogViews.
Import GoLib Outside StoreScraper StoreCatalogs.
Import ConfigScraper(all_digits).

(** No byte of [s] is [c]. *)
Fixpoint free_of (c : ascii) (s : string) : bool :=
  match s with
  | EmptyString => true
  | String x t => negb (Ascii.eqb x c) && free_of c t
  end.

(** No heading, in the sense of [extractTitle], starts at one of the first
    [n] bytes of [s]. *)
Definition no_title_before (n : nat) (s : string) : Prop :=
  forall k, (k < n)%nat -> title_here (drop_bytes k s) = None.

(** No date, in the sense of [extractDates], starts at one of the first [n]
    bytes of [s]. *)
Definition no_date_before (n : nat) (s : string) : Prop :=
  forall k, (k < n)%nat -> date_here (drop_bytes k s) = None.

(** A date as [extractDates] finds it: two digits, two digits and four
    digits, with dots between them. *)
Definition dotted (g1 g2 g3 : string) : string :=
  g1 +:+ "." +:+ g2 +:+ "." +:+ g3.

Definition date_groups (g1 g2 g3 : string) : Prop :=
  all_digits g1 = true /\ String.length g1 = 2%nat /\
  all_digits g2 = true /\ String.length g2 = 2%nat /\
  all_digits g3 = true /\ String.length g3 = 4%nat.

(** Group 1 of the matches that have one, as the loop of
    [extractCatalogURLs] rewrites it, in the order of the matches. *)
Definition cleaned (matches : list (list string)) : list string :=
  omap (fun m => clean_url <$> m !! 1%nat) matches.

(** The test of a catalog URL. *)
Definition wanted (url : string) : bool :=
  negb (Contains url "reduceri") && Contains url "perioada".

(** The directory [dir] of [downloadCatalogImages]. *)
Definition catalog_dir (env : Env) (catalog : ScrapedCatalog)
    (config : ScraperConfig) : string :=
  filepath_Join env "../newsletters"
    (strings_ToLower env (StoreName config) +:+ "-" +:+
     remove_dashes (ValidFrom catalog)).

(** The [filename] of the goroutine for page number [n]. *)
Definition page_file (n : Z) : string :=
  "page-" +:+ FormatIntPad 2 n +:+ ".jpg".

(** The URL asked for the cover: none when the catalog has no cover. *)
Definition cover_gets (catalog : ScrapedCatalog) : list string :=
  if String.eqb (CoverImage catalog) "" then [] else [CoverImage catalog].

(** The image URLs of the goroutines in their order of completion. *)
Definition scheduled_urls (tasks : list (Z * string)) (schedule : list nat)
  : list string :=
  omap (fun k => snd <$> tasks !! k) schedule.

(** Newsletter [n] is what the download phase made of a catalog scraped
    from one of [urls]. *)
Definition produced (fuel : nat) (env : Env) (site : Site)
    (config : ScraperConfig) (urls : list string) (n : Newsletter) : Prop :=
  exists url catalog schedule w1 w2 w3,
    url ∈ urls /\
    scrapeCatalogPages fuel env site url config w1 = Some (Ok catalog, w2) /\
    downloadCatalogImages env schedule catalog config w2 = (Ok n, w3).

End CatalogViews.

(** ** The Lidl scraper *)

Module LidlScraper.
Import GoLib Outside.
Import ConfigScraper(is_digit, strip_prefix).
Import StoreCatalogs(take_digits).
Export StoreScraper(ScrapedCatalog, Title, ValidFrom, ValidUntil, CoverImage,
                    PageImages).

(** A match of [perioada-(\d{2})-(\d{2})-(\d{2})-(\d{2})-(\d{4})] that
    starts at the first byte of [s]: its five groups. *)
Definition period_here (s : string)
  : option (string * string * string * string * string) :=
  s0 ← strip_prefix "perioada-" s;
  '(g1, s1) ← take_digits 2 s0;
  s2 ← strip_prefix "-" s1;
  '(g2, s3) ← take_digits 2 s2;
  s4 ← strip_prefix "-" s3;
  '(g3, s5) ← take_digits 2 s4;
  s6 ← strip_prefix "-" s5;
  '(g4, s7) ← take_digits 2 s6;
  s8 ← strip_prefix "-" s7;
  '(g5, _) ← take_digits 4 s8;
  Some (g1, g2, g3, g4, g5).

(** [FindStringSubmatch]: the groups of the leftmost match. *)
Fixpoint find_period (s : string)
  : option (string * string * string * string * string) :=
  match period_here s with
  | Some m => Some m
  | None =>
      match s with
      | EmptyString => None
      | String _ t => find_period t
      end
  end.

(** [chromedp_Flyer] is [chromedp.Run] of [Navigate(url)], [WaitVisible] of
    the leaflet image and [Evaluate] of the script that yields its source
    or the empty string. *)
Record Browser : Type := {
  chromedp_Flyer : nat -> string -> result string
}.

(** [for page := 1; page <= 30; page++], with [left] iterations left. *)
Fixpoint flyer_loop (left : nat) (browser : Browser) (baseURL : string)
    (page : Z) (images : list string) (w : World) : list string * World :=
  match left with
  | O => (images, w)
  | S left' =>
      match chromedp_Flyer browser (clock w)
              (baseURL +:+ "/view/flyer/page/" +:+ FormatInt page) with
      | Err _ => (images, tick w)
      | Ok imageURL =>
          if String.eqb imageURL "" then (images, tick w)
          else flyer_loop left' browser baseURL (page + 1)
                 (images ++ [imageURL]) (tick w)
      end
  end.

(** [scrapeCatalogPages] of the Lidl scraper. *)
Definition scrapeCatalogPages (browser : Browser) (baseURL : string)
    (w : World) : result ScrapedCatalog * World :=
  let catalog :=
    match find_period baseURL with
    | Some (g1, g2, g3, g4, g5) =>
        {| Title := "Catalogul săptămânal pentru perioada " +:+
                    g1 +:+ "." +:+ g2 +:+ "-" +:+ g3 +:+ "." +:+ g4 +:+
                    "." +:+ g5;
           ValidFrom := g5 +:+ "-" +:+ g2 +:+ "-" +:+ g1;
           ValidUntil := g5 +:+ "-" +:+ g4 +:+ "-" +:+ g3;
           CoverImage := EmptyString;
           PageImages := [] |}
    | None =>
        {| Title := EmptyString; ValidFrom := EmptyString;
           ValidUntil := EmptyString; CoverImage := EmptyString;
           PageImages := [] |}
    end in
  let (images, w') := flyer_loop 30 browser baseURL 1 (PageImages catalog) w in
  (Ok {| Title := Title catalog;
         ValidFrom := ValidFrom catalog;
         ValidUntil := ValidUntil catalog;
         CoverImage := match images with
                       | first :: _ => first
                       | [] => CoverImage catalog
                       end;
         PageImages := images |},
   w').

End LidlScraper.

Module LidlViews.
Import GoLib Outside LidlScraper.


(** No period, in the sense of the Lidl scraper, starts at one of the first
    [n] bytes of [s]. *)
Definition no_period_before (n : nat) (s : string) : Prop :=
  forall k, (k < n)%nat -> period_here (drop_bytes k s) = None.

End LidlViews.

(** ** The catalog list of the Lidl scraper *)

Module LidlCatalogs.
Import GoLib Outside.
Import ConfigScraper(strip_prefix).
Import StoreCatalogs(span_until, collect_urls).

(** The double quote. *)
Definition dquote : ascii := ascii_of_nat 34.

(** A match of [href=Q((?:https://www\.lidl\.ro)?/l/ro/cataloage/[^Q]+)Q],
    [Q] the double quote, that starts at the first byte of [s]: its group
    and the rest of [s] after it. The site is taken when it is there: what
    follows it in the pattern starts with a slash, and the site does not. *)
Definition href_here (s : string) : option (string * string) :=
  s0 ← strip_prefix ("href=" +:+ String dquote "") s;
  let (site, s1) :=
    match strip_prefix "https://www.lidl.ro" s0 with
    | Some t => ("https://www.lidl.ro"%string, t)
    | None => (EmptyString, s0)
    end in
  s2 ← strip_prefix "/l/ro/cataloage/" s1;
  match span_until dquote s2 with
  | (EmptyString, _) => None
  | (_, EmptyString) => None
  | (text, String _ rest) => Some (site +:+ "/l/ro/cataloage/" +:+ text, rest)
  end.

(** The leftmost match in [s]. *)
Fixpoint find_href (s : string) : option (string * string) :=
  match href_here s with
  | Some m => Some m
  | None =>
      match s with
      | EmptyString => None
      | String _ t => find_href t
      end
  end.

(** [FindAllStringSubmatch(html, -1)]: every match, left to right, each
    search starting where the previous match ends; a match is not empty,
    so there are no more matches than bytes. *)
Fixpoint find_all_hrefs (fuel : nat) (s : string) : list (list string) :=
  match fuel with
  | O => []
  | S f =>
      match find_href s with
      | None => []
      | Some (group, rest) =>
          [ "href=" +:+ String dquote "" +:+ group +:+ String dquote "";
            group ] :: find_all_hrefs f rest
      end
  end.

(** [extractCatalogURLs] of the Lidl scraper. *)
Definition extractCatalogURLs (html : string) : list string :=
  collect_urls (find_all_hrefs (String.length html) html) ∅ [].

End LidlCatalogs.

(** ** The config files *)

Module Configs.
Import GoLib Outside.
Import StoreCatalogs(outcome, Returns, Panics).

(** An [os.DirEntry]. *)
Record DirEntry : Type := {
  Name : string;
  IsDir : bool
}.

(** The oracles and library functions consulted: [os_ReadDir] gives the
    entries of a directory, [json_Unmarshal] parses a store config. *)
Record Env : Type := {
  os_ReadDir : nat -> string -> result (list DirEntry);
  os_ReadFile : nat -> string -> result string;
  json_Unmarshal : string -> result StoreScraper.ScraperConfig;
  filepath_Join : string -> string -> string
}.

(** The loop of [filepath.Ext], from the last byte of the path backwards:
    [rev] holds the bytes not yet seen, last first, and [suffix] those
    seen. It ends at a separator or at a dot. *)
Fixpoint ext_scan (rev suffix : string) : string :=
  match rev with
  | EmptyString => EmptyString
  | String c r =>
      if Ascii.eqb c "/" then EmptyString
      else if Ascii.eqb c "." then String c suffix
      else ext_scan r (String c suffix)
  end.

(** [filepath.Ext], with [/] as the separator. *)
Definition Ext (path : string) : string :=
  ext_scan (rev_string path) EmptyString.

(** [for _, file := range files] of [ListAvailableConfigs]. *)
Fixpoint config_names (files : list DirEntry) (configs : list string)
  : list string :=
  match files with
  | [] => configs
  | file :: rest =>
      if negb (IsDir file) && String.eqb (Ext (Name file)) ".json"
      then config_names rest (configs ++ [Name file])
      else config_names rest configs
  end.

(** [ListAvailableConfigs]. *)
Definition ListAvailableConfigs (env : Env) (w : World)
  : result (list string) * World :=
  match os_ReadDir env (clock w) "configs" with
  | Err err => (Err err, tick w)
  | Ok files => (Ok (config_names files []), tick w)
  end.

(** [s[:n]]: a run-time panic when [n] is out of range. *)
Definition slice_to (s : string) (n : Z) : outcome string :=
  if (0 <=? n) && (n <=? Z.of_nat (String.length s))
  then Returns (String.substring 0 (Z.to_nat n) s)
  else Panics "slice bounds out of range".

(** [for _, file := range files] of [ListAvailableStores]. *)
Fixpoint store_names (files : list DirEntry) (stores : list string)
  : outcome (list string) :=
  match files with
  | [] => Returns stores
  | file :: rest =>
      if negb (IsDir file) && String.eqb (Ext (Name file)) ".json"
      then
        match slice_to (Name file)
                (Z.of_nat (String.length (Name file)) - 5) with
        | Panics v => Panics v
        | Returns storeName => store_names rest (stores ++ [storeName])
        end
      else store_names rest stores
  end.

(** [ListAvailableStores]. *)
Definition ListAvailableStores (env : Env) (w : World)
  : outcome (result (list string)) * World :=
  match os_ReadDir env (clock w) "configs" with
  | Err err => (Returns (Err err), tick w)
  | Ok files =>
      (match store_names files [] with
       | Panics v => Panics v
       | Returns stores => Returns (Ok stores)
       end,
       tick w)
  end.

(** [LoadScraperConfig] by store name. *)
Definition LoadScraperConfig (env : Env) (storeName : string) (w : World)
  : result StoreScraper.ScraperConfig * World :=
  let configPath := filepath_Join env "configs" (storeName +:+ ".json") in
  match os_ReadFile env (clock w) configPath with
  | Err err => (Err err, tick w)
  | Ok data =>
      match json_Unmarshal env data with
      | Err err => (Err err, tick w)
      | Ok config => (Ok config, tick w)
      end
  end.

End Configs.

Module ConfigViews.
Import GoLib Outside Configs.

(** A directory entry that is a config file: not a directory, and its name
    ends with [.json]. *)
Definition config_file (file : DirEntry) : Prop :=
  IsDir file = false /\ exists stem, Name file = stem +:+ ".json".

End ConfigViews.

(** ** Concrete pages, environments and worlds *)

Module Examples.
Import GoLib Outside.

Definition w0 : World := {| clock := O; files := ∅; gets := [] |}.

Definition logo : Img :=
  {| naturalWidth := 64; width := 64; naturalHeight := 64; height := 64;
     src := "https://shop.example/static/logo.svg" |}.

Definition small_flyer : Img :=
  {| naturalWidth := 480; width := 480; naturalHeight := 640; height := 640;
     src := "https://cdn.example/flyer/p1.jpg" |}.

(** A page without a large image: [div.flyer-container img] finds the
    logo, [main img] and [article img] find the flyer. *)
Definition doc_fallback : Document :=
  {| images := [logo; small_flyer];
     querySelector := fun selector =>
       if String.eqb selector "div.flyer-container img" then Match logo
       else if String.eqb selector "main img" then Match small_flyer
       else if String.eqb selector "article img" then Match small_flyer
       else NoMatch |}.





Definition ok_response : Response :=
  {| StatusCode := 200; Status := "200 OK";
     Body := {| copied := "JPEG-DATA"; copy_err := None |} |}.

(** The body breaks after three bytes. *)
Definition broken_response : Response :=
  {| StatusCode := 200; Status := "200 OK";
     Body := {| copied := "JPE"; copy_err := Some "unexpected EOF"%string |} |}.

Definition missing_response : Response :=
  {| StatusCode := 404; Status := "404 Not Found";
     Body := {| copied := "<html>not found</html>"; copy_err := None |} |}.

Definition config_ok : ConfigScraper.ScraperConfig :=
  {| ConfigScraper.ID := "lidl-09-02";
     ConfigScraper.CoverImage := "https://shop.example/c/page/1";
     ConfigScraper.FirstPage := "https://shop.example/c/page/1";
     ConfigScraper.LastPage := "https://shop.example/c/page/3" |}.

Definition join (a b : string) : string := a +:+ "/" +:+ b.

(** Everything answers; every page is [doc_fallback]. *)
Definition env_ok : ConfigScraper.Env :=
  {| ConfigScraper.os_ReadFile := fun _ _ => Ok "{}"%string;
     ConfigScraper.json_Unmarshal := fun _ => Ok config_ok;
     ConfigScraper.os_MkdirAll := fun _ _ => None;
     ConfigScraper.os_Create := fun _ _ => None;
     ConfigScraper.http_Get := fun _ _ => Ok ok_response;
     ConfigScraper.chromedp_Run := fun _ _ => Ok doc_fallback;
     ConfigScraper.filepath_Join := join;
     ConfigScraper.url_Parse :=
       fun _ => Ok ("https"%string, "shop.example"%string) |}.


(** The destination file cannot be created. *)
Definition env_no_create : ConfigScraper.Env :=
  {| ConfigScraper.os_ReadFile := fun _ _ => Ok "{}"%string;
     ConfigScraper.json_Unmarshal := fun _ => Ok config_ok;
     ConfigScraper.os_MkdirAll := fun _ _ => None;
     ConfigScraper.os_Create := fun _ _ => Some "permission denied"%string;
     ConfigScraper.http_Get := fun _ _ => Ok ok_response;
     ConfigScraper.chromedp_Run := fun _ _ => Ok doc_fallback;
     ConfigScraper.filepath_Join := join;
     ConfigScraper.url_Parse :=
       fun _ => Ok ("https"%string, "shop.example"%string) |}.

(** Every body breaks midway. *)
Definition env_broken_body : ConfigScraper.Env :=
  {| ConfigScraper.os_ReadFile := fun _ _ => Ok "{}"%string;
     ConfigScraper.json_Unmarshal := fun _ => Ok config_ok;
     ConfigScraper.os_MkdirAll := fun _ _ => None;
     ConfigScraper.os_Create := fun _ _ => None;
     ConfigScraper.http_Get := fun _ _ => Ok broken_response;
     ConfigScraper.chromedp_Run := fun _ _ => Ok doc_fallback;
     ConfigScraper.filepath_Join := join;
     ConfigScraper.url_Parse :=
       fun _ => Ok ("https"%string, "shop.example"%string) |}.

(** Every request is answered 404. *)
Definition env_missing : ConfigScraper.Env :=
  {| ConfigScraper.os_ReadFile := fun _ _ => Ok "{}"%string;
     ConfigScraper.json_Unmarshal := fun _ => Ok config_ok;
     ConfigScraper.os_MkdirAll := fun _ _ => None;
     ConfigScraper.os_Create := fun _ _ => None;
     ConfigScraper.http_Get := fun _ _ => Ok missing_response;
     ConfigScraper.chromedp_Run := fun _ _ => Ok doc_fallback;
     ConfigScraper.filepath_Join := join;
     ConfigScraper.url_Parse :=
       fun _ => Ok ("https"%string, "shop.example"%string) |}.

Definition store_selectors : StoreScraper.ScraperSelectors :=
  {| StoreScraper.CatalogURLRegex := "href=";
     StoreScraper.TitleSelector := "h1";
     StoreScraper.DateFormat := "02.01.2006";
     StoreScraper.PageImageRegex := "imgproxy";
     StoreScraper.PageImageSelector := "img.page, img.flyer" |}.

Definition store_config (maxPages : Z) : StoreScraper.ScraperConfig :=
  {| StoreScraper.StoreName := "Lidl";
     StoreScraper.CatalogListURL := "https://shop.example/catalogs";
     StoreScraper.URLPattern := "/catalog/";
     StoreScraper.PageURLPattern := "/ar/%d";
     StoreScraper.PageIndexStart := 0;
     StoreScraper.Selectors := store_selectors;
     StoreScraper.WaitTime := 3;
     StoreScraper.MaxCatalogs := 2;
     StoreScraper.MaxPages := maxPages |}.

(** A store environment whose browser answers [pages clk] at clock value
    [clk] and whose downloads get [answer url]. *)
Definition store_env (pages : nat -> result string)
    (answer : string -> result Response) : StoreScraper.Env :=
  {| StoreScraper.os_MkdirAll := fun _ _ => None;
     StoreScraper.os_Create := fun _ _ => None;
     StoreScraper.http_Get := fun _ url => answer url;
     StoreScraper.chromedp_Evaluate := fun clk _ _ => pages clk;
     StoreScraper.filepath_Join := join;
     StoreScraper.strings_ToLower := fun _ => "lidl"%string;
     StoreScraper.fmt_Sprintf := fun _ n => "/ar/" +:+ FormatInt n;
     StoreScraper.time_Now := fun clk => Z.of_nat clk |}.

(** No page has an image. *)
Definition pages_empty (clk : nat) : result string := Ok EmptyString.

(** The first page has an image, the others none. *)
Definition pages_one (clk : nat) : result string :=
  match clk with
  | O => Ok "https://cdn.example/flyer/p1.jpg"%string
  | S _ => Ok "  "%string
  end.

Definition answer_ok (url : string) : result Response := Ok ok_response.

(** The second image is missing. *)
Definition answer_but_second (url : string) : result Response :=
  if String.eqb url "https://cdn.example/flyer/p2.jpg" then Ok missing_response
  else Ok ok_response.

Definition catalog4 : StoreScraper.ScrapedCatalog :=
  {| StoreScraper.Title := "Catalog";
     StoreScraper.ValidFrom := "2026-02-09";
     StoreScraper.ValidUntil := "2026-02-15";
     StoreScraper.CoverImage := "https://cdn.example/flyer/p1.jpg";
     StoreScraper.PageImages :=
       [ "https://cdn.example/flyer/p1.jpg"; "https://cdn.example/flyer/p2.jpg";
         "https://cdn.example/flyer/p3.jpg"; "https://cdn.example/flyer/p4.jpg"
       ]%string |}.

Definition page (n : Z) (url : string) : Api.Page :=
  {| Api.PageNumber := n; Api.ImageURL := url |}.




(** A world in which the destination of a download already exists. *)
Definition w_stale : World :=
  {| clock := 7;
     files := {[ "out/page-001.jpg"%string := "OLD"%string;
                 "out/other.txt"%string := "KEEP"%string ]};
     gets := ["https://cdn.example/flyer/p0.jpg"%string] |}.

End Examples.

(** ** Concrete sites of the store scraper *)

Module StoreExamples.
Import GoLib Outside StoreScraper StoreCatalogs.

(** The matches of a catalog list: the same catalog twice, a page of
    reductions, a match without a group and a link that is no catalog. *)
Definition matches_found : list (list string) :=
  [ [ "href=/l/ro/cataloage/oferte-perioada-09-02-15-02-2026/ar/0";
      "/l/ro/cataloage/oferte-perioada-09-02-15-02-2026/ar/0" ];
    [ "href=https://www.lidl.ro/l/ro/cataloage/oferte-perioada-09-02-15-02-2026/view/flyer/page/1";
      "https://www.lidl.ro/l/ro/cataloage/oferte-perioada-09-02-15-02-2026/view/flyer/page/1" ];
    [ "href=/l/ro/cataloage/reduceri-perioada-01-02-07-02-2026/ar/0";
      "/l/ro/cataloage/reduceri-perioada-01-02-07-02-2026/ar/0" ];
    [ "href=" ];
    [ "href=/l/ro/cataloage/altele/ar/0"; "/l/ro/cataloage/altele/ar/0" ]
  ]%string.

Definition catalog_html : string :=
  "<html><h1 class='t'> Oferte </h1> 09.02.2026 - 15.02.2026</html>".

(** A site whose pages are [html clk] at clock value [clk], whose single
    page holds the images [imgs] and whose patterns compile. *)
Definition site_of (html : nat -> result string) (imgs : result (list Lazy))
  : Site :=
  {| chromedp_OuterHTML := fun clk _ _ => html clk;
     chromedp_Images := fun _ _ _ => imgs;
     regexp_FindAllStringSubmatch := fun _ _ => Returns matches_found;
     time_AddDate := fun t _ _ days => t + days;
     time_Format := fun _ _ => "2026-02-08"%string;
     json_MarshalIndent := fun _ => Ok "[]"%string;
     os_WriteFile := fun _ _ _ => Complete |}.

Definition html_ok (clk : nat) : result string := Ok catalog_html.

(** The browser finds two pages, then the second again. *)
Definition pages_two (clk : nat) : result string :=
  match clk with
  | 3%nat => Ok " https://cdn.example/flyer/p1.jpg "%string
  | 4%nat => Ok "https://cdn.example/flyer/p2.jpg"%string
  | _ => Ok "https://cdn.example/flyer/p2.jpg"%string
  end.

(** Images of a single-page viewer: one loaded, one still lazy, one that
    is no leaflet. *)
Definition lazy_images : list Lazy :=
  [ {| lazy_src := "https://imgproxy.leaflets.schwarz/a.jpg";
       dataset_src := None; data_src := None |};
    {| lazy_src := EmptyString;
       dataset_src := Some "https://cdn.example/leaflets/b.jpg"%string;
       data_src := Some "https://cdn.example/leaflets/b.jpg"%string |};
    {| lazy_src := "https://shop.example/logo.png";
       dataset_src := None; data_src := None |} ].

End StoreExamples.

(** ** A Lidl flyer and a directory of configs *)

Module MoreExamples.
Import GoLib Outside.

(** A flyer of three pages: the run for a fourth page fails. *)
Definition flyer3 : LidlScraper.Browser :=
  {| LidlScraper.chromedp_Flyer := fun clk url =>
       if (clk <? 3)%nat then Ok ("https://imgproxy.leaflets.schwarz" +:+ url)
       else Err "context deadline exceeded"%string |}.

(** A catalog whose period crosses the new year. *)
Definition lidl_url : string :=
  "https://www.lidl.ro/l/ro/cataloage/catalog-perioada-29-12-04-01-2026".

Definition config_entries : list Configs.DirEntry :=
  [ {| Configs.Name := "lidl.json"; Configs.IsDir := false |};
    {| Configs.Name := "old.json"; Configs.IsDir := true |};
    {| Configs.Name := ".json"; Configs.IsDir := false |};
    {| Configs.Name := "notes.txt"; Configs.IsDir := false |};
    {| Configs.Name := "kaufland.JSON"; Configs.IsDir := false |} ].

Definition config_env : Configs.Env :=
  {| Configs.os_ReadDir := fun _ _ => Ok config_entries;
     Configs.os_ReadFile := fun _ path =>
       if String.eqb path "configs/lidl.json" then Ok "{}"%string
       else Err "no such file or directory"%string;
     Configs.json_Unmarshal := fun _ => Ok (Examples.store_config 30);
     Configs.filepath_Join := Examples.join |}.

End MoreExamples.

(** * Theorems *)

Import GoLib Outside.

(** ** Byte strings *)

#[local] Arguments String.append : simpl nomatch.

Section Strings.

Lemma sapp_assoc (a b c : string) : (a +:+ b) +:+ c = a +:+ (b +:+ c).
Proof. induction a as [|x a IH]; simpl; [reflexivity | now rewrite IH]. Qed.

Lemma slength_app (a b : string) :
  String.length (a +:+ b) = (String.length a + String.length b)%nat.
Proof. induction a as [|x a IH]; simpl; [reflexivity | now rewrite IH]. Qed.

Lemma length_drop_bytes : forall (k : nat) (s : string),
  (String.length (drop_bytes k s) <= String.length s)%nat.
Proof.
  induction k as [|k IH]; intros s; [reflexivity|].
  destruct s as [|c t]; [reflexivity|]. simpl. specialize (IH t). lia.
Qed.

Lemma space_width_pos (runes : list string) (s : string) (k : nat) :
  space_width runes s = S k -> s <> EmptyString.
Proof.
  induction runes as [|r runes IH]; simpl; [discriminate|].
  destruct (String.prefix r s) eqn:Hp; [|exact IH].
  intros Hlen ->. destruct r; [discriminate | discriminate].
Qed.

(** [trim_front] has fuel enough in [TrimSpace]: what it returns starts with
    no white space. *)
Lemma trim_front_done (runes : list string) : forall (fuel : nat) (s : string),
  (String.length s <= fuel)%nat ->
  space_width runes (trim_front fuel runes s) = O.
Proof.
  induction fuel as [|fuel IH]; intros s Hlen.
  - destruct s; [|simpl in Hlen; lia]. simpl.
    destruct (space_width runes "") eqn:Hw; [reflexivity|].
    now apply space_width_pos in Hw.
  - simpl. destruct (space_width runes s) as [|k] eqn:Hw; [exact Hw|].
    apply IH. pose proof (space_width_pos _ _ _ Hw) as Hne.
    destruct s as [|c t]; [congruence|]. simpl in *.
    pose proof (length_drop_bytes k t). lia.
Qed.

Lemma TrimLeftSpace_done (s : string) :
  space_width space_runes (TrimLeftSpace s) = O.
Proof. now apply trim_front_done. Qed.

End Strings.

(** No wrap-around inside the range of [int]. *)
Lemma wrap64_id (z : Z) : MinInt <= z <= MaxInt -> wrap64 z = z.
Proof.
  unfold wrap64, MinInt, MaxInt. intros H.
  rewrite Z.mod_small; lia.
Qed.

(** ** URL templater *)

Module TemplaterFacts.
Import ConfigScraper.

Lemma strip_prefix_sound pre : forall s t,
  strip_prefix pre s = Some t -> s = pre +:+ t.
Proof.
  induction pre as [|a pre IH]; intros s t H; simpl in *.
  - now inversion H.
  - destruct s as [|b s]; [discriminate|].
    destruct (Ascii.eqb_spec a b) as [->|]; [|discriminate].
    now rewrite (IH _ _ H).
Qed.

Lemma span_digits_sound : forall s ds rest,
  span_digits s = (ds, rest) ->
  s = ds +:+ rest /\ all_digits ds = true /\ no_digit_ahead rest = true.
Proof.
  induction s as [|c s IH]; intros ds rest H; simpl in H.
  - inversion H; subst. now repeat split.
  - destruct (is_digit c) eqn:Hc.
    + destruct (span_digits s) as [ds' rest'] eqn:Hs. inversion H; subst.
      destruct (IH _ _ eq_refl) as (-> & Hd & Hr). simpl. rewrite Hc.
      now repeat split.
    + inversion H; subst. simpl. rewrite Hc. now repeat split.
Qed.

Lemma match_here_sound s ds rest :
  match_here s = Some (ds, rest) ->
  s = "/page/" +:+ ds +:+ rest /\ ds <> EmptyString /\
  all_digits ds = true /\ no_digit_ahead rest = true.
Proof.
  unfold match_here. intros H.
  destruct (strip_prefix "/page/" s) as [t|] eqn:Hp; [|discriminate].
  apply strip_prefix_sound in Hp.
  destruct (span_digits t) as [d r] eqn:Hs.
  apply span_digits_sound in Hs as (-> & Hd & Hr).
  destruct d as [|c d]; [discriminate|]. inversion H; subst.
  repeat split; auto; discriminate.
Qed.

(** What [find_match] returns is a match, and the leftmost one. *)
Lemma find_match_sound : forall s pre ds rest,
  find_match s = Some (pre, ds, rest) ->
  s = pre +:+ "/page/" +:+ ds +:+ rest /\ ds <> EmptyString /\
  all_digits ds = true /\ no_digit_ahead rest = true /\
  (forall k, (k < String.length pre)%nat -> match_here (drop_bytes k s) = None).
Proof.
  induction s as [|c s IH]; intros pre ds rest H.
  - simpl in H. discriminate.
  - cbn [find_match] in H.
    destruct (match_here (String c s)) as [[d r]|] eqn:Hm.
    + inversion H; subst. apply match_here_sound in Hm as (Hs & Hne & Hd & Hr).
      repeat split; auto. simpl. lia.
    + destruct (find_match s) as [[[p d] r]|] eqn:Hf; [|discriminate].
      inversion H; subst.
      destruct (IH _ _ _ eq_refl) as (Hs & Hne & Hd & Hr & Hleft).
      repeat split; auto.
      * simpl. now rewrite Hs at 1.
      * intros [|k] Hk; [exact Hm|]. simpl. apply Hleft. simpl in Hk. lia.
Qed.

Lemma find_match_none : forall s k,
  find_match s = None -> match_here (drop_bytes k s) = None.
Proof.
  induction s as [|c s IH]; intros k H.
  - destruct k; reflexivity.
  - cbn [find_match] in H.
    destruct (match_here (String c s)) as [[d r]|] eqn:Hm; [discriminate|].
    destruct (find_match s) as [[[p d] r]|] eqn:Hf; [discriminate|].
    destruct k; [exact Hm|]. simpl. now apply IH.
Qed.

Lemma find_match_shorter s pre ds rest :
  find_match s = Some (pre, ds, rest) ->
  (String.length rest < String.length s)%nat.
Proof.
  intros H. apply find_match_sound in H as (-> & _).
  rewrite !slength_app. simpl. lia.
Qed.

Lemma replace_all_enough repl : forall f1 f2 s,
  (String.length s <= f1)%nat -> (String.length s <= f2)%nat ->
  replace_all f1 s repl = replace_all f2 s repl.
Proof.
  induction f1 as [|f1 IH]; intros f2 s H1 H2.
  - destruct s; [|simpl in H1; lia]. now destruct f2.
  - destruct f2 as [|f2].
    + destruct s; [reflexivity | simpl in H2; lia].
    + simpl. destruct (find_match s) as [[[p d] r]|] eqn:Hf; [|reflexivity].
      apply find_match_shorter in Hf.
      rewrite (IH f2 r); [reflexivity | lia | lia].
Qed.

Lemma ReplaceAllString_match s repl pre ds rest :
  find_match s = Some (pre, ds, rest) ->
  ReplaceAllString s repl = pre +:+ repl +:+ ReplaceAllString rest repl.
Proof.
  intros H. unfold ReplaceAllString.
  destruct (String.length s) as [|n] eqn:Hn.
  - apply find_match_shorter in H. lia.
  - simpl. rewrite H. do 2 f_equal.
    apply find_match_shorter in H. apply replace_all_enough; lia.
Qed.

Lemma ReplaceAllString_none s repl :
  find_match s = None -> ReplaceAllString s repl = s.
Proof.
  intros H. unfold ReplaceAllString.
  destruct (String.length s); simpl; [reflexivity | now rewrite H].
Qed.

Lemma replace_all_same F : forall fuel s,
  Forall (eq F) (segments_fuel fuel s) ->
  replace_all fuel s ("/page/" +:+ F) = s.
Proof.
  induction fuel as [|f IH]; intros s H; simpl in *; [reflexivity|].
  destruct (find_match s) as [[[p d] r]|] eqn:Hf; [|reflexivity].
  inversion H as [|? ? Hd Hr]; subst.
  apply find_match_sound in Hf as (Hs & _).
  rewrite (IH _ Hr). symmetry. etransitivity; [exact Hs|]. reflexivity.
Qed.

Lemma span_digits_complete : forall ds rest,
  all_digits ds = true -> no_digit_ahead rest = true ->
  span_digits (ds +:+ rest) = (ds, rest).
Proof.
  induction ds as [|c ds IH]; intros rest Hd Hr; simpl in *.
  - destruct rest as [|c r]; [reflexivity|]. simpl in *.
    now destruct (is_digit c).
  - apply andb_prop in Hd as [Hc Hd]. rewrite Hc. now rewrite (IH _ Hd Hr).
Qed.

Lemma match_here_complete ds rest :
  ds <> EmptyString -> all_digits ds = true -> no_digit_ahead rest = true ->
  match_here ("/page/" +:+ ds +:+ rest) = Some (ds, rest).
Proof.
  intros Hne Hd Hr. unfold match_here.
  change (strip_prefix "/page/" ("/page/" +:+ ds +:+ rest))
    with (Some (ds +:+ rest)).
  cbv beta iota.
  rewrite (span_digits_complete _ _ Hd Hr). now destruct ds.
Qed.

Lemma find_match_complete : forall pre ds rest,
  ds <> EmptyString -> all_digits ds = true -> no_digit_ahead rest = true ->
  (forall k, (k < String.length pre)%nat ->
     match_here (drop_bytes k (pre +:+ "/page/" +:+ ds +:+ rest)) = None) ->
  find_match (pre +:+ "/page/" +:+ ds +:+ rest) = Some (pre, ds, rest).
Proof.
  induction pre as [|c pre IH]; intros ds rest Hne Hd Hr Hleft.
  - change ("" +:+ "/page/" +:+ ds +:+ rest) with ("/page/" +:+ ds +:+ rest).
    destruct ds as [|d ds]; [congruence|].
    change ("/page/" +:+ String d ds +:+ rest)
      with (String "/" ("page/" +:+ String d ds +:+ rest)).
    cbn [find_match].
    change (String "/" ("page/" +:+ String d ds +:+ rest))
      with ("/page/" +:+ String d ds +:+ rest).
    now rewrite (match_here_complete _ _ Hne Hd Hr).
  - change (String c pre +:+ "/page/" +:+ ds +:+ rest)
      with (String c (pre +:+ "/page/" +:+ ds +:+ rest)) in *.
    cbn [find_match].
    pose proof (Hleft O ltac:(simpl; lia)) as H0. cbn [drop_bytes] in H0.
    rewrite H0.
    rewrite (IH ds rest Hne Hd Hr); [reflexivity|].
    intros k Hk. apply (Hleft (S k)). simpl. lia.
Qed.

Lemma string_of_uint_digits (d : Decimal.uint) :
  all_digits (NilEmpty.string_of_uint d) = true.
Proof. induction d; simpl; auto. Qed.

Lemma FormatInt_digits (n : Z) :
  0 <= n -> all_digits (FormatInt n) = true /\ FormatInt n <> EmptyString.
Proof.
  intros Hn. unfold FormatInt. destruct n as [|p|p]; [now split | | lia].
  cbn [Z.to_int NilZero.string_of_int]. unfold NilZero.string_of_uint.
  destruct (Pos.to_uint p) eqn:Hp;
    first [ now split
          | split; [apply (string_of_uint_digits (_ _)) | discriminate] ].
Qed.

Lemma digit_not_sign (c : ascii) :
  is_digit c = true -> Ascii.eqb c "+" = false /\ Ascii.eqb c "-" = false.
Proof.
  intros H. split.
  - destruct (Ascii.eqb_spec c "+") as [->|]; [discriminate | reflexivity].
  - destruct (Ascii.eqb_spec c "-") as [->|]; [discriminate | reflexivity].
Qed.

Lemma range_checked_ok (orig : string) (v n : Z) :
  range_checked orig v = Ok n -> n = v /\ MinInt <= v <= MaxInt.
Proof.
  unfold range_checked. intros H.
  destruct (MinInt <=? v) eqn:H1; destruct (v <=? MaxInt) eqn:H2;
    simpl in H; try discriminate.
  inversion H. lia.
Qed.

(** The page number read from a match of the pattern is not negative. *)
Lemma Atoi_digits_nonneg (ds : string) (n : Z) :
  ds <> EmptyString -> all_digits ds = true -> Atoi ds = Ok n -> 0 <= n.
Proof.
  intros Hne Hd H. destruct ds as [|c ds]; [congruence|].
  simpl in Hd. apply andb_prop in Hd as [Hc _].
  destruct (digit_not_sign c Hc) as [Hp Hm].
  unfold Atoi in H. rewrite Hp, Hm in H. unfold parse_digits in H.
  destruct (NilZero.uint_of_string (String c ds)) as [d|]; [|discriminate].
  apply range_checked_ok in H as [-> _]. unfold Z.of_uint. lia.
Qed.

Lemma extractPageNumber_nonneg (u : string) (n : Z) :
  extractPageNumber u = Ok n -> 0 <= n.
Proof.
  unfold extractPageNumber. intros H.
  destruct (find_match u) as [[[p d] r]|] eqn:Hf; [|discriminate].
  apply find_match_sound in Hf as (_ & Hne & Hd & _).
  eapply Atoi_digits_nonneg; eauto.
Qed.

Lemma replace_all_no_digit_ahead F : forall fuel s,
  no_digit_ahead s = true ->
  no_digit_ahead (replace_all fuel s ("/page/" +:+ F)) = true.
Proof.
  intros [|f] s H; simpl; [exact H|].
  destruct (find_match s) as [[[p d] r]|] eqn:Hf; [|exact H].
  apply find_match_sound in Hf as (Hs & _). subst s.
  destruct p as [|c p]; [reflexivity | exact H].
Qed.

Lemma digits_app_inj (a b x y : string) :
  all_digits a = true -> all_digits b = true ->
  no_digit_ahead x = true -> no_digit_ahead y = true ->
  a +:+ x = b +:+ y -> a = b /\ x = y.
Proof.
  intros Ha Hb Hx Hy H.
  pose proof (span_digits_complete _ _ Ha Hx) as H1.
  pose proof (span_digits_complete _ _ Hb Hy) as H2.
  rewrite H in H1. rewrite H1 in H2. now inversion H2.
Qed.

Lemma replace_all_fixed F : forall fuel s,
  all_digits F = true ->
  replace_all fuel s ("/page/" +:+ F) = s ->
  Forall (eq F) (segments_fuel fuel s).
Proof.
  induction fuel as [|f IH]; intros s HF H;
    cbn [replace_all segments_fuel] in *; [constructor|].
  destruct (find_match s) as [[[p d] r]|] eqn:Hf; [|constructor].
  apply find_match_sound in Hf as (Hs & Hne & Hd & Hr & _).
  assert (H' : F +:+ replace_all f r ("/page/" +:+ F) = d +:+ r).
  { apply (String.app_inj "/page/"), (String.app_inj p).
    etransitivity; [|exact Hs]. exact H. }
  destruct (digits_app_inj _ _ _ _ HF Hd
              (replace_all_no_digit_ahead F f r Hr) Hr H') as [HFd Hrest].
  constructor; auto.
Qed.

Lemma match_here_some_iff (s : string) :
  match_here s <> None <->
  exists d t, is_digit d = true /\ s = "/page/" +:+ String d t.
Proof.
  split.
  - destruct (match_here s) as [[ds rest]|] eqn:Hm; [|congruence]. intros _.
    apply match_here_sound in Hm as (-> & Hne & Hd & _).
    destruct ds as [|d ds]; [congruence|]. simpl in Hd.
    apply andb_prop in Hd as [Hd _]. exists d, (ds +:+ rest). now split.
  - intros (d & t & Hd & ->). unfold match_here.
    change (strip_prefix "/page/" ("/page/" +:+ String d t))
      with (Some (String d t)).
    cbv beta iota. cbn [span_digits]. rewrite Hd.
    destruct (span_digits t). discriminate.
Qed.

(** A match that starts before an occurrence of [/page/] ends before it. *)
Lemma match_here_before (p a b : string) :
  p <> EmptyString ->
  match_here (p +:+ "/page/" +:+ a) = None ->
  match_here (p +:+ "/page/" +:+ b) = None.
Proof.
  intros Hp Ha.
  destruct (match_here (p +:+ "/page/" +:+ b)) as [m|] eqn:Hb; [|reflexivity].
  exfalso.
  assert (Hsome : match_here (p +:+ "/page/" +:+ b) <> None) by congruence.
  apply match_here_some_iff in Hsome as (d & t & Hd & Heq).
  assert (Hlong : exists p2, p = "/page/" +:+ String d p2).
  { destruct p as [|c1 [|c2 [|c3 [|c4 [|c5 [|c6 [|c7 p]]]]]]];
      [congruence | | | | | | |]; cbn in Heq; inversion Heq; subst;
      try discriminate.
    now exists p. }
  destruct Hlong as [p2 ->].
  assert (Hnone : match_here (("/page/" +:+ String d p2) +:+ "/page/" +:+ a)
                  <> None).
  { apply match_here_some_iff. exists d, (p2 +:+ "/page/" +:+ a). now split. }
  contradiction.
Qed.

Lemma drop_bytes_inside : forall (k : nat) (p y : string),
  (k < String.length p)%nat ->
  drop_bytes k p <> EmptyString /\
  drop_bytes k (p +:+ y) = drop_bytes k p +:+ y.
Proof.
  induction k as [|k IH]; intros p y Hk;
    (destruct p as [|c p]; [simpl in Hk; lia|]).
  - split; [discriminate | reflexivity].
  - cbn [drop_bytes String.append]. apply IH. simpl in Hk. lia.
Qed.

(** No match starts inside [pre], whatever follows [/page/]. *)
Lemma leftmost_transfer (pre a b : string) :
  (forall k, (k < String.length pre)%nat ->
     match_here (drop_bytes k (pre +:+ "/page/" +:+ a)) = None) ->
  forall k, (k < String.length pre)%nat ->
    match_here (drop_bytes k (pre +:+ "/page/" +:+ b)) = None.
Proof.
  intros Ha k Hk. specialize (Ha k Hk).
  destruct (drop_bytes_inside k pre ("/page/" +:+ a) Hk) as (Hq & Hqa).
  destruct (drop_bytes_inside k pre ("/page/" +:+ b) Hk) as (_ & Hqb).
  rewrite Hqb. rewrite Hqa in Ha.
  now apply (match_here_before (drop_bytes k pre) a b).
Qed.

Lemma segments_enough : forall f1 f2 s,
  (String.length s <= f1)%nat -> (String.length s <= f2)%nat ->
  segments_fuel f1 s = segments_fuel f2 s.
Proof.
  induction f1 as [|f1 IH]; intros f2 s H1 H2.
  - destruct s; [|simpl in H1; lia]. now destruct f2.
  - destruct f2 as [|f2].
    + destruct s; [reflexivity | simpl in H2; lia].
    + simpl. destruct (find_match s) as [[[p d] r]|] eqn:Hf; [|reflexivity].
      apply find_match_shorter in Hf.
      rewrite (IH f2 r); [reflexivity | lia | lia].
Qed.

Lemma page_segments_match s pre ds rest :
  find_match s = Some (pre, ds, rest) ->
  page_segments s = ds :: page_segments rest.
Proof.
  intros H. unfold page_segments.
  destruct (String.length s) as [|n] eqn:Hn.
  - apply find_match_shorter in H. lia.
  - simpl. rewrite H. f_equal.
    apply find_match_shorter in H. apply segments_enough; lia.
Qed.

Lemma page_segments_none s : find_match s = None -> page_segments s = [].
Proof.
  intros H. unfold page_segments.
  destruct (String.length s); simpl; [reflexivity | now rewrite H].
Qed.

(** After [buildPageURL] every page segment carries the new number. *)
Lemma page_segments_buildPageURL (n : Z) :
  0 <= n ->
  forall (fuel : nat) (u : string),
    (String.length u <= fuel)%nat ->
    page_segments (buildPageURL u n) =
    map (fun _ => FormatInt n) (page_segments u).
Proof.
  intros Hn. destruct (FormatInt_digits n Hn) as [HF HFne].
  induction fuel as [|fuel IH]; intros u Hlen.
  - destruct u; [reflexivity | simpl in Hlen; lia].
  - destruct (find_match u) as [[[pre ds] rest]|] eqn:Hf.
    + unfold buildPageURL in *.
      rewrite (ReplaceAllString_match _ _ _ _ _ Hf).
      rewrite (page_segments_match _ _ _ _ Hf). cbn [map].
      pose proof (find_match_shorter _ _ _ _ Hf) as Hshort.
      apply find_match_sound in Hf as (Hu & Hne & Hd & Hr & Hleft).
      rewrite <- (IH rest) by lia.
      apply (page_segments_match _ pre).
      change (pre +:+ ("/page/" +:+ FormatInt n) +:+
              ReplaceAllString rest ("/page/" +:+ FormatInt n))
        with (pre +:+ "/page/" +:+ FormatInt n +:+
              ReplaceAllString rest ("/page/" +:+ FormatInt n)).
      apply find_match_complete; auto.
      * now apply replace_all_no_digit_ahead.
      * apply (leftmost_transfer pre (ds +:+ rest)). now rewrite <- Hu.
    + unfold buildPageURL. rewrite (ReplaceAllString_none _ _ Hf).
      now rewrite (page_segments_none _ Hf).
Qed.

(** [C4], as the code has it: [extractPageNumber] reads the first
    occurrence of [/page/<digits>] in the URL, and [buildPageURL] puts the
    page number there and goes on substituting in what follows the
    occurrence, so that every page segment of the URL it returns carries
    the new number; it returns a URL, never a failure. Here the URL is
    [pre ++ "/page/" ++ ds ++ rest] with [ds] a maximal non-empty run of
    digits and no occurrence of the pattern starting inside [pre]. *)
Theorem templater_first_occurrence_then_all (pre ds rest : string) (n : Z) :
  ds <> EmptyString -> all_digits ds = true -> no_digit_ahead rest = true ->
  (forall k, (k < String.length pre)%nat ->
     match_here (drop_bytes k (pre +:+ "/page/" +:+ ds +:+ rest)) = None) ->
  extractPageNumber (pre +:+ "/page/" +:+ ds +:+ rest) = Atoi ds /\
  buildPageURL (pre +:+ "/page/" +:+ ds +:+ rest) n =
    pre +:+ "/page/" +:+ FormatInt n +:+ buildPageURL rest n /\
  (0 <= n ->
   page_segments (buildPageURL (pre +:+ "/page/" +:+ ds +:+ rest) n) =
   map (fun _ => FormatInt n)
     (page_segments (pre +:+ "/page/" +:+ ds +:+ rest))).
Proof.
  intros Hne Hd Hr Hleft.
  pose proof (find_match_complete _ _ _ Hne Hd Hr Hleft) as Hf.
  split; [|split].
  - unfold extractPageNumber. now rewrite Hf.
  - unfold buildPageURL. rewrite (ReplaceAllString_match _ _ _ _ _ Hf).
    reflexivity.
  - intros Hn. now apply (page_segments_buildPageURL n Hn _ _ (le_n _)).
Qed.

Lemma templater_first_occurrence_then_all_witness :
  extractPageNumber "https://shop.example/c/page/3/more/page/9" = Atoi "3" /\
  buildPageURL "https://shop.example/c/page/3/more/page/9" 7 =
    "https://shop.example/c" +:+ "/page/" +:+ FormatInt 7 +:+
    buildPageURL "/more/page/9" 7 /\
  page_segments (buildPageURL "https://shop.example/c/page/3/more/page/9" 7) =
    map (fun _ => FormatInt 7)
      (page_segments "https://shop.example/c/page/3/more/page/9").
Proof.
  destruct (templater_first_occurrence_then_all
              "https://shop.example/c" "3" "/more/page/9" 7)
    as (Hextract & Hbuild & Hsegments).
  - discriminate.
  - reflexivity.
  - reflexivity.
  - intros k Hk. simpl in Hk.
    do 22 (destruct k as [|k]; [reflexivity|]). lia.
  - split; [exact Hextract | split; [exact Hbuild | apply Hsegments; lia]].
Defined.

(** [C4] fails as stated: on a template with two page segments
    [buildPageURL] returns a URL, and both segments carry the new number. *)
Lemma buildPageURL_two_segments :
  page_segments "https://shop.example/c/page/3/more/page/9" = ["3"; "9"]%string /\
  buildPageURL "https://shop.example/c/page/3/more/page/9" 7 =
    "https://shop.example/c/page/7/more/page/7".
Proof. split; reflexivity. Qed.

(** [C5] fails as stated: leading zeros are not put back. *)
Lemma roundtrip_leading_zeros :
  extractPageNumber "https://shop.example/c/page/007" = Ok 7 /\
  buildPageURL "https://shop.example/c/page/007" 7 <>
    "https://shop.example/c/page/007".
Proof. split; [reflexivity | discriminate]. Qed.

(** [C5], as the code has it: putting the extracted page number back gives
    the same URL exactly when every [/page/<digits>] segment of the URL is
    that number as Go prints it (no leading zeros, and the same number in
    every segment). *)
Theorem roundtrip_exactly_when_canonical (u : string) (n : Z) :
  extractPageNumber u = Ok n ->
  (buildPageURL u n = u <-> Forall (eq (FormatInt n)) (page_segments u)).
Proof.
  intros Hn. unfold buildPageURL, ReplaceAllString, page_segments. split.
  - apply replace_all_fixed.
    now apply FormatInt_digits, (extractPageNumber_nonneg u).
  - apply replace_all_same.
Qed.

Lemma roundtrip_exactly_when_canonical_witness :
  buildPageURL "https://shop.example/c/page/12/view" 12 =
    "https://shop.example/c/page/12/view" <->
  Forall (eq (FormatInt 12)) (page_segments "https://shop.example/c/page/12/view").
Proof.
  apply (roundtrip_exactly_when_canonical
           "https://shop.example/c/page/12/view" 12).
  reflexivity.
Defined.

End TemplaterFacts.

(** ** Image locator *)

Module LocatorFacts.
Import ConfigScraper.












End LocatorFacts.

(** ** Asset fetcher *)

Module FetcherFacts.
Import ConfigScraper.

(** [C7], as the code has it: [downloadImage] returns [nil] exactly when
    the GET succeeds with status 200, the destination file is created and
    the copy of the body ends without error. A transport error is returned
    as it is, another status as an [HTTP <code>: <status>] error, and a
    failure to create the file or to copy the body as that error. One GET
    is issued, whatever its outcome. *)
Theorem downloadImage_outcome (env : Env) (imageURL filePath : string)
    (w : World) :
  (fst (downloadImage env imageURL filePath w) = None <->
   exists resp,
     http_Get env (clock w) imageURL = Ok resp /\
     StatusCode resp = 200 /\
     os_Create env (S (clock w)) filePath = None /\
     copy_err (Body resp) = None) /\
  (forall err, http_Get env (clock w) imageURL = Err err ->
     fst (downloadImage env imageURL filePath w) = Some err) /\
  (forall resp, http_Get env (clock w) imageURL = Ok resp ->
     StatusCode resp <> 200 ->
     fst (downloadImage env imageURL filePath w) =
       Some ("HTTP " +:+ FormatInt (StatusCode resp) +:+ ": " +:+ Status resp)) /\
  (forall resp err, http_Get env (clock w) imageURL = Ok resp ->
     StatusCode resp = 200 ->
     os_Create env (S (clock w)) filePath = Some err ->
     fst (downloadImage env imageURL filePath w) = Some err) /\
  (forall resp, http_Get env (clock w) imageURL = Ok resp ->
     StatusCode resp = 200 ->
     os_Create env (S (clock w)) filePath = None ->
     fst (downloadImage env imageURL filePath w) = copy_err (Body resp)) /\
  gets (snd (downloadImage env imageURL filePath w)) = gets w ++ [imageURL].
Proof.
  unfold downloadImage. cbn [tick log_get clock].
  destruct (http_Get env (clock w) imageURL) as [resp|e] eqn:Hget.
  - destruct (Z.eqb_spec (StatusCode resp) 200) as [Hs|Hs]; cbn [negb].
    + destruct (os_Create env (S (clock w)) filePath) as [e|] eqn:Hc;
        cbn [fst snd].
      * repeat split; try congruence; try discriminate.
        intros (r & Hr & _ & Hn & _). congruence.
      * repeat split; try congruence.
        -- intros H. exists resp. auto.
        -- intros (r & Hr & _ & _ & Hn). congruence.
    + cbn [fst snd]. repeat split; try congruence; try discriminate.
      intros (r & Hr & H2 & _). congruence.
  - cbn [fst snd]. repeat split; try congruence; try discriminate.
    intros (r & Hr & _). discriminate.
Qed.

Lemma downloadImage_outcome_witness :
  fst (downloadImage Examples.env_missing "https://cdn.example/flyer/p1.jpg"
         "out/page-001.jpg" Examples.w0) =
  Some ("HTTP " +:+ FormatInt 404 +:+ ": " +:+ "404 Not Found").
Proof.
  destruct (downloadImage_outcome Examples.env_missing
              "https://cdn.example/flyer/p1.jpg" "out/page-001.jpg"
              Examples.w0) as (_ & _ & H & _).
  apply (H Examples.missing_response); [reflexivity | discriminate].
Defined.

(** [C7] fails as stated: the GET is answered 200 and [downloadImage]
    returns an error, the file not being creatable. *)
Lemma downloadImage_200_yet_error :
  http_Get Examples.env_no_create O "https://cdn.example/flyer/p1.jpg" =
    Ok Examples.ok_response /\
  StatusCode Examples.ok_response = 200 /\
  fst (downloadImage Examples.env_no_create "https://cdn.example/flyer/p1.jpg"
         "out/page-001.jpg" Examples.w0) = Some "permission denied"%string.
Proof. repeat split. Qed.

(** [C8], as the code has it: when the GET is answered 200, the file is
    created and the copy of the body fails, [downloadImage] returns the
    error of the copy and leaves the destination file in place, holding the
    bytes copied before the failure; what the file held before is gone. *)
Theorem downloadImage_broken_body_leaves_partial_file (env : Env)
    (imageURL filePath : string) (w : World) (resp : Response) (err : error) :
  http_Get env (clock w) imageURL = Ok resp ->
  StatusCode resp = 200 ->
  os_Create env (S (clock w)) filePath = None ->
  copy_err (Body resp) = Some err ->
  fst (downloadImage env imageURL filePath w) = Some err /\
  files (snd (downloadImage env imageURL filePath w)) !! filePath =
    Some (copied (Body resp)) /\
  forall other, other <> filePath ->
    files (snd (downloadImage env imageURL filePath w)) !! other =
    files w !! other.
Proof.
  intros Hget Hs Hc He. unfold downloadImage. cbn [tick log_get clock].
  rewrite Hget, Hs, Hc. cbn [negb Z.eqb Pos.eqb fst snd write_file files].
  repeat split.
  - exact He.
  - apply lookup_insert_eq.
  - intros other Hne. now rewrite !lookup_insert_ne by congruence.
Qed.

Lemma downloadImage_broken_body_leaves_partial_file_witness :
  fst (downloadImage Examples.env_broken_body
         "https://cdn.example/flyer/p1.jpg" "out/page-001.jpg" Examples.w0) =
    Some "unexpected EOF"%string /\
  files (snd (downloadImage Examples.env_broken_body
                "https://cdn.example/flyer/p1.jpg" "out/page-001.jpg"
                Examples.w0)) !! "out/page-001.jpg"%string =
    Some (copied (Body Examples.broken_response)) /\
  forall other, other <> "out/page-001.jpg"%string ->
    files (snd (downloadImage Examples.env_broken_body
                  "https://cdn.example/flyer/p1.jpg" "out/page-001.jpg"
                  Examples.w0)) !! other =
    files Examples.w0 !! other.
Proof.
  apply (downloadImage_broken_body_leaves_partial_file
           Examples.env_broken_body "https://cdn.example/flyer/p1.jpg"
           "out/page-001.jpg" Examples.w0 Examples.broken_response
           "unexpected EOF"); reflexivity.
Defined.

(** [C8] fails as stated: the body breaks after three bytes, and the
    destination, which did not exist, holds these three bytes afterwards. *)
Lemma downloadImage_partial_file_left :
  fst (downloadImage Examples.env_broken_body
         "https://cdn.example/flyer/p1.jpg" "out/page-001.jpg" Examples.w0) =
    Some "unexpected EOF"%string /\
  files Examples.w0 !! "out/page-001.jpg"%string = None /\
  files (snd (downloadImage Examples.env_broken_body
                "https://cdn.example/flyer/p1.jpg" "out/page-001.jpg"
                Examples.w0)) !! "out/page-001.jpg"%string = Some "JPE"%string.
Proof. repeat split. Qed.

(** [C10]: when the GET is answered with a status other than 200, both
    versions of [downloadImage] return an error and leave every file as it
    was: the destination is neither created nor truncated nor written. *)
Theorem downloadImage_bad_status_leaves_files (resp : Response) :
  StatusCode resp <> 200 ->
  (forall (env : Env) (imageURL filePath : string) (w : World),
     http_Get env (clock w) imageURL = Ok resp ->
     fst (downloadImage env imageURL filePath w) =
       Some ("HTTP " +:+ FormatInt (StatusCode resp) +:+ ": " +:+ Status resp) /\
     files (snd (downloadImage env imageURL filePath w)) = files w) /\
  (forall (env : StoreScraper.Env) (url dir filename : string) (w : World),
     StoreScraper.http_Get env (clock w) url = Ok resp ->
     fst (StoreScraper.downloadImage env url dir filename w) =
       Err ("status: " +:+ Status resp) /\
     files (snd (StoreScraper.downloadImage env url dir filename w)) = files w).
Proof.
  intros Hs. apply Z.eqb_neq in Hs. split.
  - intros env imageURL filePath w Hget. unfold downloadImage.
    rewrite Hget, Hs. split; reflexivity.
  - intros env url dir filename w Hget. unfold StoreScraper.downloadImage.
    rewrite Hget, Hs. split; reflexivity.
Qed.

Lemma downloadImage_bad_status_leaves_files_witness :
  (fst (downloadImage Examples.env_missing "https://cdn.example/flyer/p1.jpg"
          "out/page-001.jpg" Examples.w0) =
     Some ("HTTP " +:+ FormatInt 404 +:+ ": " +:+ "404 Not Found") /\
   files (snd (downloadImage Examples.env_missing
                 "https://cdn.example/flyer/p1.jpg" "out/page-001.jpg"
                 Examples.w0)) = files Examples.w0) /\
  (fst (StoreScraper.downloadImage
          (Examples.store_env Examples.pages_one Examples.answer_but_second)
          "https://cdn.example/flyer/p2.jpg" "out" "page-02.jpg" Examples.w0) =
     Err ("status: " +:+ "404 Not Found") /\
   files (snd (StoreScraper.downloadImage
                 (Examples.store_env Examples.pages_one
                    Examples.answer_but_second)
                 "https://cdn.example/flyer/p2.jpg" "out" "page-02.jpg"
                 Examples.w0)) = files Examples.w0).
Proof.
  destruct (downloadImage_bad_status_leaves_files Examples.missing_response)
    as [Hconfig Hstore]; [discriminate|].
  split; [apply Hconfig | apply Hstore]; reflexivity.
Defined.

End FetcherFacts.

(** ** Page iteration of the store scraper *)

Module IterationFacts.
Import StoreScraper.

Section Triple.

Variables (env : Env) (baseURL : string) (config : ScraperConfig).
Variables (w0 : World) (k : Z).

Hypothesis k_pos : 1 <= k.
Hypothesis k_in_range : k + 2 <= MaxPages config.
Hypothesis range_is_int : MaxPages config <= MaxInt.

Local Abbreviation stale_triple := (stale_triple env baseURL config w0 k).
Local Abbreviation inv := (loop_inv env baseURL config w0 k).

Lemma visited_step (page : Z) (st : Iter) :
  1 <= page -> visited st = seqZ 1 (page - 1) ->
  visited st ++ [page] = seqZ 1 page.
Proof.
  intros Hp ->. replace page with ((page - 1) + 1) at 3 by lia.
  rewrite seqZ_app by lia. f_equal.
  replace (1 + (page - 1)) with page by lia.
  rewrite seqZ_cons by lia. now rewrite seqZ_nil by lia.
Qed.

(** One run of the body: it stops the loop, or leaves a state ready for the
    next page; at [k + 2] it stops the loop. *)
Lemma scrape_page_inv (page : Z) (st : Iter) (w : World) :
  stale_triple -> inv page st w ->
  match scrape_page env baseURL config page st w with
  | (Break, st', _) => visited st' = seqZ 1 page
  | (Continue, st', w') => page < k + 2 /\ inv (page + 1) st' w'
  end.
Proof.
  intros Htriple (Hpage & Hclk & Hvis & Hcnt & Hlate).
  assert (Hout : page_outcome env baseURL config w0 page =
                 resolution (evaluate_page env baseURL config page (clock w))).
  { unfold page_outcome. now rewrite Hclk. }
  assert (Hclk' : clock (tick w) = (clock w0 + Z.to_nat (page + 1 - 1))%nat).
  { cbn [tick clock]. rewrite Hclk. lia. }
  pose proof (visited_step page st ltac:(lia) Hvis) as Hvis'.
  unfold scrape_page.
  assert (Hempty :
    resolution (evaluate_page env baseURL config page (clock w)) = None ->
    match count_empty page st with
    | (Break, st') => visited st' = seqZ 1 page
    | (Continue, st') =>
        page < k + 2 /\ inv (page + 1) st' (tick w)
    end).
  { intros Hnone. rewrite <- Hout in Hnone. unfold count_empty.
    cbn [emptyCount visited seen found].
    destruct (Z.geb_spec (emptyCount st + 1) 3) as [Hge|Hlt]; [exact Hvis'|].
    assert (Hnot_last : page < k + 2).
    { destruct (Z.lt_ge_cases page (k + 2)) as [|Hlast]; [assumption|].
      assert (page = k + 2) by lia. subst page.
      destruct (Hlate ltac:(lia)) as [Hcount Hseen].
      destruct Htriple as [Hall|[u Hall]].
      - specialize (Hcount Hall). lia.
      - rewrite (Hall (k + 2)) in Hnone by lia. discriminate. }
    split; [exact Hnot_last|].
    unfold loop_inv. cbn [emptyCount visited seen found].
    replace (page + 1 - 1) with page by lia.
    repeat split; try lia; try assumption.
    - intros Hall. destruct (Z.lt_ge_cases k page) as [Hk|Hk].
      + destruct (Hlate Hk) as [Hcount _]. specialize (Hcount Hall). lia.
      + lia.
    - intros u Hall. rewrite (Hall page) in Hnone by lia. discriminate. }
  destruct (evaluate_page env baseURL config page (clock w)) as [url|e] eqn:He.
  - cbn [resolution] in Hempty, Hout.
    destruct (String.eqb (TrimSpace url) "") eqn:Hurl.
    + specialize (Hempty eq_refl).
      destruct (count_empty page st) as [[] st']; exact Hempty.
    + destruct (bool_decide (TrimSpace url ∈ seen st)) eqn:Hseen.
      * exact Hvis'.
      * cbn [visited]. apply bool_decide_eq_false in Hseen.
        assert (Hnot_last : page < k + 2).
        { destruct (Z.lt_ge_cases page (k + 2)) as [|Hlast]; [assumption|].
          assert (page = k + 2) by lia. subst page.
          destruct (Hlate ltac:(lia)) as [Hcount Hin].
          destruct Htriple as [Hall|[u Hall]].
          - rewrite (Hall (k + 2)) in Hout by lia. discriminate.
          - specialize (Hin u Hall).
            rewrite (Hall (k + 2)) in Hout by lia. inversion Hout; subst u.
            contradiction. }
        split; [exact Hnot_last|].
        unfold loop_inv. cbn [emptyCount visited seen found].
        replace (page + 1 - 1) with page by lia.
        repeat split; try lia; try assumption.
        -- intros Hall. rewrite (Hall page) in Hout by lia. discriminate.
        -- intros u Hall. destruct (Z.lt_ge_cases k page) as [Hk|Hk].
           ++ destruct (Hlate Hk) as [_ Hin]. specialize (Hin u Hall).
              now apply elem_of_union_r.
           ++ rewrite (Hall page) in Hout by lia. inversion Hout.
              now apply elem_of_union_l, elem_of_singleton.
  - specialize (Hempty eq_refl).
    destruct (count_empty page st) as [[] st']; exact Hempty.
Qed.

(** The loop from [page] on ends within [k + 3 - page] iterations, having
    run its body for the pages from 1 to some page not after [k + 2]. *)
Lemma scrape_loop_stops : forall (fuel : nat) (page : Z) (st : Iter) (w : World),
  stale_triple -> inv page st w ->
  match scrape_loop fuel env baseURL config page st w with
  | Some (st', _) => exists m, 1 <= m <= k + 2 /\ visited st' = seqZ 1 m
  | None => Z.of_nat fuel < k + 3 - page
  end.
Proof.
  induction fuel as [|fuel IH]; intros page st w Htriple Hinv;
    pose proof Hinv as (Hpage & _); cbn [scrape_loop];
    (destruct (Z.leb_spec page (MaxPages config)) as [_|Hout]; [|lia]).
  - lia.
  - pose proof (scrape_page_inv page st w Htriple Hinv) as Hbody.
    destruct (scrape_page env baseURL config page st w) as [[[] st'] w'].
    + destruct Hbody as [Hlt Hinv'].
      rewrite wrap64_id by (unfold MinInt, MaxInt in *; lia).
      specialize (IH (page + 1) st' w' Htriple Hinv').
      destruct (scrape_loop fuel env baseURL config (page + 1) st' w')
        as [[st'' w'']|]; [exact IH | lia].
    + exists page. split; [lia | exact Hbody].
Qed.

Lemma inv_start : inv 1 Iter0 w0.
Proof.
  unfold loop_inv. cbn [visited emptyCount seen Iter0].
  repeat split; try lia.
Qed.

End Triple.

(** [C2], as the code has it: when three consecutive pages [k], [k+1],
    [k+2] of the range resolve to no image URL, or all three to the same
    image URL, the iteration ends within [k + 2] runs of its body and has
    visited the pages from 1 to some page not after [k + 2]: no page after
    the third of the three is visited. *)
Theorem page_iteration_stops_by_third_page (env : Env) (baseURL : string)
    (config : ScraperConfig) (w : World) (k : Z) :
  1 <= k -> k + 2 <= MaxPages config -> MaxPages config <= MaxInt ->
  ((forall j, k <= j <= k + 2 -> page_outcome env baseURL config w j = None) \/
   (exists u, forall j, k <= j <= k + 2 ->
      page_outcome env baseURL config w j = Some u)) ->
  (forall fuel st w',
     page_by_page fuel env baseURL config w = Some (st, w') ->
     exists m, 1 <= m <= k + 2 /\ visited st = seqZ 1 m) /\
  (forall fuel, k + 2 <= Z.of_nat fuel ->
     exists st w', page_by_page fuel env baseURL config w = Some (st, w')).
Proof.
  intros Hk Hrange Hint Htriple.
  assert (Hloop : forall fuel,
    match scrape_loop fuel env baseURL config 1 Iter0 w with
    | Some (st', _) => exists m, 1 <= m <= k + 2 /\ visited st' = seqZ 1 m
    | None => Z.of_nat fuel < k + 3 - 1
    end).
  { intros fuel. apply (scrape_loop_stops env baseURL config w k); auto.
    now apply inv_start. }
  unfold page_by_page. split.
  - intros fuel st w' Hrun. specialize (Hloop fuel). now rewrite Hrun in Hloop.
  - intros fuel Hfuel. specialize (Hloop fuel).
    destruct (scrape_loop fuel env baseURL config 1 Iter0 w) as [[st w']|];
      [eauto | lia].
Qed.

Lemma page_iteration_stops_by_third_page_witness :
  exists st w',
    page_by_page 4 (Examples.store_env Examples.pages_one Examples.answer_ok)
      "https://shop.example/c" (Examples.store_config 10) Examples.w0 =
      Some (st, w') /\
    exists m, 1 <= m <= 2 + 2 /\ visited st = seqZ 1 m.
Proof.
  destruct (page_iteration_stops_by_third_page
              (Examples.store_env Examples.pages_one Examples.answer_ok)
              "https://shop.example/c" (Examples.store_config 10)
              Examples.w0 2) as [Hbound Hends].
  - lia.
  - simpl. lia.
  - unfold MaxInt. simpl. lia.
  - left. intros j Hj.
    assert (Hcases : j = 2 \/ j = 3 \/ j = 4) by lia.
    destruct Hcases as [-> | [-> | ->]]; reflexivity.
  - destruct (Hends 4%nat) as (st & w' & Hrun); [lia|].
    exists st, w'. split; [exact Hrun | exact (Hbound _ _ _ Hrun)].
Defined.

(** [C2] fails as stated: in a range of three pages that all resolve to no
    image URL, the iteration runs its body for the last page of the range
    before it stops. *)
Lemma page_iteration_reaches_last_page :
  MaxPages (Examples.store_config 3) = 3 /\
  map (page_outcome (Examples.store_env Examples.pages_empty Examples.answer_ok)
         "https://shop.example/c" (Examples.store_config 3) Examples.w0)
      [1; 2; 3] = [None; None; None] /\
  option_map (fun r => visited (fst r))
    (page_by_page 3 (Examples.store_env Examples.pages_empty Examples.answer_ok)
       "https://shop.example/c" (Examples.store_config 3) Examples.w0) =
    Some [1; 2; 3].
Proof. repeat split. Qed.

End IterationFacts.

(** ** sortPages and the download phase *)

Module SortFacts.
Import StoreScraper.

Lemma sweep_length : forall rest x, length (snd (sweep x rest)) = length rest.
Proof.
  induction rest as [|y ys IH]; intros x; simpl; [reflexivity|].
  destruct (PageNumber x >? PageNumber y).
  - specialize (IH y). destruct (sweep y ys); simpl in *. lia.
  - specialize (IH x). destruct (sweep x ys); simpl in *. lia.
Qed.

Lemma sweep_perm : forall rest x,
  Permutation (x :: rest) (fst (sweep x rest) :: snd (sweep x rest)).
Proof.
  induction rest as [|y ys IH]; intros x; simpl; [reflexivity|].
  destruct (PageNumber x >? PageNumber y).
  - specialize (IH y). destruct (sweep y ys) as [m r]; simpl in *.
    etransitivity; [apply perm_skip, IH | apply perm_swap].
  - specialize (IH x). destruct (sweep x ys) as [m r]; simpl in *.
    etransitivity; [apply perm_swap|].
    etransitivity; [apply perm_skip, IH | apply perm_swap].
Qed.

(** The slot ends with a page of least number. *)
Lemma sweep_least : forall rest x,
  le_page (fst (sweep x rest)) x /\
  Forall (le_page (fst (sweep x rest))) (snd (sweep x rest)).
Proof.
  unfold le_page.
  induction rest as [|y ys IH]; intros x; simpl; [split; [lia | constructor]|].
  destruct (Z.gtb_spec (PageNumber x) (PageNumber y)) as [Hgt|Hle].
  - specialize (IH y). destruct (sweep y ys) as [m r]; simpl in *.
    destruct IH as [Hm Hr]. split; [lia|]. constructor; [lia | exact Hr].
  - specialize (IH x). destruct (sweep x ys) as [m r]; simpl in *.
    destruct IH as [Hm Hr]. split; [lia|]. constructor; [lia | exact Hr].
Qed.

Lemma sweep_all_perm : forall n l, Permutation l (sweep_all n l).
Proof.
  induction n as [|n IH]; intros l; simpl; [reflexivity|].
  destruct l as [|x rest]; [reflexivity|].
  pose proof (sweep_perm rest x) as Hp.
  destruct (sweep x rest) as [m r]; simpl in *.
  rewrite Hp. constructor. apply IH.
Qed.

Lemma sweep_all_sorted : forall n l,
  length l = n -> StronglySorted le_page (sweep_all n l).
Proof.
  induction n as [|n IH]; intros l Hl.
  - destruct l; [constructor | discriminate].
  - destruct l as [|x rest]; [discriminate|]. simpl.
    pose proof (sweep_least rest x) as [_ Hr].
    pose proof (sweep_length rest x) as Hlen.
    destruct (sweep x rest) as [m r]; simpl in *.
    constructor.
    + apply IH. lia.
    + eapply Permutation_Forall; [apply sweep_all_perm | exact Hr].
Qed.

Lemma insert_middle {A} (l1 l2 : list A) (x y : A) :
  <[length l1 := y]> (l1 ++ x :: l2) = l1 ++ y :: l2.
Proof. induction l1 as [|a l1 IH]; simpl; [reflexivity | now rewrite IH]. Qed.

Lemma compare_swap_middle (pre mid ys : list Page) (x y : Page) :
  compare_swap (pre ++ x :: mid ++ y :: ys)
    (length pre) (length pre + 1 + length mid) =
  if PageNumber x >? PageNumber y then pre ++ y :: mid ++ x :: ys
  else pre ++ x :: mid ++ y :: ys.
Proof.
  assert (Hj : (length pre + 1 + length mid)%nat = length (pre ++ x :: mid))
    by (rewrite length_app; simpl; lia).
  assert (Hx : (pre ++ x :: mid ++ y :: ys) !! length pre = Some x)
    by now apply list_lookup_middle.
  assert (Hy : (pre ++ x :: mid ++ y :: ys) !! (length pre + 1 + length mid)%nat
               = Some y).
  { rewrite Hj. change (pre ++ x :: mid ++ y :: ys)
      with (pre ++ (x :: mid) ++ y :: ys).
    rewrite app_assoc. now apply list_lookup_middle. }
  unfold compare_swap, swap. rewrite Hx, Hy.
  destruct (PageNumber x >? PageNumber y); [|reflexivity].
  rewrite insert_middle.
  assert (Hj' : (length pre + 1 + length mid)%nat = length (pre ++ y :: mid))
    by (rewrite length_app; simpl; lia).
  rewrite Hj'. change (pre ++ y :: mid ++ y :: ys)
    with (pre ++ (y :: mid) ++ y :: ys).
  rewrite app_assoc, insert_middle, <- app_assoc. reflexivity.
Qed.

(** The inner loop for slot [i], from slot [j] to the end. *)
Lemma inner_loop_sweep : forall (rest pre mid : list Page) (x : Page),
  inner_loop (length rest) (length pre) (length pre + 1 + length mid)
    (pre ++ x :: mid ++ rest) =
  pre ++ fst (sweep x rest) :: mid ++ snd (sweep x rest).
Proof.
  induction rest as [|y ys IH]; intros pre mid x; [reflexivity|].
  cbn [length inner_loop sweep]. rewrite compare_swap_middle.
  assert (Hj : S (length pre + 1 + length mid) =
               (length pre + 1 + length (mid ++ [x]))%nat)
    by (rewrite length_app; simpl; lia).
  assert (Hj' : S (length pre + 1 + length mid) =
                (length pre + 1 + length (mid ++ [y]))%nat)
    by (rewrite length_app; simpl; lia).
  destruct (PageNumber x >? PageNumber y).
  - rewrite Hj.
    replace (pre ++ y :: mid ++ x :: ys) with (pre ++ y :: (mid ++ [x]) ++ ys)
      by (now rewrite <- app_assoc).
    rewrite IH. destruct (sweep y ys) as [m r]. simpl.
    now rewrite <- app_assoc.
  - rewrite Hj'.
    replace (pre ++ x :: mid ++ y :: ys) with (pre ++ x :: (mid ++ [y]) ++ ys)
      by (now rewrite <- app_assoc).
    rewrite IH. destruct (sweep x ys) as [m r]. simpl.
    now rewrite <- app_assoc.
Qed.

(** The outer loop from slot [i] on. *)
Lemma outer_loop_sweep_all : forall (n : nat) (pre suf : list Page),
  length suf = n ->
  outer_loop n (length pre) (pre ++ suf) = pre ++ sweep_all n suf.
Proof.
  induction n as [|n IH]; intros pre suf Hn; [reflexivity|].
  destruct suf as [|x rest]; [discriminate|].
  cbn [outer_loop sweep_all].
  replace (length (pre ++ x :: rest) - (length pre + 1))%nat
    with (length rest) by (rewrite length_app; simpl; lia).
  pose proof (inner_loop_sweep rest pre [] x) as Hin.
  rewrite Nat.add_0_r in Hin. cbn [app] in Hin. rewrite Hin.
  pose proof (sweep_length rest x) as Hlen.
  destruct (sweep x rest) as [m r]. cbn [fst snd] in *.
  replace (S (length pre)) with (length (pre ++ [m]))
    by (rewrite length_app; simpl; lia).
  replace (pre ++ m :: r) with ((pre ++ [m]) ++ r)
    by (now rewrite <- app_assoc).
  rewrite IH by (simpl in Hn; lia). now rewrite <- app_assoc.
Qed.

Lemma sortPages_sweep_all (pages : list Page) :
  sortPages pages = sweep_all (length pages) pages.
Proof. apply (outer_loop_sweep_all (length pages) [] pages). reflexivity. Qed.

Lemma sortPages_perm (pages : list Page) : Permutation pages (sortPages pages).
Proof. rewrite sortPages_sweep_all. apply sweep_all_perm. Qed.

Lemma sortPages_sorted (pages : list Page) :
  StronglySorted le_page (sortPages pages).
Proof. rewrite sortPages_sweep_all. now apply sweep_all_sorted. Qed.

(** [stable_sort] is a stable sort by page number. *)

Lemma stable_insert_perm (p : Page) : forall l,
  Permutation (p :: l) (stable_insert p l).
Proof.
  induction l as [|q l IH]; simpl; [reflexivity|].
  destruct (PageNumber p <=? PageNumber q); [reflexivity|].
  etransitivity; [apply perm_swap | apply perm_skip, IH].
Qed.

Lemma stable_sort_perm : forall l, Permutation l (stable_sort l).
Proof.
  induction l as [|p l IH]; simpl; [reflexivity|].
  etransitivity; [apply perm_skip, IH | apply stable_insert_perm].
Qed.

Lemma stable_insert_sorted (p : Page) : forall l,
  StronglySorted le_page l -> StronglySorted le_page (stable_insert p l).
Proof.
  induction l as [|q l IH]; intros Hs; simpl.
  - repeat constructor.
  - inversion Hs as [|? ? Hl Hq]; subst.
    destruct (Z.leb_spec (PageNumber p) (PageNumber q)) as [Hle|Hgt].
    + constructor; [exact Hs|]. constructor; [exact Hle|].
      eapply Forall_impl; [exact Hq|]. unfold le_page. intros a Ha. lia.
    + constructor; [now apply IH|].
      eapply Permutation_Forall; [apply stable_insert_perm|].
      constructor; [unfold le_page; lia | exact Hq].
Qed.

Lemma stable_sort_sorted : forall l, StronglySorted le_page (stable_sort l).
Proof.
  induction l as [|p l IH]; simpl; [constructor|].
  now apply stable_insert_sorted.
Qed.

Lemma stable_insert_keeps_order (n : Z) (p : Page) : forall l,
  List.filter (has_number n) (stable_insert p l) =
  List.filter (has_number n) (p :: l).
Proof.
  induction l as [|q l IH]; [reflexivity|]. cbn [stable_insert].
  destruct (Z.leb_spec (PageNumber p) (PageNumber q)) as [Hle|Hgt];
    [reflexivity|].
  cbn [List.filter] in *. rewrite IH. unfold has_number.
  destruct (Z.eqb_spec (PageNumber p) n), (Z.eqb_spec (PageNumber q) n);
    try reflexivity.
  lia.
Qed.

(** Pages of the same number leave [stable_sort] in the order they came. *)
Lemma stable_sort_stable (n : Z) : forall l,
  List.filter (has_number n) (stable_sort l) = List.filter (has_number n) l.
Proof.
  induction l as [|p l IH]; [reflexivity|]. cbn [stable_sort].
  rewrite stable_insert_keeps_order. cbn [List.filter]. now rewrite IH.
Qed.

Lemma same_number_same_page (l : list Page) : forall p q,
  NoDup (map PageNumber l) -> In p l -> In q l ->
  PageNumber p = PageNumber q -> p = q.
Proof.
  induction l as [|a l IH]; intros p q Hnd Hp Hq Heq; [contradiction|].
  simpl in Hnd. apply NoDup_cons in Hnd as [Ha Hnd].
  destruct Hp as [->|Hp], Hq as [->|Hq]; auto.
  - exfalso. apply Ha. rewrite Heq. apply list_elem_of_In. now apply in_map.
  - exfalso. apply Ha. rewrite <- Heq. apply list_elem_of_In. now apply in_map.
Qed.

(** [C9], as the code has it: on pages of pairwise different numbers, which
    is what the download phase sorts, [sortPages] gives what a stable sort
    by page number gives. *)
Theorem sortPages_is_stable_sort_on_distinct_numbers (pages : list Page) :
  NoDup (map PageNumber pages) -> sortPages pages = stable_sort pages.
Proof.
  intros Hnd.
  apply (StronglySorted_unique_strong le_page).
  - intros p q Hp Hq Hpq Hqp. unfold le_page in *.
    apply (same_number_same_page pages); auto; [| |lia].
    + apply list_elem_of_In in Hp.
      eapply Permutation_in; [symmetry; apply sortPages_perm | exact Hp].
    + apply list_elem_of_In in Hq.
      eapply Permutation_in; [symmetry; apply stable_sort_perm | exact Hq].
  - apply sortPages_sorted.
  - apply stable_sort_sorted.
  - etransitivity; [symmetry; apply sortPages_perm | apply stable_sort_perm].
Qed.

Lemma sortPages_is_stable_sort_on_distinct_numbers_witness :
  sortPages [Examples.page 3 "c"; Examples.page 1 "a"; Examples.page 2 "b"] =
  stable_sort [Examples.page 3 "c"; Examples.page 1 "a"; Examples.page 2 "b"].
Proof.
  apply (sortPages_is_stable_sort_on_distinct_numbers
           [Examples.page 3 "c"; Examples.page 1 "a"; Examples.page 2 "b"]).
  apply (bool_decide_unpack _). vm_compute. exact I.
Defined.

(** [C9] fails as stated: [sortPages] swaps two pages of the same number
    when a page of a smaller number comes after them. *)
Lemma sortPages_not_stable :
  sortPages [Examples.page 2 "a"; Examples.page 2 "b"; Examples.page 1 "c"] <>
  stable_sort [Examples.page 2 "a"; Examples.page 2 "b"; Examples.page 1 "c"].
Proof. vm_compute. discriminate. Qed.

(** The download phase. *)

Lemma spawn_lookup (config : ScraperConfig) : forall urls i k num url,
  spawn config i urls !! k = Some (num, url) -> num = i + Z.of_nat k.
Proof.
  induction urls as [|u urls IH]; intros i k num url H; [discriminate|].
  cbn [spawn] in H. destruct (i >=? MaxPages config); [discriminate|].
  destruct k as [|k]; cbn in H.
  - inversion H. lia.
  - apply IH in H. lia.
Qed.

Lemma goroutine_numbers (env : Env) (id dir : string) (num : Z)
    (imgURL : string) (pages : list Page) (w : World) :
  map PageNumber (fst (goroutine env id dir num imgURL pages w)) =
    map PageNumber pages \/
  map PageNumber (fst (goroutine env id dir num imgURL pages w)) =
    map PageNumber pages ++ [num + 1].
Proof.
  unfold goroutine.
  destruct (downloadImage env imgURL dir
              ("page-" +:+ FormatIntPad 2 (num + 1) +:+ ".jpg") w)
    as [[path|e] w'].
  - right. cbn [fst]. now rewrite map_app.
  - left. reflexivity.
Qed.

(** The numbers of the pages the pool appends are those of a subsequence of
    the schedule. *)
Lemma run_pool_numbers (env : Env) (id dir : string)
    (tasks : list (Z * string)) :
  (forall k num url, tasks !! k = Some (num, url) -> num = Z.of_nat k) ->
  forall schedule pages w,
  exists ks,
    sublist ks schedule /\
    map PageNumber (fst (run_pool env id dir tasks schedule pages w)) =
    map PageNumber pages ++ map (fun k => Z.of_nat k + 1) ks.
Proof.
  intros Htasks.
  induction schedule as [|k rest IH]; intros pages w; cbn [run_pool].
  - exists []. split; [constructor|]. now rewrite app_nil_r.
  - destruct (tasks !! k) as [[num url]|] eqn:Hk.
    + pose proof (goroutine_numbers env id dir num url pages w) as Hg.
      destruct (goroutine env id dir num url pages w) as [pages' w'].
      cbn [fst] in Hg. destruct (IH pages' w') as (ks & Hsub & Hks).
      rewrite Hks. destruct Hg as [-> | ->].
      * exists ks. split; [now constructor | reflexivity].
      * exists (k :: ks). split; [now constructor|].
        rewrite <- app_assoc. cbn [map app].
        now rewrite (Htasks k num url Hk).
    + destruct (IH pages w) as (ks & Hsub & Hks).
      exists ks. split; [now constructor | exact Hks].
Qed.

Lemma strictly_sorted (l : list Z) :
  StronglySorted Z.le l -> NoDup l -> StronglySorted Z.lt l.
Proof.
  induction 1 as [|a l Hs IH Ha]; intros Hnd; [constructor|].
  apply NoDup_cons in Hnd as [Hnotin Hnd]. constructor; [now apply IH|].
  apply Forall_forall. intros x Hx.
  assert (a <= x) by (rewrite Forall_forall in Ha; now apply Ha).
  assert (a <> x) by (intros ->; contradiction).
  lia.
Qed.

Lemma sorted_numbers (l : list Page) :
  StronglySorted le_page l -> StronglySorted Z.le (map PageNumber l).
Proof.
  induction 1 as [|a l Hs IH Ha]; simpl; constructor; [exact IH|].
  apply Forall_forall. intros x Hx. apply list_elem_of_In, in_map_iff in Hx.
  destruct Hx as (p & <- & Hp). rewrite Forall_forall in Ha.
  apply Ha. now apply list_elem_of_In.
Qed.

(** [C3]: whatever the order in which the goroutines of the pool complete,
    the page numbers of the catalog returned by the download phase are
    strictly increasing, so none occurs twice. *)
Theorem final_pages_strictly_increasing (env : Env) (schedule : list nat)
    (catalog : ScrapedCatalog) (config : ScraperConfig) (w w' : World)
    (newsletter : Newsletter) :
  Permutation schedule
    (seq 0 (length (spawn config 0 (PageImages catalog)))) ->
  downloadCatalogImages env schedule catalog config w = (Ok newsletter, w') ->
  StronglySorted Z.lt (map PageNumber (Pages newsletter)) /\
  NoDup (map PageNumber (Pages newsletter)).
Proof.
  intros Hsched Hrun. unfold downloadCatalogImages in Hrun.
  destruct (os_MkdirAll env (clock w) _); [discriminate|].
  match type of Hrun with
  | context [run_pool ?e ?i ?d ?t ?s ?p ?w0] =>
      destruct (run_pool_numbers e i d t
                  ltac:(intros k num url Hk; apply spawn_lookup in Hk; lia)
                  s p w0) as (ks & Hsub & Hks);
      destruct (run_pool e i d t s p w0) as [pages w3]
  end.
  inversion Hrun; subst newsletter w'. cbn [Pages fst map app] in *.
  assert (Hnd : NoDup (map PageNumber pages)).
  { rewrite Hks.
    assert (Hinj : Inj eq eq (fun k : nat => Z.of_nat k + 1))
      by (intros a b Hab; lia).
    apply (NoDup_fmap_2 (fun k : nat => Z.of_nat k + 1)).
    eapply sublist_NoDup; [|exact Hsub].
    rewrite Hsched. apply NoDup_seq. }
  assert (Hnd' : NoDup (map PageNumber (sortPages pages))).
  { now rewrite <- (Permutation_map PageNumber (sortPages_perm pages)). }
  split; [|exact Hnd'].
  apply strictly_sorted; [|exact Hnd'].
  apply sorted_numbers, sortPages_sorted.
Qed.

Lemma final_pages_strictly_increasing_witness :
  StronglySorted Z.lt
    (map PageNumber
       [Examples.page 1 "/newsletters/lidl-20260209/page-01.jpg";
        Examples.page 3 "/newsletters/lidl-20260209/page-03.jpg";
        Examples.page 4 "/newsletters/lidl-20260209/page-04.jpg"]) /\
  NoDup
    (map PageNumber
       [Examples.page 1 "/newsletters/lidl-20260209/page-01.jpg";
        Examples.page 3 "/newsletters/lidl-20260209/page-03.jpg";
        Examples.page 4 "/newsletters/lidl-20260209/page-04.jpg"]).
Proof.
  apply (final_pages_strictly_increasing
           (Examples.store_env Examples.pages_one Examples.answer_but_second)
           [3; 1; 0; 2]%nat Examples.catalog4 (Examples.store_config 10)
           Examples.w0
           (snd (downloadCatalogImages
                   (Examples.store_env Examples.pages_one
                      Examples.answer_but_second)
                   [3; 1; 0; 2]%nat Examples.catalog4
                   (Examples.store_config 10) Examples.w0))
           {| ID := "lidl-20260209";
              Store := "Lidl";
              Api.Title := "Catalog";
              Api.ValidFrom := "2026-02-09";
              Api.ValidUntil := "2026-02-15";
              Api.CoverImage := "/newsletters/lidl-20260209/cover.jpg";
              Pages :=
                [Examples.page 1 "/newsletters/lidl-20260209/page-01.jpg";
                 Examples.page 3 "/newsletters/lidl-20260209/page-03.jpg";
                 Examples.page 4 "/newsletters/lidl-20260209/page-04.jpg"];
              LastUpdated := 10 |}).
  - apply (bool_decide_unpack _). vm_compute. exact I.
  - vm_compute. reflexivity.
Defined.

End SortFacts.

(** ** The config-driven run *)

Module RunFacts.
Import ConfigScraper.

Lemma LoadScraperConfig_clock (env : Env) (configPath : string) (w : World) :
  snd (LoadScraperConfig env configPath w) = tick w.
Proof.
  unfold LoadScraperConfig.
  destruct (os_ReadFile env (clock w) configPath) as [data|e]; [|reflexivity].
  now destruct (json_Unmarshal env data).
Qed.





End RunFacts.

(** ** More on the URL templater *)

Module TemplaterMore.
Import ConfigScraper TemplaterFacts.

Lemma uint_of_char_digit (c : ascii) (d : Decimal.uint) :
  is_digit c = true -> exists d', uint_of_char c (Some d) = Some d'.
Proof.
  destruct c as [[] [] [] [] [] [] [] []]; intros H;
    try discriminate H; cbn; eauto.
Qed.

Lemma digits_parse : forall s,
  all_digits s = true -> exists d, NilEmpty.uint_of_string s = Some d.
Proof.
  induction s as [|c s IH]; intros H; [now exists Decimal.Nil|].
  simpl in H. apply andb_prop in H as [Hc Hs].
  destruct (IH Hs) as [d Hd]. cbn [NilEmpty.uint_of_string]. rewrite Hd.
  now apply uint_of_char_digit.
Qed.

Lemma parse_digits_total (s : string) :
  s <> EmptyString -> all_digits s = true ->
  exists v, parse_digits s = Some v /\ 0 <= v.
Proof.
  intros Hne Hd. destruct (digits_parse s Hd) as [d Hs].
  unfold parse_digits, NilZero.uint_of_string.
  destruct s; [congruence|]. rewrite Hs. eexists. split; [reflexivity|].
  unfold Z.of_uint. lia.
Qed.

Lemma Atoi_digits (s : string) :
  s <> EmptyString -> all_digits s = true ->
  Atoi s = match parse_digits s with
           | Some v => range_checked s v
           | None => Err EmptyString
           end.
Proof.
  intros Hne Hd. destruct (parse_digits_total s Hne Hd) as (v & Hv & _).
  destruct s as [|c s]; [congruence|].
  simpl in Hd. apply andb_prop in Hd as [Hc _].
  destruct (digit_not_sign c Hc) as [Hp Hm].
  unfold Atoi. now rewrite Hp, Hm, Hv.
Qed.

(** What [fmt] prints for a page number, [strconv] reads back. *)
Lemma Atoi_FormatInt (n : Z) : 0 <= n <= MaxInt -> Atoi (FormatInt n) = Ok n.
Proof.
  intros Hn. destruct (FormatInt_digits n ltac:(lia)) as [Hd Hne].
  rewrite (Atoi_digits _ Hne Hd).
  assert (Hp : parse_digits (FormatInt n) = Some n).
  { unfold parse_digits, FormatInt. destruct n as [|p|p]; [reflexivity| |lia].
    cbn [Z.to_int NilZero.string_of_int].
    rewrite NilZero.usu by apply DecimalPos.Unsigned.to_uint_nonnil.
    unfold Z.of_uint. now rewrite DecimalPos.Unsigned.of_to. }
  rewrite Hp. unfold range_checked.
  destruct (Z.leb_spec MinInt n); [|unfold MinInt in *; lia].
  destruct (Z.leb_spec n MaxInt); [reflexivity | lia].
Qed.

Lemma find_match_complete_iff (u : string) :
  find_match u = None <-> forall k, match_here (drop_bytes k u) = None.
Proof.
  split; [intros H k; now apply find_match_none|].
  induction u as [|c u IH]; intros H; [reflexivity|]. cbn [find_match].
  pose proof (H O) as H0. cbn [drop_bytes] in H0. rewrite H0.
  rewrite IH; [reflexivity|]. intros k. apply (H (S k)).
Qed.

(** The first match in a rebuilt URL is the rebuilt first match. *)
Lemma find_match_buildPageURL (u pre ds rest : string) (n : Z) :
  0 <= n -> find_match u = Some (pre, ds, rest) ->
  find_match (buildPageURL u n) =
    Some (pre, FormatInt n, buildPageURL rest n).
Proof.
  intros Hn Hf. destruct (FormatInt_digits n Hn) as [HF HFne].
  unfold buildPageURL. rewrite (ReplaceAllString_match _ _ _ _ _ Hf).
  apply find_match_sound in Hf as (Hu & Hne & Hd & Hr & Hleft).
  change (pre +:+ ("/page/" +:+ FormatInt n) +:+
          ReplaceAllString rest ("/page/" +:+ FormatInt n))
    with (pre +:+ "/page/" +:+ FormatInt n +:+
          ReplaceAllString rest ("/page/" +:+ FormatInt n)).
  apply find_match_complete; auto.
  - now apply replace_all_no_digit_ahead.
  - apply (leftmost_transfer pre (ds +:+ rest)). now rewrite <- Hu.
Qed.

(** [X1]: a page number put into a URL that has a page segment is read back
    from the URL built, for every page number an [int] can hold from 0 on. *)
Theorem extractPageNumber_buildPageURL (u : string) (n : Z) :
  page_segments u <> [] -> 0 <= n <= MaxInt ->
  extractPageNumber (buildPageURL u n) = Ok n.
Proof.
  intros Hseg Hn. destruct (find_match u) as [[[pre ds] rest]|] eqn:Hf.
  - unfold extractPageNumber.
    rewrite (find_match_buildPageURL _ _ _ _ n ltac:(lia) Hf).
    now apply Atoi_FormatInt.
  - now rewrite (page_segments_none _ Hf) in Hseg.
Qed.

Lemma extractPageNumber_buildPageURL_witness :
  extractPageNumber (buildPageURL "https://shop.example/c/page/007/x" 42) =
  Ok 42.
Proof.
  apply (extractPageNumber_buildPageURL "https://shop.example/c/page/007/x" 42).
  - discriminate.
  - unfold MaxInt. lia.
Defined.

Lemma buildPageURL_last_wins_fuel (m n : Z) :
  0 <= m -> 0 <= n ->
  forall (fuel : nat) (u : string), (String.length u <= fuel)%nat ->
    buildPageURL (buildPageURL u m) n = buildPageURL u n.
Proof.
  intros Hm Hn. induction fuel as [|fuel IH]; intros u Hlen.
  - destruct u; [reflexivity | simpl in Hlen; lia].
  - destruct (find_match u) as [[[pre ds] rest]|] eqn:Hf.
    + pose proof (find_match_buildPageURL _ _ _ _ m Hm Hf) as Hf'.
      pose proof (find_match_shorter _ _ _ _ Hf) as Hshort.
      unfold buildPageURL at 1.
      rewrite (ReplaceAllString_match _ _ _ _ _ Hf').
      fold (buildPageURL (buildPageURL rest m) n).
      rewrite (IH rest) by lia.
      unfold buildPageURL at 2.
      now rewrite (ReplaceAllString_match _ _ _ _ _ Hf).
    + unfold buildPageURL at 2. now rewrite (ReplaceAllString_none _ _ Hf).
Qed.

(** [X2]: building from a URL already built gives what building from the
    template gives: only the last page number shows. In particular building
    twice with the same number changes nothing. *)
Theorem buildPageURL_last_wins (u : string) (m n : Z) :
  0 <= m -> 0 <= n ->
  buildPageURL (buildPageURL u m) n = buildPageURL u n.
Proof.
  intros Hm Hn. now apply (buildPageURL_last_wins_fuel m n Hm Hn _ u (le_n _)).
Qed.

Lemma buildPageURL_last_wins_witness :
  buildPageURL (buildPageURL "https://shop.example/c/page/1/p/page/1" 5) 12 =
  buildPageURL "https://shop.example/c/page/1/p/page/1" 12.
Proof.
  apply (buildPageURL_last_wins "https://shop.example/c/page/1/p/page/1" 5 12);
    lia.
Defined.

Lemma range_checked_err (orig : string) (v : Z) (e : error) :
  range_checked orig v = Err e -> v < MinInt \/ MaxInt < v.
Proof.
  unfold range_checked. intros H.
  destruct (Z.leb_spec MinInt v); destruct (Z.leb_spec v MaxInt);
    simpl in H; try discriminate; lia.
Qed.

(** [X3]: a page number read from a URL lies between 0 and the largest
    [int]; reading fails exactly when the URL has no page segment or the
    digits of its first page segment denote a number above the largest
    [int]. *)
Theorem extractPageNumber_outcome (u : string) :
  (forall n, extractPageNumber u = Ok n -> 0 <= n <= MaxInt) /\
  ((exists e, extractPageNumber u = Err e) <->
   page_segments u = [] \/
   exists ds later v,
     page_segments u = ds :: later /\ parse_digits ds = Some v /\ MaxInt < v).
Proof.
  unfold extractPageNumber.
  destruct (find_match u) as [[[pre ds] rest]|] eqn:Hf.
  - rewrite (page_segments_match _ _ _ _ Hf).
    apply find_match_sound in Hf as (_ & Hne & Hd & _).
    rewrite (Atoi_digits _ Hne Hd).
    destruct (parse_digits_total _ Hne Hd) as (v & Hv & Hpos). rewrite Hv.
    split.
    + intros n Hn. apply range_checked_ok in Hn as [-> Hr]. lia.
    + split.
      * intros [e He]. right. exists ds, (page_segments rest), v.
        apply range_checked_err in He. unfold MinInt in He.
        repeat split; auto. lia.
      * intros [Hnil | (ds' & later & v' & Hseg & Hv' & Hbig)];
          [discriminate|].
        inversion Hseg; subst ds'. rewrite Hv in Hv'. inversion Hv'; subst v'.
        unfold range_checked.
        destruct (Z.leb_spec v MaxInt); [lia|]. rewrite andb_false_r. eauto.
  - rewrite (page_segments_none _ Hf). split; [discriminate|].
    split; eauto.
Qed.

Lemma extractPageNumber_outcome_witness :
  exists e, extractPageNumber "https://shop.example/c/page/9223372036854775808"
            = Err e.
Proof.
  destruct (extractPageNumber_outcome
              "https://shop.example/c/page/9223372036854775808") as [_ H].
  apply H. right.
  exists "9223372036854775808"%string, [], 9223372036854775808.
  split; [reflexivity|]. split; [reflexivity|]. unfold MaxInt. lia.
Defined.

(** [X4]: a URL in which no [/page/<digits>] starts anywhere is returned as
    it is by [buildPageURL], whatever the page number, and
    [extractPageNumber] reports that no page number is found in it. *)
Theorem no_page_segment_unchanged (u : string) (n : Z) :
  (forall k, match_here (drop_bytes k u) = None) ->
  buildPageURL u n = u /\
  extractPageNumber u = Err ("page number not found in URL: " +:+ u).
Proof.
  intros H. apply find_match_complete_iff in H. split.
  - now apply ReplaceAllString_none.
  - unfold extractPageNumber. now rewrite H.
Qed.

Lemma no_page_segment_unchanged_witness :
  buildPageURL "/page/x" 3 = "/page/x"%string /\
  extractPageNumber "/page/x" =
    Err ("page number not found in URL: " +:+ "/page/x").
Proof.
  apply (no_page_segment_unchanged "/page/x" 3).
  intros k. do 8 (destruct k as [|k]; [reflexivity|]). reflexivity.
Defined.

End TemplaterMore.

(** ** More on sortPages *)

Module SortMore.
Import StoreScraper SortFacts.

(** [X5]: for every list of pages, [sortPages] returns the same pages,
    each as often as it came, in non-decreasing order of page number. *)
Theorem sortPages_sorts (pages : list Page) :
  Permutation pages (sortPages pages) /\
  StronglySorted le_page (sortPages pages) /\
  length (sortPages pages) = length pages.
Proof.
  split; [apply sortPages_perm|]. split; [apply sortPages_sorted|].
  symmetry. apply Permutation_length, sortPages_perm.
Qed.

Lemma sweep_least_first : forall rest x,
  Forall (le_page x) rest -> sweep x rest = (x, rest).
Proof.
  induction rest as [|y ys IH]; intros x H; [reflexivity|].
  inversion H as [|? ? Hy Hys]; subst. cbn [sweep]. unfold le_page in Hy.
  destruct (Z.gtb_spec (PageNumber x) (PageNumber y)); [lia|].
  now rewrite (IH x Hys).
Qed.

Lemma sweep_all_sorted_id : forall n l,
  StronglySorted le_page l -> sweep_all n l = l.
Proof.
  induction n as [|n IH]; intros l Hs; [reflexivity|].
  destruct l as [|x rest]; [reflexivity|].
  inversion Hs as [|? ? Hrest Hx]; subst. cbn [sweep_all].
  rewrite (sweep_least_first rest x Hx). now rewrite (IH rest Hrest).
Qed.

(** [X6]: [sortPages] leaves a list that is already in non-decreasing order
    of page number exactly as it is, pages of equal number included; so
    sorting twice gives what sorting once gives. *)
Theorem sortPages_keeps_sorted (pages : list Page) :
  (StronglySorted le_page pages -> sortPages pages = pages) /\
  sortPages (sortPages pages) = sortPages pages.
Proof.
  assert (H : forall l, StronglySorted le_page l -> sortPages l = l).
  { intros l Hl. rewrite sortPages_sweep_all. now apply sweep_all_sorted_id. }
  split; [apply H|]. apply H, sortPages_sorted.
Qed.

Lemma sortPages_keeps_sorted_witness :
  sortPages [Examples.page 1 "c"; Examples.page 2 "a"; Examples.page 2 "b"] =
  [Examples.page 1 "c"; Examples.page 2 "a"; Examples.page 2 "b"].
Proof.
  destruct (sortPages_keeps_sorted
              [Examples.page 1 "c"; Examples.page 2 "a"; Examples.page 2 "b"])
    as [H _].
  apply H. unfold le_page. repeat constructor; simpl; lia.
Defined.

End SortMore.

(** ** More on the image locator and the asset fetcher *)

Module LocatorMore.
Import ConfigScraper LocatorFacts.

Lemma sapp_not_empty (a b : string) : a <> EmptyString -> a +:+ b <> EmptyString.
Proof. destruct a; [congruence | discriminate]. Qed.

(** [X7]: [extractImageFromPage] only advances the clock: it writes no file
    and issues no GET. A URL it returns is not empty: it is the answer of
    the page script without surrounding white space, as it is when it
    starts with [http] or when the page URL does not parse, and after the
    scheme and host of the page URL otherwise. *)
Theorem extractImageFromPage_result (env : Env) (pageURL : string) (w : World) :
  snd (extractImageFromPage env pageURL w) = tick w /\
  forall imageURL,
    fst (extractImageFromPage env pageURL w) = Ok imageURL ->
    imageURL <> EmptyString /\
    exists doc,
      chromedp_Run env (clock w) pageURL = Ok doc /\
      TrimSpace (selectorJS doc) <> EmptyString /\
      ((HasPrefix (TrimSpace (selectorJS doc)) "http" = true /\
        imageURL = TrimSpace (selectorJS doc)) \/
       (HasPrefix (TrimSpace (selectorJS doc)) "http" = false /\
        match url_Parse env pageURL with
        | Ok (scheme, host) =>
            imageURL = scheme +:+ "://" +:+ host +:+ TrimSpace (selectorJS doc)
        | Err _ => imageURL = TrimSpace (selectorJS doc)
        end)).
Proof.
  unfold extractImageFromPage.
  destruct (chromedp_Run env (clock w) pageURL) as [doc|e]; [|split; [reflexivity | discriminate]].
  destruct (String.eqb_spec (TrimSpace (selectorJS doc)) "") as [Hempty|Hne];
    [split; [reflexivity | discriminate]|].
  destruct (HasPrefix (TrimSpace (selectorJS doc)) "http") eqn:Hhttp.
  - split; [reflexivity|]. intros url H. inversion H; subst url.
    split; [exact Hne|]. exists doc. auto.
  - destruct (url_Parse env pageURL) as [[scheme host]|e] eqn:Hparse.
    + split; [reflexivity|]. intros url H. inversion H; subst url. split.
      * destruct scheme; [|discriminate]. discriminate.
      * exists doc. auto.
    + split; [reflexivity|]. intros url H. inversion H; subst url.
      split; [exact Hne|]. exists doc. auto.
Qed.

Lemma extractImageFromPage_result_witness :
  "https://cdn.example/flyer/p1.jpg"%string <> EmptyString /\
  exists doc,
    chromedp_Run Examples.env_ok (clock Examples.w0)
      "https://shop.example/c/page/1" = Ok doc /\
    TrimSpace (selectorJS doc) <> EmptyString /\
    ((HasPrefix (TrimSpace (selectorJS doc)) "http" = true /\
      "https://cdn.example/flyer/p1.jpg"%string = TrimSpace (selectorJS doc)) \/
     (HasPrefix (TrimSpace (selectorJS doc)) "http" = false /\
      match url_Parse Examples.env_ok "https://shop.example/c/page/1" with
      | Ok (scheme, host) =>
          "https://cdn.example/flyer/p1.jpg"%string =
          scheme +:+ "://" +:+ host +:+ TrimSpace (selectorJS doc)
      | Err _ =>
          "https://cdn.example/flyer/p1.jpg"%string = TrimSpace (selectorJS doc)
      end)).
Proof.
  destruct (extractImageFromPage_result Examples.env_ok
              "https://shop.example/c/page/1" Examples.w0) as [_ H].
  apply H. reflexivity.
Defined.





(** [X9]: when the GET is answered 200, the file is created and the body
    is copied to its end, both versions of [downloadImage] report success
    and leave the destination holding exactly the body, whatever it held
    before; no other file changes and one GET is recorded. The version with
    a directory returns the joined path. *)
Theorem downloadImage_success (resp : Response) :
  StatusCode resp = 200 -> copy_err (Body resp) = None ->
  (forall (env : Env) (imageURL filePath : string) (w : World),
     http_Get env (clock w) imageURL = Ok resp ->
     os_Create env (S (clock w)) filePath = None ->
     fst (downloadImage env imageURL filePath w) = None /\
     files (snd (downloadImage env imageURL filePath w)) =
       <[filePath := copied (Body resp)]> (files w) /\
     gets (snd (downloadImage env imageURL filePath w)) =
       gets w ++ [imageURL]) /\
  (forall (env : StoreScraper.Env) (url dir filename : string) (w : World),
     StoreScraper.http_Get env (clock w) url = Ok resp ->
     StoreScraper.os_Create env (S (clock w))
       (StoreScraper.filepath_Join env dir filename) = None ->
     fst (StoreScraper.downloadImage env url dir filename w) =
       Ok (StoreScraper.filepath_Join env dir filename) /\
     files (snd (StoreScraper.downloadImage env url dir filename w)) =
       <[StoreScraper.filepath_Join env dir filename := copied (Body resp)]>
         (files w) /\
     gets (snd (StoreScraper.downloadImage env url dir filename w)) =
       gets w ++ [url]).
Proof.
  intros Hs Hc. split.
  - intros env imageURL filePath w Hget Hcreate. unfold downloadImage.
    cbn [tick log_get clock]. rewrite Hget, Hs, Hcreate, Hc.
    cbn [negb Z.eqb Pos.eqb fst snd write_file files gets].
    repeat split. apply insert_insert_eq.
  - intros env url dir filename w Hget Hcreate.
    unfold StoreScraper.downloadImage.
    cbn [tick log_get clock]. rewrite Hget, Hs, Hcreate, Hc.
    cbn [negb Z.eqb Pos.eqb fst snd write_file files gets].
    repeat split. apply insert_insert_eq.
Qed.

Lemma downloadImage_success_witness :
  (fst (downloadImage Examples.env_ok "https://cdn.example/flyer/p1.jpg"
          "out/page-001.jpg" Examples.w_stale) = None /\
   files (snd (downloadImage Examples.env_ok "https://cdn.example/flyer/p1.jpg"
                 "out/page-001.jpg" Examples.w_stale)) =
     <["out/page-001.jpg"%string := copied (Body Examples.ok_response)]>
       (files Examples.w_stale) /\
   gets (snd (downloadImage Examples.env_ok "https://cdn.example/flyer/p1.jpg"
                "out/page-001.jpg" Examples.w_stale)) =
     gets Examples.w_stale ++ ["https://cdn.example/flyer/p1.jpg"%string]) /\
  fst (StoreScraper.downloadImage
         (Examples.store_env Examples.pages_one Examples.answer_ok)
         "https://cdn.example/flyer/p1.jpg" "out" "page-001.jpg"
         Examples.w_stale) = Ok (Examples.join "out" "page-001.jpg").
Proof.
  destruct (downloadImage_success Examples.ok_response eq_refl eq_refl)
    as [Hconfig Hstore].
  split.
  - apply Hconfig; reflexivity.
  - apply Hstore; reflexivity.
Defined.

End LocatorMore.

(** ** More on the config-driven run *)

Module RunMore.
Import ConfigScraper RunFacts RunPaths.

Lemma wrap64_in_int (z : Z) : MinInt <= wrap64 z <= MaxInt.
Proof.
  unfold wrap64, MinInt, MaxInt.
  pose proof (Z.mod_pos_bound (z + 2 ^ 63) (2 ^ 64) ltac:(lia)). lia.
Qed.

Lemma extractImageFromPage_world (env : Env) (pageURL : string) (w : World) :
  snd (extractImageFromPage env pageURL w) = tick w.
Proof.
  unfold extractImageFromPage.
  destruct (chromedp_Run env (clock w) pageURL) as [doc|e]; [|reflexivity].
  destruct (String.eqb (TrimSpace (selectorJS doc)) ""); [reflexivity|].
  destruct (HasPrefix (TrimSpace (selectorJS doc)) "http"); [reflexivity|].
  now destruct (url_Parse env pageURL) as [[scheme host]|e].
Qed.

(** A download changes no file but its destination, and records one GET. *)
Lemma downloadImage_world (env : Env) (imageURL filePath : string) (w : World) :
  (forall p, p <> filePath ->
     files (snd (downloadImage env imageURL filePath w)) !! p = files w !! p) /\
  gets (snd (downloadImage env imageURL filePath w)) = gets w ++ [imageURL].
Proof.
  unfold downloadImage. cbn [tick log_get clock].
  destruct (http_Get env (clock w) imageURL) as [resp|e];
    [|split; [reflexivity | reflexivity]].
  destruct (negb (StatusCode resp =? 200)); [split; reflexivity|].
  destruct (os_Create env (S (clock w)) filePath); [split; reflexivity|].
  cbn [fst snd write_file files gets]. split; [|reflexivity].
  intros p Hp. now rewrite !lookup_insert_ne by congruence.
Qed.

Lemma process_page_world (env : Env) (config : ScraperConfig)
    (pagesDir : string) (n : Z) (w : World) :
  (forall p, p <> page_path env pagesDir n ->
     files (process_page env config pagesDir n w) !! p = files w !! p) /\
  (length (gets (process_page env config pagesDir n w)) <=
     length (gets w) + 1)%nat.
Proof.
  unfold process_page.
  pose proof (extractImageFromPage_world env
                (buildPageURL (FirstPage config) n) w) as Hw.
  destruct (extractImageFromPage env (buildPageURL (FirstPage config) n) w)
    as [[url|e] w1]; cbn [snd] in Hw; subst w1.
  - destruct (downloadImage_world env url (page_path env pagesDir n) (tick w))
      as [Hfiles Hgets].
    split; [exact Hfiles|]. unfold page_path in Hgets. rewrite Hgets.
    rewrite length_app. simpl. lia.
  - split; [reflexivity | simpl; lia].
Qed.

(** With the largest [int] as last page number the loop does not end. *)
Lemma page_loop_never (env : Env) (config : ScraperConfig) (pagesDir : string) :
  forall (fuel : nat) (pageNum : Z) (w : World),
    pageNum <= MaxInt ->
    page_loop fuel env config pagesDir pageNum MaxInt w = None.
Proof.
  induction fuel as [|fuel IH]; intros pageNum w Hp; cbn [page_loop];
    (destruct (Z.leb_spec pageNum MaxInt); [|lia]); [reflexivity|].
  apply IH. apply wrap64_in_int.
Qed.

(** What a page loop that ends has changed: files of pages of the range
    only, with one GET at most for each page of the range. *)
Lemma page_loop_world (env : Env) (config : ScraperConfig) (pagesDir : string)
    (last : Z) :
  last <= MaxInt ->
  forall (fuel : nat) (pageNum : Z) (w w' : World),
    MinInt <= pageNum ->
    page_loop fuel env config pagesDir pageNum last w = Some w' ->
    (forall p, files w' !! p <> files w !! p ->
       exists n, pageNum <= n <= last /\ p = page_path env pagesDir n) /\
    (length (gets w') <= length (gets w) + range_size pageNum last)%nat.
Proof.
  intros Hlast. induction fuel as [|fuel IH]; intros pageNum w w' Hmin Hrun;
    cbn [page_loop] in Hrun;
    destruct (Z.leb_spec pageNum last) as [Hle|Hgt]; try discriminate;
    try (inversion Hrun; subst w'; split; [congruence | lia]).
  destruct (Z.eq_dec last MaxInt) as [->|Hne].
  - rewrite page_loop_never in Hrun by apply wrap64_in_int. discriminate.
  - rewrite wrap64_id in Hrun by (unfold MinInt, MaxInt in *; lia).
    destruct (process_page_world env config pagesDir pageNum w)
      as [Hfiles Hgets].
    assert (Hmin' : MinInt <= pageNum + 1) by lia.
    destruct (IH _ _ _ Hmin' Hrun) as [IHfiles IHgets]. split.
    + intros p Hp.
      destruct (decide (files w' !! p =
                        files (process_page env config pagesDir pageNum w) !! p))
        as [Heq|Hneq].
      * exists pageNum. split; [lia|].
        destruct (decide (p = page_path env pagesDir pageNum)) as [|Hother];
          [assumption|].
        rewrite Heq, (Hfiles p Hother) in Hp. congruence.
      * destruct (IHfiles p Hneq) as (n & Hn & Hpath). exists n. split; [lia|].
        exact Hpath.
    + unfold range_size in *. lia.
Qed.

Lemma extractPageNumber_range (u : string) (n : Z) :
  extractPageNumber u = Ok n -> 0 <= n <= MaxInt.
Proof.
  unfold extractPageNumber. intros H.
  destruct (find_match u) as [[[pre ds] rest]|] eqn:Hf; [|discriminate].
  apply TemplaterFacts.find_match_sound in Hf as (_ & Hne & Hd & _).
  rewrite (TemplaterMore.Atoi_digits _ Hne Hd) in H.
  destruct (TemplaterMore.parse_digits_total _ Hne Hd) as (v & Hv & Hpos).
  rewrite Hv in H. apply TemplaterFacts.range_checked_ok in H as [-> Hr]. lia.
Qed.

Lemma cover_step_world (env : Env) (config : ScraperConfig) (w : World) :
  (forall p, p <> cover_path env config ->
     files (cover_step env config w) !! p = files w !! p) /\
  (length (gets (cover_step env config w)) <= length (gets w) + 1)%nat.
Proof.
  unfold cover_step.
  pose proof (extractImageFromPage_world env (CoverImage config) w) as Hw.
  destruct (extractImageFromPage env (CoverImage config) w)
    as [[url|e] w1]; cbn [snd] in Hw; subst w1.
  - destruct (downloadImage_world env url (cover_path env config) (tick w))
      as [Hfiles Hgets].
    split; [exact Hfiles|]. rewrite Hgets, length_app. simpl. lia.
  - split; [reflexivity | simpl; lia].
Qed.

(** The run, step by step. *)
Lemma run_unfold (fuel : nat) (env : Env) (configPath : string) (w : World) :
  ScrapeAndDownloadFromConfig fuel env configPath w =
  match fst (LoadScraperConfig env configPath w) with
  | Err err => Some (Some ("failed to load config: " +:+ err), tick w)
  | Ok config =>
      match os_MkdirAll env (S (clock w)) (pages_dir env config) with
      | Some err =>
          Some (Some ("failed to create directories: " +:+ err),
                tick (tick w))
      | None =>
          let w3 := cover_step env config (tick (tick w)) in
          match extractPageNumber (FirstPage config) with
          | Err err =>
              Some (Some ("failed to parse first page number: " +:+ err), w3)
          | Ok firstPageNum =>
              match extractPageNumber (LastPage config) with
              | Err err =>
                  Some (Some ("failed to parse last page number: " +:+ err), w3)
              | Ok lastPageNum =>
                  match page_loop fuel env config (pages_dir env config)
                          firstPageNum lastPageNum w3 with
                  | Some w4 => Some (None, w4)
                  | None => None
                  end
              end
          end
      end
  end.
Proof.
  unfold ScrapeAndDownloadFromConfig.
  pose proof (LoadScraperConfig_clock env configPath w) as Hw.
  destruct (LoadScraperConfig env configPath w) as [[config|e] w1];
    cbn [fst snd] in *; subst w1; reflexivity.
Qed.

(** [X10]: a run that returns has changed no file but its own output: the
    cover image of the config, and page images whose numbers lie between
    the first and the last page number of the config. *)
Theorem run_changes_only_its_output (fuel : nat) (env : Env)
    (configPath : string) (w w' : World) (r : option error) :
  ScrapeAndDownloadFromConfig fuel env configPath w = Some (r, w') ->
  forall p, files w' !! p <> files w !! p ->
    exists config,
      fst (LoadScraperConfig env configPath w) = Ok config /\
      (p = cover_path env config \/
       exists first last n,
         extractPageNumber (FirstPage config) = Ok first /\
         extractPageNumber (LastPage config) = Ok last /\
         first <= n <= last /\
         p = page_path env (pages_dir env config) n).
Proof.
  rewrite run_unfold. intros Hrun p Hp.
  destruct (fst (LoadScraperConfig env configPath w)) as [config|e];
    [|inversion Hrun; subst; now contradiction Hp].
  exists config. split; [reflexivity|].
  destruct (os_MkdirAll env (S (clock w)) (pages_dir env config));
    [inversion Hrun; subst; now contradiction Hp|].
  cbv zeta in Hrun.
  destruct (cover_step_world env config (tick (tick w))) as [Hcover _].
  assert (Hafter_cover :
    files (cover_step env config (tick (tick w))) !! p <> files w !! p ->
    p = cover_path env config).
  { intros Hc. destruct (decide (p = cover_path env config)) as [|Hother];
      [assumption|]. now rewrite (Hcover p Hother) in Hc. }
  destruct (extractPageNumber (FirstPage config)) as [first|e] eqn:Hfirst;
    [|inversion Hrun; subst; left; now apply Hafter_cover].
  destruct (extractPageNumber (LastPage config)) as [last|e] eqn:Hlast;
    [|inversion Hrun; subst; left; now apply Hafter_cover].
  destruct (page_loop fuel env config (pages_dir env config) first last
              (cover_step env config (tick (tick w)))) as [w4|] eqn:Hloop;
    [|discriminate].
  inversion Hrun; subst r w'.
  apply extractPageNumber_range in Hfirst as Hf, Hlast as Hl.
  destruct (page_loop_world env config (pages_dir env config) last
              ltac:(lia) fuel first _ _ ltac:(unfold MinInt; lia) Hloop)
    as [Hpages _].
  destruct (decide (files w4 !! p =
                    files (cover_step env config (tick (tick w))) !! p))
    as [Heq|Hneq].
  - left. apply Hafter_cover. now rewrite <- Heq.
  - right. destruct (Hpages p Hneq) as (n & Hn & Hpath).
    exists first, last, n. auto.
Qed.


Lemma run_changes_only_its_output_witness :
  match ScrapeAndDownloadFromConfig 3 Examples.env_ok "configs/lidl.json"
          Examples.w0 with
  | Some (_, w') =>
      forall p, files w' !! p <> files Examples.w0 !! p ->
        exists config,
          fst (LoadScraperConfig Examples.env_ok "configs/lidl.json"
                 Examples.w0) = Ok config /\
          (p = cover_path Examples.env_ok config \/
           exists first last n,
             extractPageNumber (FirstPage config) = Ok first /\
             extractPageNumber (LastPage config) = Ok last /\
             first <= n <= last /\
             p = page_path Examples.env_ok (pages_dir Examples.env_ok config) n)
  | None => False
  end.
Proof.
  destruct (ScrapeAndDownloadFromConfig 3 Examples.env_ok "configs/lidl.json"
              Examples.w0) as [[r w']|] eqn:Hrun.
  - exact (run_changes_only_its_output 3 Examples.env_ok "configs/lidl.json"
             Examples.w0 w' r Hrun).
  - vm_compute in Hrun. discriminate.
Defined.


End RunMore.

(** ** More on the page iteration of the store scraper *)

Module IterationMore.
Import StoreScraper IterationFacts IterationViews.

Lemma scrape_page_world (env : Env) (baseURL : string) (config : ScraperConfig)
    (page : Z) (st : Iter) (w : World) :
  snd (scrape_page env baseURL config page st w) = tick w.
Proof.
  unfold scrape_page.
  destruct (evaluate_page env baseURL config page (clock w)) as [url|e];
    [|reflexivity].
  destruct (String.eqb (TrimSpace url) ""); [reflexivity|].
  now destruct (bool_decide (TrimSpace url ∈ seen st)).
Qed.

Lemma scrape_page_visited (env : Env) (baseURL : string)
    (config : ScraperConfig) (page : Z) (st : Iter) (w : World) :
  visited (snd (fst (scrape_page env baseURL config page st w))) =
  visited st ++ [page].
Proof.
  unfold scrape_page, count_empty.
  destruct (evaluate_page env baseURL config page (clock w)) as [url|e];
    [|reflexivity].
  destruct (String.eqb (TrimSpace url) ""); [reflexivity|].
  now destruct (bool_decide (TrimSpace url ∈ seen st)).
Qed.

Lemma scrape_page_found_ok (env : Env) (baseURL : string)
    (config : ScraperConfig) (page : Z) (st : Iter) (w : World) :
  found_ok st -> emptyCount st <= 2 ->
  match fst (scrape_page env baseURL config page st w) with
  | (Continue, st') => found_ok st' /\ emptyCount st' <= 2
  | (Break, st') => found_ok st'
  end.
Proof.
  intros (Hnd & Hseen & Hne & Hcnt & Hlen) Hc. unfold scrape_page.
  assert (Hempty :
    match count_empty page st with
    | (Continue, st') => found_ok st' /\ emptyCount st' <= 2
    | (Break, st') => found_ok st'
    end).
  { unfold count_empty. cbn [emptyCount].
    destruct (Z.geb_spec (emptyCount st + 1) 3);
      unfold found_ok; cbn [found seen emptyCount visited];
      rewrite length_app; simpl; repeat split; auto; try lia;
      apply Hseen. }
  destruct (evaluate_page env baseURL config page (clock w)) as [url|e];
    [|exact Hempty].
  destruct (String.eqb_spec (TrimSpace url) "") as [|Hurl]; [exact Hempty|].
  destruct (bool_decide (TrimSpace url ∈ seen st)) eqn:Hin; cbn [fst].
  - unfold found_ok. cbn [found seen emptyCount visited].
    rewrite length_app. simpl. repeat split; auto; try lia; apply Hseen.
  - apply bool_decide_eq_false in Hin.
    unfold found_ok. cbn [found seen emptyCount visited].
    rewrite !length_app. simpl. repeat split; try lia.
    + apply NoDup_app. repeat split; auto.
      * intros u Hu Hu'. apply list_elem_of_singleton in Hu'. subst u.
        apply Hin, Hseen, Hu.
      * apply NoDup_singleton.
    + intros Hu. apply elem_of_union in Hu as [Hu|Hu].
      * apply elem_of_singleton in Hu. subst u.
        apply elem_of_app. right. now apply list_elem_of_singleton.
      * apply elem_of_app. left. now apply Hseen.
    + intros Hu. apply elem_of_app in Hu as [Hu|Hu].
      * apply elem_of_union_r. now apply Hseen.
      * apply list_elem_of_singleton in Hu. subst u.
        now apply elem_of_union_l, elem_of_singleton.
    + apply Forall_app. split; [exact Hne|]. now constructor.
Qed.

Lemma scrape_loop_found_ok (env : Env) (baseURL : string)
    (config : ScraperConfig) :
  forall (fuel : nat) (page : Z) (st : Iter) (w : World) (st' : Iter)
         (w' : World),
    found_ok st -> emptyCount st <= 2 ->
    scrape_loop fuel env baseURL config page st w = Some (st', w') ->
    found_ok st' /\ files w' = files w /\ gets w' = gets w /\
    (clock w' + length (visited st) = clock w + length (visited st'))%nat.
Proof.
  induction fuel as [|fuel IH]; intros page st w st' w' Hok Hc Hrun;
    cbn [scrape_loop] in Hrun;
    (destruct (page <=? MaxPages config);
     [|inversion Hrun; subst; split; [assumption | repeat split; lia]]);
    [discriminate|].
  pose proof (scrape_page_found_ok env baseURL config page st w Hok Hc) as Hbody.
  pose proof (scrape_page_world env baseURL config page st w) as Hw.
  pose proof (scrape_page_visited env baseURL config page st w) as Hv.
  destruct (scrape_page env baseURL config page st w) as [[[] st1] w1];
    cbn [fst snd] in *; subst w1.
  - destruct Hbody as [Hok1 Hc1].
    destruct (IH _ _ _ _ _ Hok1 Hc1 Hrun) as (H1 & H2 & H3 & H4).
    rewrite Hv, length_app in H4. cbn in H4.
    split; [exact H1|]. split; [exact H2|]. split; [exact H3|]. lia.
  - inversion Hrun; subst st' w'. rewrite Hv, length_app. cbn.
    split; [exact Hbody|]. split; [reflexivity|]. split; [reflexivity|]. lia.
Qed.

(** [X12]: whatever the browser answers, the image URLs collected by the
    page iteration are pairwise different and none is empty; they are the
    URLs recorded as seen; there are no more of them than pages visited;
    the count of empty pages ends between 0 and 3; and the iteration
    changes no file and issues no GET, consulting the browser once for each
    page visited. *)
Theorem page_iteration_collects_distinct_urls (fuel : nat) (env : Env)
    (baseURL : string) (config : ScraperConfig) (w w' : World) (st : Iter) :
  page_by_page fuel env baseURL config w = Some (st, w') ->
  NoDup (found st) /\
  Forall (fun u => u <> EmptyString) (found st) /\
  (forall u, u ∈ seen st <-> u ∈ found st) /\
  (length (found st) <= length (visited st))%nat /\
  0 <= emptyCount st <= 3 /\
  files w' = files w /\ gets w' = gets w /\
  clock w' = (clock w + length (visited st))%nat.
Proof.
  intros Hrun. unfold page_by_page in Hrun.
  assert (H0 : found_ok Iter0).
  { unfold found_ok, Iter0. cbn. repeat split; try lia; try constructor;
      intros Hu; [now apply elem_of_empty in Hu | now apply elem_of_nil in Hu]. }
  destruct (scrape_loop_found_ok env baseURL config fuel 1 Iter0 w st w' H0
              ltac:(cbn; lia) Hrun)
    as ((Hnd & Hseen & Hne & Hcnt & Hlen) & Hf & Hg & Hclk).
  cbn in Hclk. repeat split; auto; try lia; apply Hseen.
Qed.

Lemma omap_snoc {A B} (f : A -> option B) (l : list A) (x : A) :
  omap f (l ++ [x]) = omap f l ++ match f x with Some y => [y] | None => [] end.
Proof. rewrite omap_app. cbn. now destruct (f x). Qed.

Lemma scrape_page_at_page (env : Env) (baseURL : string)
    (config : ScraperConfig) (w0 : World) (page : Z) (st : Iter) (w : World) :
  at_page env baseURL config w0 page st w ->
  match scrape_page env baseURL config page st w with
  | (Continue, st', w') => at_page env baseURL config w0 (page + 1) st' w'
  | (Break, st', _) =>
      visited st' = seqZ 1 page /\ collected env baseURL config w0 st'
  end.
Proof.
  intros (Hpage & Hok & Hc & Hclk & Hvis & Hfound).
  pose proof (scrape_page_found_ok env baseURL config page st w Hok Hc) as Hbody.
  pose proof (visited_step page st Hpage Hvis) as Hvis'.
  assert (Hout : page_outcome env baseURL config w0 page =
                 resolution (evaluate_page env baseURL config page (clock w))).
  { unfold page_outcome. now rewrite Hclk. }
  assert (Hclk' : clock (tick w) = (clock w0 + Z.to_nat (page + 1 - 1))%nat).
  { cbn [tick clock]. rewrite Hclk. lia. }
  destruct Hok as (_ & Hseen & _).
  unfold scrape_page in *.
  assert (Hempty :
    page_outcome env baseURL config w0 page = None ->
    match count_empty page st with
    | (Continue, st') => found_ok st' /\ emptyCount st' <= 2
    | (Break, st') => found_ok st'
    end ->
    match count_empty page st with
    | (Continue, st') =>
        at_page env baseURL config w0 (page + 1) st' (tick w)
    | (Break, st') =>
        visited st' = seqZ 1 page /\ collected env baseURL config w0 st'
    end).
  { intros Hnone. unfold count_empty. cbn [emptyCount].
    destruct (emptyCount st + 1 >=? 3).
    - intros _. cbn [visited found]. split; [exact Hvis'|]. left.
      cbn [visited found].
      rewrite omap_snoc, Hnone, app_nil_r. exact Hfound.
    - intros [Hok' Hc']. unfold at_page.
      split; [lia|]. split; [exact Hok'|]. split; [exact Hc'|].
      split; [exact Hclk'|]. cbn [visited found].
      replace (page + 1 - 1) with page by lia. split; [exact Hvis'|].
      rewrite omap_snoc, Hnone, app_nil_r. exact Hfound. }
  destruct (evaluate_page env baseURL config page (clock w)) as [url|e];
    cbn [resolution] in Hout.
  - destruct (String.eqb (TrimSpace url) "").
    + specialize (Hempty Hout). cbn [fst] in Hbody.
      destruct (count_empty page st) as [[] st1]; now apply Hempty.
    + destruct (bool_decide (TrimSpace url ∈ seen st)) eqn:Hin; cbn [fst] in *.
      * apply bool_decide_eq_true in Hin. cbn [visited found].
        split; [exact Hvis'|]. right. exists (TrimSpace url).
        cbn [visited found].
        split; [now apply Hseen|]. now rewrite omap_snoc, Hout, Hfound.
      * destruct Hbody as [Hok' Hc']. unfold at_page.
        split; [lia|]. split; [exact Hok'|]. split; [exact Hc'|].
        split; [exact Hclk'|]. cbn [visited found].
        replace (page + 1 - 1) with page by lia. split; [exact Hvis'|].
        now rewrite omap_snoc, Hout, Hfound.
  - specialize (Hempty Hout). cbn [fst] in Hbody.
    destruct (count_empty page st) as [[] st1]; now apply Hempty.
Qed.

Lemma scrape_loop_ends (env : Env) (baseURL : string) (config : ScraperConfig)
    (w0 : World) :
  MaxPages config < MaxInt ->
  forall (fuel : nat) (page : Z) (st : Iter) (w : World),
    at_page env baseURL config w0 page st w ->
    match scrape_loop fuel env baseURL config page st w with
    | Some (st', _) =>
        exists m, page - 1 <= m /\ (m <= page - 1 \/ m <= MaxPages config) /\
          visited st' = seqZ 1 m /\ collected env baseURL config w0 st'
    | None => Z.of_nat fuel < MaxPages config + 1 - page
    end.
Proof.
  intros Hmax. induction fuel as [|fuel IH]; intros page st w Hat;
    pose proof Hat as (Hpage & _ & _ & _ & Hvis & Hfound);
    cbn [scrape_loop];
    (destruct (Z.leb_spec page (MaxPages config)) as [Hle|Hgt];
     [|exists (page - 1); repeat split; auto; try lia; now left]); [lia|].
  pose proof (scrape_page_at_page env baseURL config w0 page st w Hat) as Hbody.
  destruct (scrape_page env baseURL config page st w) as [[[] st1] w1].
  - rewrite wrap64_id by (unfold MinInt, MaxInt in *; lia).
    specialize (IH (page + 1) st1 w1 Hbody).
    destruct (scrape_loop fuel env baseURL config (page + 1) st1 w1)
      as [[st2 w2]|]; [|lia].
    destruct IH as (m & Hm1 & Hm2 & Hv & Hcol). exists m.
    repeat split; auto; try lia.
  - destruct Hbody as [Hv Hcol]. exists page. repeat split; auto; lia.
Qed.

(** [X13]: with a page limit below the largest [int], the page iteration
    ends within as many runs of its body as the limit says. It has then
    visited the pages from 1 to some page not after the limit, in this
    order and once each, and the URLs collected are what these pages
    resolved to, in page order; only the last page visited may have
    resolved to a URL collected before, which is not collected again. *)
Theorem page_iteration_visits_in_order (env : Env) (baseURL : string)
    (config : ScraperConfig) (w : World) :
  MaxPages config < MaxInt ->
  (forall fuel, MaxPages config <= Z.of_nat fuel ->
     exists st w', page_by_page fuel env baseURL config w = Some (st, w')) /\
  (forall fuel st w',
     page_by_page fuel env baseURL config w = Some (st, w') ->
     (exists m, 0 <= m /\ (m = 0 \/ m <= MaxPages config) /\
        visited st = seqZ 1 m) /\
     (omap (page_outcome env baseURL config w) (visited st) = found st \/
      exists u, u ∈ found st /\
        omap (page_outcome env baseURL config w) (visited st) =
        found st ++ [u])).
Proof.
  intros Hmax.
  assert (Hstart : at_page env baseURL config w 1 Iter0 w).
  { unfold at_page, found_ok, Iter0. cbn.
    repeat split; try lia; try constructor;
      intros Hu; [now apply elem_of_empty in Hu | now apply elem_of_nil in Hu]. }
  assert (Hloop := fun fuel =>
    scrape_loop_ends env baseURL config w Hmax fuel 1 Iter0 w Hstart).
  unfold page_by_page. split.
  - intros fuel Hfuel. specialize (Hloop fuel).
    destruct (scrape_loop fuel env baseURL config 1 Iter0 w) as [[st w']|];
      [eauto | lia].
  - intros fuel st w' Hrun. specialize (Hloop fuel). rewrite Hrun in Hloop.
    destruct Hloop as (m & Hm1 & Hm2 & Hv & Hcol). split; [|exact Hcol].
    exists m. repeat split; auto; lia.
Qed.

Lemma page_iteration_collects_distinct_urls_witness :
  match page_by_page 4
          (Examples.store_env Examples.pages_one Examples.answer_ok)
          "https://shop.example/c" (Examples.store_config 10) Examples.w0 with
  | Some (st, w') =>
      NoDup (found st) /\
      Forall (fun u => u <> EmptyString) (found st) /\
      (forall u, u ∈ seen st <-> u ∈ found st) /\
      (length (found st) <= length (visited st))%nat /\
      0 <= emptyCount st <= 3 /\
      files w' = files Examples.w0 /\ gets w' = gets Examples.w0 /\
      clock w' = (clock Examples.w0 + length (visited st))%nat
  | None => False
  end.
Proof.
  destruct (page_by_page 4
              (Examples.store_env Examples.pages_one Examples.answer_ok)
              "https://shop.example/c" (Examples.store_config 10) Examples.w0)
    as [[st w']|] eqn:Hrun.
  - exact (page_iteration_collects_distinct_urls _ _ _ _ _ _ _ Hrun).
  - vm_compute in Hrun. discriminate.
Defined.

Lemma page_iteration_visits_in_order_witness :
  exists st w',
    page_by_page 10 (Examples.store_env Examples.pages_one Examples.answer_ok)
      "https://shop.example/c" (Examples.store_config 10) Examples.w0 =
      Some (st, w').
Proof.
  destruct (page_iteration_visits_in_order
              (Examples.store_env Examples.pages_one Examples.answer_ok)
              "https://shop.example/c" (Examples.store_config 10) Examples.w0)
    as [Hends _].
  - unfold MaxInt. simpl. lia.
  - apply Hends. simpl. lia.
Defined.

End IterationMore.

(** ** More on the download phase *)

Module DownloadMore.
Import StoreScraper SortFacts DownloadViews.

Lemma spawn_facts (config : ScraperConfig) : forall urls i k num url,
  spawn config i urls !! k = Some (num, url) ->
  num = i + Z.of_nat k /\ num < MaxPages config /\ urls !! k = Some url.
Proof.
  induction urls as [|u urls IH]; intros i k num url H; [discriminate|].
  cbn [spawn] in H. destruct (Z.geb_spec i (MaxPages config)); [discriminate|].
  destruct k as [|k]; cbn in H.
  - inversion H; subst. repeat split; [lia | lia].
  - apply IH in H as (-> & Hlt & Hurl). repeat split; [lia | lia | exact Hurl].
Qed.

Lemma goroutine_pages (env : Env) (id dir : string) (num : Z)
    (imgURL : string) (pages : list Page) (w : World) :
  fst (goroutine env id dir num imgURL pages w) = pages \/
  fst (goroutine env id dir num imgURL pages w) =
    pages ++ [recorded id (num + 1)].
Proof.
  unfold goroutine.
  destruct (downloadImage env imgURL dir
              ("page-" +:+ FormatIntPad 2 (num + 1) +:+ ".jpg") w)
    as [[path|e] w']; [right | left]; reflexivity.
Qed.

(** Every page the pool appends is the record of a started goroutine. *)
Lemma run_pool_pages (env : Env) (id dir : string)
    (tasks : list (Z * string)) (P : Page -> Prop) :
  (forall k num url, tasks !! k = Some (num, url) -> P (recorded id (num + 1))) ->
  forall schedule pages w,
    Forall P pages ->
    Forall P (fst (run_pool env id dir tasks schedule pages w)).
Proof.
  intros Htasks. induction schedule as [|k rest IH]; intros pages w Hp;
    cbn [run_pool]; [exact Hp|].
  destruct (tasks !! k) as [[num url]|] eqn:Hk; [|now apply IH].
  pose proof (goroutine_pages env id dir num url pages w) as Hg.
  destruct (goroutine env id dir num url pages w) as [pages' w'].
  cbn [fst] in Hg. apply IH. destruct Hg as [-> | ->]; [exact Hp|].
  apply Forall_app. split; [exact Hp|]. constructor; [|constructor].
  eapply Htasks, Hk.
Qed.

(** [X14]: the download phase fails only when the directory of the catalog
    cannot be created, with the error of [os.MkdirAll]; no failed download
    makes it fail. Every page of the newsletter it returns has a number
    from 1 to the count of page images of the catalog and not above the
    page limit, and its image URL is the file of that number under the
    directory of the newsletter. *)
Theorem downloadCatalogImages_result (env : Env) (schedule : list nat)
    (catalog : ScrapedCatalog) (config : ScraperConfig) (w : World) :
  (forall e,
     fst (downloadCatalogImages env schedule catalog config w) = Err e <->
     os_MkdirAll env (clock w)
       (filepath_Join env "../newsletters"
          (newsletter_id env catalog config)) = Some e) /\
  (forall newsletter,
     fst (downloadCatalogImages env schedule catalog config w) = Ok newsletter ->
     ID newsletter = newsletter_id env catalog config /\
     Forall (fun p =>
               1 <= PageNumber p <= Z.of_nat (length (PageImages catalog)) /\
               PageNumber p <= MaxPages config /\
               p = recorded (ID newsletter) (PageNumber p))
            (Pages newsletter)).
Proof.
  unfold downloadCatalogImages. fold (newsletter_id env catalog config).
  destruct (os_MkdirAll env (clock w) _) as [e0|] eqn:Hmk.
  - split; [|discriminate]. intros e. cbn [fst]. split; congruence.
  - match goal with
    | |- context [run_pool ?e ?i ?d ?t ?s ?ps ?w0] =>
        pose proof (run_pool_pages e i d t
          (fun q => 1 <= PageNumber q <= Z.of_nat (length (PageImages catalog)) /\
                    PageNumber q <= MaxPages config /\
                    q = recorded i (PageNumber q))) as Hpool;
        specialize (fun H => Hpool H s ps w0);
        destruct (run_pool e i d t s ps w0) as [pages w3]
    end.
    cbn [fst] in *. split; [intros e; split; discriminate|].
    intros newsletter H. inversion H; subst newsletter. cbn [ID Pages].
    split; [reflexivity|].
    eapply Permutation_Forall; [apply sortPages_perm|].
    apply Hpool; [|constructor].
    intros k num url Hk. apply spawn_facts in Hk as (-> & Hlt & Hurl).
    apply lookup_lt_Some in Hurl. cbn [recorded PageNumber].
    repeat split; lia.
Qed.

Lemma downloadImage_steady (env : Env) (url dir filename : string)
    (w w0 : World) :
  steady env ->
  fst (downloadImage env url dir filename w) =
  fst (downloadImage env url dir filename w0).
Proof.
  intros [Hget Hcreate]. unfold downloadImage. cbn [tick log_get clock].
  rewrite (Hget (clock w) (clock w0)).
  destruct (http_Get env (clock w0) url) as [resp|e]; [|reflexivity].
  destruct (negb (StatusCode resp =? 200)); [reflexivity|].
  rewrite (Hcreate (S (clock w)) (S (clock w0))).
  destruct (os_Create env (S (clock w0)) _); [reflexivity|].
  now destruct (copy_err (Body resp)).
Qed.

Lemma omap_first {A B} (f : A -> option B) (x : A) (l : list A) :
  omap f (x :: l) =
  match f x with Some y => y :: omap f l | None => omap f l end.
Proof. reflexivity. Qed.

Lemma run_pool_steady (env : Env) (id dir : string)
    (tasks : list (Z * string)) (w0 : World) :
  steady env ->
  forall schedule pages w,
    fst (run_pool env id dir tasks schedule pages w) =
    pages ++ omap (appended env id dir tasks w0) schedule.
Proof.
  intros Hsteady. induction schedule as [|k rest IH]; intros pages w;
    [cbn; now rewrite app_nil_r|].
  cbn [run_pool]. rewrite omap_first. unfold appended at 1.
  destruct (tasks !! k) as [[num url]|]; [|apply IH].
  unfold goroutine.
  rewrite <- (downloadImage_steady env url dir _ w w0 Hsteady).
  destruct (downloadImage env url dir
              ("page-" +:+ FormatIntPad 2 (num + 1) +:+ ".jpg") w)
    as [[path|e] w']; cbn [fst]; rewrite IH; [|reflexivity].
  now rewrite <- app_assoc.
Qed.

Lemma sortPages_of_permutation (l1 l2 : list Page) :
  NoDup (map PageNumber l1) -> Permutation l1 l2 ->
  sortPages l1 = sortPages l2.
Proof.
  intros Hnd Hperm.
  apply (StronglySorted_unique_strong le_page).
  - intros p q Hp Hq Hpq Hqp. unfold le_page in *.
    apply (same_number_same_page l1); auto; [| |lia].
    + apply list_elem_of_In in Hp.
      eapply Permutation_in; [symmetry; apply sortPages_perm | exact Hp].
    + apply list_elem_of_In in Hq.
      eapply Permutation_in; [symmetry; exact Hperm|].
      eapply Permutation_in; [symmetry; apply sortPages_perm | exact Hq].
  - apply sortPages_sorted.
  - apply sortPages_sorted.
  - etransitivity; [symmetry; apply sortPages_perm|].
    etransitivity; [exact Hperm | apply sortPages_perm].
Qed.

(** [X15]: when the answers of the network and of the file system do not
    depend on the time of asking, the pages of the newsletter returned do
    not depend on the order in which the goroutines of the pool complete. *)
Theorem downloadCatalogImages_any_order (env : Env) (schedule1 schedule2 : list nat)
    (catalog : ScrapedCatalog) (config : ScraperConfig) (w : World)
    (newsletter1 newsletter2 : Newsletter) :
  steady env ->
  Permutation schedule1
    (seq 0 (length (spawn config 0 (PageImages catalog)))) ->
  Permutation schedule2
    (seq 0 (length (spawn config 0 (PageImages catalog)))) ->
  fst (downloadCatalogImages env schedule1 catalog config w) = Ok newsletter1 ->
  fst (downloadCatalogImages env schedule2 catalog config w) = Ok newsletter2 ->
  Pages newsletter1 = Pages newsletter2.
Proof.
  intros Hsteady H1 H2. unfold downloadCatalogImages.
  destruct (os_MkdirAll env (clock w) _); [discriminate|].
  match goal with
  | |- context [run_pool ?e ?i ?d ?t schedule1 ?ps ?w0] =>
      pose proof (run_pool_steady e i d t w0 Hsteady schedule1 ps w0) as Hp1;
      pose proof (run_pool_steady e i d t w0 Hsteady schedule2 ps w0) as Hp2;
      pose proof (run_pool_numbers e i d t
                    ltac:(intros k num url Hk; apply spawn_lookup in Hk; lia)
                    schedule1 ps w0) as (ks & Hsub & Hks);
      destruct (run_pool e i d t schedule1 ps w0) as [pages1 w1];
      destruct (run_pool e i d t schedule2 ps w0) as [pages2 w2]
  end.
  cbn [fst app map] in *. intros E1 E2.
  inversion E1; subst newsletter1. inversion E2; subst newsletter2.
  cbn [Pages]. apply sortPages_of_permutation.
  - rewrite Hks.
    assert (Hinj : Inj eq eq (fun k : nat => Z.of_nat k + 1))
      by (intros a b Hab; lia).
    apply (NoDup_fmap_2 (fun k : nat => Z.of_nat k + 1)).
    eapply sublist_NoDup; [|exact Hsub]. rewrite H1. apply NoDup_seq.
  - rewrite Hp1, Hp2. apply omap_Permutation.
    etransitivity; [exact H1 | symmetry; exact H2].
Qed.

Lemma downloadCatalogImages_result_witness :
  match fst (downloadCatalogImages
               (Examples.store_env Examples.pages_one
                  Examples.answer_but_second)
               [3; 1; 0; 2]%nat Examples.catalog4 (Examples.store_config 3)
               Examples.w0) with
  | Ok newsletter =>
      ID newsletter =
        newsletter_id
          (Examples.store_env Examples.pages_one Examples.answer_but_second)
          Examples.catalog4 (Examples.store_config 3) /\
      Forall (fun p =>
                1 <= PageNumber p <=
                  Z.of_nat (length (PageImages Examples.catalog4)) /\
                PageNumber p <= MaxPages (Examples.store_config 3) /\
                p = recorded (ID newsletter) (PageNumber p))
             (Pages newsletter)
  | Err _ => False
  end.
Proof.
  destruct (fst (downloadCatalogImages
                   (Examples.store_env Examples.pages_one
                      Examples.answer_but_second)
                   [3; 1; 0; 2]%nat Examples.catalog4
                   (Examples.store_config 3) Examples.w0))
    as [newsletter|e] eqn:Hrun.
  - destruct (downloadCatalogImages_result
                (Examples.store_env Examples.pages_one
                   Examples.answer_but_second)
                [3; 1; 0; 2]%nat Examples.catalog4 (Examples.store_config 3)
                Examples.w0) as [_ H].
    exact (H newsletter Hrun).
  - vm_compute in Hrun. discriminate.
Defined.

Lemma downloadCatalogImages_any_order_witness :
  match fst (downloadCatalogImages
               (Examples.store_env Examples.pages_one
                  Examples.answer_but_second)
               [3; 1; 0; 2]%nat Examples.catalog4 (Examples.store_config 10)
               Examples.w0),
        fst (downloadCatalogImages
               (Examples.store_env Examples.pages_one
                  Examples.answer_but_second)
               [0; 1; 2; 3]%nat Examples.catalog4 (Examples.store_config 10)
               Examples.w0) with
  | Ok newsletter1, Ok newsletter2 => Pages newsletter1 = Pages newsletter2
  | _, _ => False
  end.
Proof.
  destruct (fst (downloadCatalogImages
                   (Examples.store_env Examples.pages_one
                      Examples.answer_but_second)
                   [3; 1; 0; 2]%nat Examples.catalog4
                   (Examples.store_config 10) Examples.w0))
    as [newsletter1|e] eqn:Hrun1; [|vm_compute in Hrun1; discriminate].
  destruct (fst (downloadCatalogImages
                   (Examples.store_env Examples.pages_one
                      Examples.answer_but_second)
                   [0; 1; 2; 3]%nat Examples.catalog4
                   (Examples.store_config 10) Examples.w0))
    as [newsletter2|e] eqn:Hrun2; [|vm_compute in Hrun2; discriminate].
  apply (downloadCatalogImages_any_order
           (Examples.store_env Examples.pages_one Examples.answer_but_second)
           [3; 1; 0; 2]%nat [0; 1; 2; 3]%nat Examples.catalog4
           (Examples.store_config 10) Examples.w0 newsletter1 newsletter2).
  - split; intros; reflexivity.
  - apply (bool_decide_unpack _). vm_compute. exact I.
  - apply (bool_decide_unpack _). vm_compute. exact I.
  - exact Hrun1.
  - exact Hrun2.
Defined.

End DownloadMore.

(** ** Titles and dates of the store scraper *)

Module CatalogFacts.
Import StoreScraper StoreCatalogs CatalogViews.
Import ConfigScraper(is_digit, strip_prefix, span_digits, all_digits).

Lemma span_until_run (c : ascii) : forall (a r : string),
  free_of c a = true ->
  span_until c (a +:+ String c r) = (a, String c r).
Proof.
  induction a as [|x a IH]; intros r Hfree; simpl.
  - now rewrite Ascii.eqb_refl.
  - simpl in Hfree. apply andb_true_iff in Hfree as [Hx Ha].
    apply negb_true_iff in Hx. rewrite Hx, (IH r Ha). reflexivity.
Qed.

Lemma title_here_heading (attrs text after : string) :
  free_of ">" attrs = true -> free_of "<" text = true ->
  text <> EmptyString ->
  title_here ("<h1" +:+ attrs +:+ ">" +:+ text +:+ "</h1>" +:+ after) =
  Some text.
Proof.
  intros Hattrs Htext Hne. unfold title_here.
  change (strip_prefix "<h1" ("<h1" +:+ attrs +:+ ">" +:+ text +:+ "</h1>" +:+ after))
    with (Some (attrs +:+ String ">" (text +:+ String "<" ("/h1>" +:+ after)))).
  cbv beta iota. rewrite (span_until_run ">" attrs _ Hattrs).
  rewrite (span_until_run "<" text _ Htext).
  destruct text as [|c t]; [congruence|].
  assert (Hp : String.prefix "</h1>" (String "<" ("/h1>" +:+ after)) = true)
    by (destruct after; reflexivity).
  now rewrite Hp.
Qed.

Lemma find_title_skip : forall (before s : string),
  no_title_before (String.length before) (before +:+ s) ->
  find_title (before +:+ s) = find_title s.
Proof.
  induction before as [|c before IH]; intros s Hno; [reflexivity|].
  change (String c before +:+ s) with (String c (before +:+ s)).
  pose proof (Hno O ltac:(simpl; lia)) as H0.
  change (title_here (String c (before +:+ s)) = None) in H0.
  simpl find_title. rewrite H0.
  apply IH. intros k Hk. apply (Hno (S k)). simpl. lia.
Qed.

Lemma find_title_nowhere : forall s : string,
  (forall k, title_here (drop_bytes k s) = None) -> find_title s = None.
Proof.
  induction s as [|c s IH]; intros Hno.
  - reflexivity.
  - pose proof (Hno O) as H0. simpl drop_bytes in H0.
    simpl find_title. rewrite H0. apply IH.
    intros k. exact (Hno (S k)).
Qed.

Lemma find_title_here (s text : string) :
  title_here s = Some text -> find_title s = Some text.
Proof.
  intros H. destruct s as [|c s]; [discriminate|].
  simpl find_title. now rewrite H.
Qed.

(** [X16]: the title is the text of the leftmost [<h1 ...>text</h1>] of the
    page, without surrounding white space: it is empty, and not the
    fallback, when that heading holds white space only. A page in which no
    such heading starts gets the store name followed by [ Catalog]. *)
Theorem extractTitle_leftmost_heading (config : ScraperConfig)
    (before attrs text after : string) :
  free_of ">" attrs = true -> free_of "<" text = true ->
  text <> EmptyString ->
  no_title_before (String.length before)
    (before +:+ "<h1" +:+ attrs +:+ ">" +:+ text +:+ "</h1>" +:+ after) ->
  extractTitle
    (before +:+ "<h1" +:+ attrs +:+ ">" +:+ text +:+ "</h1>" +:+ after)
    config = TrimSpace text.
Proof.
  intros Hattrs Htext Hne Hno. unfold extractTitle.
  rewrite (find_title_skip _ _ Hno).
  rewrite (find_title_here _ text); [reflexivity|].
  now apply title_here_heading.
Qed.

Lemma extractTitle_leftmost_heading_witness :
  extractTitle
    ("<body><h2>x</h2>" +:+ "<h1" +:+ " class='t'" +:+ ">" +:+
     "  Oferte  " +:+ "</h1>" +:+ "<h1>later</h1>")
    (Examples.store_config 30) = "Oferte".
Proof.
  rewrite (extractTitle_leftmost_heading (Examples.store_config 30)
             "<body><h2>x</h2>" " class='t'" "  Oferte  " "<h1>later</h1>").
  - reflexivity.
  - reflexivity.
  - reflexivity.
  - discriminate.
  - intros k Hk. simpl in Hk.
    do 16 (destruct k as [|k]; [reflexivity|]). lia.
Defined.

Lemma drop_bytes_add : forall (a b : nat) (s : string),
  drop_bytes a (drop_bytes b s) = drop_bytes (b + a) s.
Proof.
  intros a b. induction b as [|b IH]; intros s; [reflexivity|].
  destruct s as [|c s]; simpl.
  - destruct a; reflexivity.
  - apply IH.
Qed.

Lemma Contains_at : forall (k : nat) (s sub : string),
  String.prefix sub (drop_bytes k s) = true -> Contains s sub = true.
Proof.
  induction k as [|k IH]; intros s sub H.
  - cbn [drop_bytes] in H. destruct s; cbn [Contains]; rewrite H; reflexivity.
  - destruct s as [|c s].
    + cbn [drop_bytes] in H. cbn [Contains]. now rewrite H.
    + cbn [drop_bytes] in H. cbn [Contains]. rewrite (IH _ _ H).
      apply orb_true_r.
Qed.

Lemma strip_prefix_drop : forall (p s t : string),
  strip_prefix p s = Some t ->
  t = drop_bytes (String.length p) s /\ String.prefix p s = true.
Proof.
  induction p as [|a p IH]; intros s t H.
  - simpl in H. injection H as <-. split; [reflexivity|]. now destruct s.
  - destruct s as [|b s]; [discriminate|]. simpl in H.
    destruct (Ascii.eqb a b) eqn:Hab; [|discriminate].
    apply Ascii.eqb_eq in Hab as ->.
    destruct (IH _ _ H) as [-> Hp]. split; [reflexivity|].
    simpl. destruct (ascii_dec b b); [exact Hp | congruence].
Qed.

Lemma span_until_drop (c : ascii) : forall (s run rest : string),
  span_until c s = (run, rest) -> rest = drop_bytes (String.length run) s.
Proof.
  induction s as [|x s IH]; intros run rest H; simpl in H.
  - now injection H as <- <-.
  - destruct (Ascii.eqb x c); [now injection H as <- <-|].
    destruct (span_until c s) as [run' rest'] eqn:Hs.
    injection H as <- <-. simpl. now apply IH.
Qed.

(** The two literals of a heading start somewhere in a string in which a
    heading starts. *)
Lemma title_here_literals (s text : string) :
  title_here s = Some text ->
  String.prefix "<h1" s = true /\
  exists k, String.prefix "</h1>" (drop_bytes k s) = true.
Proof.
  unfold title_here. intros H.
  destruct (strip_prefix "<h1" s) as [t|] eqn:Ht; [|discriminate].
  destruct (strip_prefix_drop _ _ _ Ht) as [-> Hp]. split; [exact Hp|].
  destruct (span_until ">" (drop_bytes (String.length "<h1") s))
    as [run1 rest1] eqn:H1.
  apply span_until_drop in H1. destruct rest1 as [|c u]; [discriminate|].
  destruct (span_until "<" u) as [run2 v] eqn:H2.
  apply span_until_drop in H2.
  destruct run2 as [|c2 run2]; [discriminate|].
  destruct (String.prefix "</h1>" v) eqn:Hv; [|discriminate].
  assert (Hu : u = drop_bytes 1 (String c u)) by reflexivity.
  rewrite H1, drop_bytes_add, drop_bytes_add in Hu.
  rewrite Hu, drop_bytes_add in H2. subst v. eauto.
Qed.

(** [X17]: a page without [<h1], or without [</h1>], gets the title
    [<StoreName> Catalog]; so does every page in which no heading of the
    form [<h1 ...>text</h1>] starts. *)
Theorem extractTitle_fallback (config : ScraperConfig) (html : string) :
  Contains html "<h1" = false \/ Contains html "</h1>" = false \/
  (forall k, title_here (drop_bytes k html) = None) ->
  extractTitle html config = StoreName config +:+ " Catalog".
Proof.
  intros H.
  assert (Hno : forall k, title_here (drop_bytes k html) = None).
  { destruct H as [H | [H | H]]; [| |exact H]; intros k;
      destruct (title_here (drop_bytes k html)) as [text|] eqn:Hk;
      try reflexivity;
      destruct (title_here_literals _ _ Hk) as [Hp [j Hj]].
    - apply Contains_at in Hp. congruence.
    - rewrite drop_bytes_add in Hj. apply Contains_at in Hj. congruence. }
  unfold extractTitle. now rewrite (find_title_nowhere _ Hno).
Qed.

Lemma extractTitle_fallback_witness :
  extractTitle "<html><h2>Oferte</h2></html>" (Examples.store_config 30) =
  StoreName (Examples.store_config 30) +:+ " Catalog".
Proof. apply extractTitle_fallback. left. reflexivity. Defined.

Lemma take_digits_run : forall (d r : string),
  all_digits d = true ->
  take_digits (String.length d) (d +:+ r) = Some (d, r).
Proof.
  induction d as [|c d IH]; intros r Hd; [reflexivity|].
  simpl in Hd. apply andb_true_iff in Hd as [Hc Hd].
  change (String c d +:+ r) with (String c (d +:+ r)).
  simpl. rewrite Hc, (IH r Hd). reflexivity.
Qed.

Lemma date_here_date (g1 g2 g3 rest : string) :
  date_groups g1 g2 g3 ->
  date_here (dotted g1 g2 g3 +:+ rest) = Some (g1, g2, g3, rest).
Proof.
  intros (D1 & L1 & D2 & L2 & D3 & L3). unfold date_here, dotted.
  rewrite !sapp_assoc.
  rewrite <- L1 at 1. rewrite (take_digits_run g1 _ D1).
  change (strip_prefix "." ("." +:+ g2 +:+ "." +:+ g3 +:+ rest))
    with (Some (g2 +:+ "." +:+ g3 +:+ rest)).
  cbv beta iota.
  rewrite <- L2 at 1. rewrite (take_digits_run g2 _ D2).
  change (strip_prefix "." ("." +:+ g3 +:+ rest)) with (Some (g3 +:+ rest)).
  cbv beta iota.
  rewrite <- L3 at 1. rewrite (take_digits_run g3 _ D3). reflexivity.
Qed.

Lemma find_date_skip : forall (before s : string),
  no_date_before (String.length before) (before +:+ s) ->
  find_date (before +:+ s) = find_date s.
Proof.
  induction before as [|c before IH]; intros s Hno; [reflexivity|].
  change (String c before +:+ s) with (String c (before +:+ s)).
  pose proof (Hno O ltac:(simpl; lia)) as H0.
  change (date_here (String c (before +:+ s)) = None) in H0.
  simpl find_date. rewrite H0.
  apply IH. intros k Hk. apply (Hno (S k)). simpl. lia.
Qed.

Lemma find_date_nowhere : forall s : string,
  (forall k, date_here (drop_bytes k s) = None) -> find_date s = None.
Proof.
  induction s as [|c s IH]; intros Hno.
  - reflexivity.
  - pose proof (Hno O) as H0. simpl drop_bytes in H0.
    simpl find_date. rewrite H0. apply IH.
    intros k. exact (Hno (S k)).
Qed.

Lemma find_date_here (s : string) (m : string * string * string * string) :
  date_here s = Some m -> find_date s = Some m.
Proof.
  intros H. destruct s as [|c s]; [discriminate|].
  simpl find_date. now rewrite H.
Qed.

Lemma find_date_first (before g1 g2 g3 rest : string) :
  date_groups g1 g2 g3 ->
  no_date_before (String.length before)
    (before +:+ dotted g1 g2 g3 +:+ rest) ->
  find_date (before +:+ dotted g1 g2 g3 +:+ rest) = Some (g1, g2, g3, rest).
Proof.
  intros Hg Hno. rewrite (find_date_skip _ _ Hno).
  apply find_date_here. now apply date_here_date.
Qed.

(** [X18]: when the page holds two dates [dd.mm.yyyy] or more, the first
    becomes [ValidFrom] and the second, searched for after the end of the
    first, becomes [ValidUntil], both as [yyyy-mm-dd] with the digits as
    they stand in the page: they are not checked to be days and months of
    the calendar, nor to be in order. Nothing else of the catalog
    changes. *)
Theorem extractDates_first_two_dates (catalog : ScrapedCatalog)
    (a g1 g2 g3 b h1 h2 h3 c : string) :
  date_groups g1 g2 g3 -> date_groups h1 h2 h3 ->
  no_date_before (String.length a)
    (a +:+ dotted g1 g2 g3 +:+ b +:+ dotted h1 h2 h3 +:+ c) ->
  no_date_before (String.length b) (b +:+ dotted h1 h2 h3 +:+ c) ->
  extractDates catalog
    (a +:+ dotted g1 g2 g3 +:+ b +:+ dotted h1 h2 h3 +:+ c) =
  {| Title := Title catalog;
     ValidFrom := g3 +:+ "-" +:+ g2 +:+ "-" +:+ g1;
     ValidUntil := h3 +:+ "-" +:+ h2 +:+ "-" +:+ h1;
     CoverImage := CoverImage catalog;
     PageImages := PageImages catalog |}.
Proof.
  intros Hg Hh Ha Hb. unfold extractDates, find_two_dates.
  rewrite (find_date_first a g1 g2 g3 _ Hg Ha).
  rewrite (find_date_first b h1 h2 h3 _ Hh Hb). reflexivity.
Qed.

Lemma extractDates_first_two_dates_witness :
  extractDates Examples.catalog4
    ("Valabil " +:+ dotted "31" "12" "2026" +:+ " - " +:+
     dotted "06" "01" "2026" +:+ ", 99.99.9999") =
  {| Title := "Catalog";
     ValidFrom := "2026-12-31";
     ValidUntil := "2026-01-06";
     CoverImage := CoverImage Examples.catalog4;
     PageImages := PageImages Examples.catalog4 |}.
Proof.
  apply (extractDates_first_two_dates Examples.catalog4
           "Valabil " "31" "12" "2026" " - " "06" "01" "2026" ", 99.99.9999").
  - repeat split.
  - repeat split.
  - intros k Hk. simpl in Hk. do 8 (destruct k as [|k]; [reflexivity|]). lia.
  - intros k Hk. simpl in Hk. do 3 (destruct k as [|k]; [reflexivity|]). lia.
Defined.

(** [X19]: a page with no date [dd.mm.yyyy], or with one only, leaves the
    catalog as it is: a single date is not taken as [ValidFrom]. *)
Theorem extractDates_needs_two_dates (catalog : ScrapedCatalog)
    (html : string) :
  (forall k, date_here (drop_bytes k html) = None) \/
  (exists a g1 g2 g3 b,
     html = a +:+ dotted g1 g2 g3 +:+ b /\ date_groups g1 g2 g3 /\
     no_date_before (String.length a) html /\
     forall k, date_here (drop_bytes k b) = None) ->
  extractDates catalog html = catalog.
Proof.
  intros [Hno | (a & g1 & g2 & g3 & b & -> & Hg & Ha & Hb)];
    unfold extractDates, find_two_dates.
  - now rewrite (find_date_nowhere _ Hno).
  - rewrite (find_date_first a g1 g2 g3 b Hg Ha).
    now rewrite (find_date_nowhere _ Hb).
Qed.

Lemma extractDates_needs_two_dates_witness :
  extractDates Examples.catalog4 ("Din " +:+ dotted "09" "02" "2026" +:+ "!") =
  Examples.catalog4.
Proof.
  apply extractDates_needs_two_dates. right.
  exists "Din "%string, "09"%string, "02"%string, "2026"%string, "!"%string.
  split; [reflexivity|]. split; [repeat split|]. split.
  - intros k Hk. simpl in Hk. do 4 (destruct k as [|k]; [reflexivity|]). lia.
  - intros k. destruct k as [|k]; [reflexivity|].
    destruct k as [|k]; reflexivity.
Defined.

End CatalogFacts.

(** ** The catalog URLs of the store scraper *)

Module CatalogURLFacts.
Import StoreScraper StoreCatalogs CatalogViews.
Import ConfigScraper(is_digit, strip_prefix, span_digits, all_digits).

Lemma prefix_split : forall (p s : string),
  String.prefix p s = true -> exists r, s = p +:+ r.
Proof.
  induction p as [|a p IH]; intros s H.
  - exists s. reflexivity.
  - destruct s as [|b s]; [discriminate|]. simpl in H.
    destruct (ascii_dec a b) as [<-|]; [|discriminate].
    destruct (IH _ H) as [r ->]. exists r. reflexivity.
Qed.

Lemma prefix_app (p r : string) : String.prefix p (p +:+ r) = true.
Proof.
  induction p as [|a p IH]; [now destruct r|].
  change (String a p +:+ r) with (String a (p +:+ r)). simpl.
  destruct (ascii_dec a a); [exact IH | congruence].
Qed.

(** Removing the matches of a pattern that starts with a slash keeps the
    scheme at the front. *)
Lemma RemoveAll_http (lit s : string) :
  HasPrefix s "http" = true ->
  HasPrefix (RemoveAll (String "/" lit) s) "http" = true.
Proof.
  unfold HasPrefix, RemoveAll. intros H.
  apply prefix_split in H as [r ->].
  generalize (String.length ("http" +:+ r)). intros [|fuel].
  - exact (prefix_app "http" r).
  - change ("http" +:+ r)
      with (String "h" (String "t" (String "t" (String "p" r)))).
    cbn [remove_all].
    cbn [find_lit_digits lit_digits_here strip_prefix Ascii.eqb Bool.eqb].
    destruct (find_lit_digits (String "/" lit) r) as [[pre rest]|].
    + exact (prefix_app "http" (pre +:+ remove_all _ _ rest)).
    + exact (prefix_app "http" r).
Qed.

Lemma clean_url_http (group : string) :
  HasPrefix (clean_url group) "http" = true.
Proof.
  unfold clean_url. apply RemoveAll_http, RemoveAll_http.
  destruct (HasPrefix group "http") eqn:H; simpl; [exact H|].
  exact (prefix_app "http" ("s://www.lidl.ro" +:+ group)).
Qed.

Lemma collect_urls_spec : forall (matches : list (list string))
    (seen : gset string) (urls : list string),
  NoDup urls -> (forall u, u ∈ seen <-> u ∈ urls) ->
  exists extra,
    collect_urls matches seen urls = urls ++ extra /\
    NoDup (urls ++ extra) /\
    sublist extra (cleaned matches) /\
    Forall (fun u => wanted u = true) extra /\
    (forall u, u ∈ cleaned matches -> wanted u = true -> u ∈ urls ++ extra).
Proof.
  induction matches as [|m rest IH]; intros seen urls Hnd Hseen.
  - exists []. rewrite app_nil_r.
    split; [reflexivity|]. split; [assumption|]. split; [constructor|].
    split; [constructor|]. intros u Hu. inversion Hu.
  - cbn [collect_urls]. unfold cleaned. cbn [omap list_omap].
    fold (omap (fun m => clean_url <$> m !! 1%nat) rest).
    fold (cleaned rest).
    destruct (m !! 1%nat) as [group|]; cbn [fmap option_fmap option_map].
    2:{ destruct (IH seen urls Hnd Hseen) as (extra & E & N & S & F & C).
        exists extra. auto. }
    set (url := clean_url group).
    fold (wanted url). rewrite <- andb_assoc. fold (wanted url).
    destruct (bool_decide (url ∈ seen)) eqn:Hin; cbn [negb andb].
    + apply bool_decide_eq_true in Hin.
      destruct (IH seen urls Hnd Hseen) as (extra & E & N & S & F & C).
      exists extra. repeat split; auto.
      * now apply sublist_cons.
      * intros u Hu Hw. apply elem_of_cons in Hu as [->|Hu]; [|now apply C].
        apply elem_of_app. left. now apply Hseen.
    + apply bool_decide_eq_false in Hin.
      destruct (wanted url) eqn:Hw.
      * destruct (IH ({[url]} ∪ seen) (urls ++ [url])) as (extra & E & N & S & F & C).
        { apply NoDup_app. repeat split; auto.
          - intros u Hu Hu'. apply list_elem_of_singleton in Hu' as ->.
            apply Hin. now apply Hseen.
          - apply NoDup_singleton. }
        { intros u. rewrite elem_of_union, elem_of_singleton, elem_of_app,
            list_elem_of_singleton, Hseen. tauto. }
        exists (url :: extra). rewrite <- app_assoc in E, N, C.
        repeat split; auto.
        -- now apply sublist_skip.
        -- intros u Hu Hwu. apply elem_of_cons in Hu as [->|Hu];
             [|now apply C].
           apply elem_of_app. right. now left.
      * destruct (IH seen urls Hnd Hseen) as (extra & E & N & S & F & C).
        exists extra. repeat split; auto.
        -- now apply sublist_cons.
        -- intros u Hu Hwu. apply elem_of_cons in Hu as [->|Hu];
             [congruence | now apply C].
Qed.

(** [X20]: [extractCatalogURLs] panics exactly when the pattern of the
    config does not compile. The URLs it returns are pairwise different and
    come in the order of the matches; each is group 1 of a match with the
    site put before it when it does not start with [http] and the
    [/ar/<digits>] and [/view/flyer/page/<digits>] parts taken out; each
    starts with [http], contains [perioada] and does not contain
    [reduceri]; and every match whose URL passes this test is returned. *)
Theorem extractCatalogURLs_result (site : Site) (html : string)
    (config : ScraperConfig) :
  (forall v, extractCatalogURLs site html config = Panics v <->
     regexp_FindAllStringSubmatch site (CatalogURLRegex (Selectors config))
       html = Panics v) /\
  (forall urls, extractCatalogURLs site html config = Returns urls ->
     exists matches,
       regexp_FindAllStringSubmatch site (CatalogURLRegex (Selectors config))
         html = Returns matches /\
       NoDup urls /\
       sublist urls (cleaned matches) /\
       Forall (fun u => HasPrefix u "http" = true /\
                        Contains u "perioada" = true /\
                        Contains u "reduceri" = false) urls /\
       (forall u, u ∈ cleaned matches -> wanted u = true -> u ∈ urls)).
Proof.
  unfold extractCatalogURLs.
  destruct (regexp_FindAllStringSubmatch site _ html) as [matches|v0].
  - split; [split; discriminate|].
    intros urls [= <-]. exists matches. split; [reflexivity|].
    destruct (collect_urls_spec matches ∅ [])
      as (extra & E & N & S & F & C).
    { constructor. }
    { intros u. rewrite elem_of_empty. split; [tauto | inversion 1]. }
    cbn [app] in E, N, C. rewrite E. repeat split; auto.
    apply Forall_forall. intros u Hu.
    pose proof (proj1 (Forall_forall _ _) F u Hu) as Hw.
    unfold wanted in Hw. apply andb_true_iff in Hw as [Hr Hp].
    apply negb_true_iff in Hr. repeat split; auto.
    pose proof (sublist_submseteq _ _ S) as Hsub.
    assert (Hc : u ∈ cleaned matches).
    { eapply elem_of_submseteq; eauto. }
    unfold cleaned in Hc. apply list_elem_of_omap in Hc as (m & _ & Hm).
    destruct (m !! 1%nat); [|discriminate]. injection Hm as <-.
    apply clean_url_http.
  - split; [intros v; split; intros [= ->]; reflexivity|].
    intros urls H. discriminate H.
Qed.

Lemma extractCatalogURLs_result_witness :
  match extractCatalogURLs
          (StoreExamples.site_of StoreExamples.html_ok (Ok []))
          StoreExamples.catalog_html (Examples.store_config 30) with
  | Returns urls =>
      urls = ["https://www.lidl.ro/l/ro/cataloage/oferte-perioada-09-02-15-02-2026"%string]
      /\ NoDup urls
  | Panics _ => False
  end.
Proof.
  destruct (extractCatalogURLs
              (StoreExamples.site_of StoreExamples.html_ok (Ok []))
              StoreExamples.catalog_html (Examples.store_config 30))
    as [urls|v] eqn:Hrun.
  - destruct (extractCatalogURLs_result
                (StoreExamples.site_of StoreExamples.html_ok (Ok []))
                StoreExamples.catalog_html (Examples.store_config 30))
      as [_ H].
    destruct (H urls Hrun) as (matches & _ & Hnd & _).
    split; [|exact Hnd]. vm_compute in Hrun. now injection Hrun as <-.
  - vm_compute in Hrun. discriminate.
Defined.

End CatalogURLFacts.

(** ** scrapeCatalogPages as a whole *)

Module CatalogPagesFacts.
Import StoreScraper StoreCatalogs CatalogViews IterationViews IterationMore.

Lemma add_images_spec : forall (imageURLs : list string) (seen : gset string)
    (images : list string),
  NoDup images -> (forall u, u ∈ images -> u ∈ seen) ->
  Forall (fun u => u <> EmptyString) images ->
  exists extra,
    snd (add_images imageURLs seen images) = images ++ extra /\
    NoDup (images ++ extra) /\
    Forall (fun u => u <> EmptyString) (images ++ extra) /\
    sublist extra (TrimSpace <$> imageURLs).
Proof.
  induction imageURLs as [|x rest IH]; intros seen images Hnd Hseen Hne.
  - exists []. rewrite app_nil_r. cbn.
    split; [reflexivity|]. split; [assumption|]. split; [assumption|].
    constructor.
  - cbn [add_images fmap list_fmap].
    fold (fmap (M := list) TrimSpace rest).
    destruct (bool_decide (TrimSpace x ∈ seen)) eqn:Hin; cbn [negb andb].
    + destruct (IH seen images Hnd Hseen Hne) as (extra & E & N & F & S).
      exists extra. repeat split; auto. now apply sublist_cons.
    + apply bool_decide_eq_false in Hin.
      destruct (String.eqb (TrimSpace x) "") eqn:Hx; cbn [negb].
      * destruct (IH seen images Hnd Hseen Hne) as (extra & E & N & F & S).
        exists extra. repeat split; auto. now apply sublist_cons.
      * apply String.eqb_neq in Hx.
        destruct (IH ({[TrimSpace x]} ∪ seen) (images ++ [TrimSpace x]))
          as (extra & E & N & F & S).
        { apply NoDup_app. repeat split; auto.
          - intros u Hu Hu'. apply list_elem_of_singleton in Hu' as ->.
            apply Hin. now apply Hseen.
          - apply NoDup_singleton. }
        { intros u. rewrite elem_of_union, elem_of_singleton, elem_of_app,
            list_elem_of_singleton. intros [Hu | ->]; auto. }
        { apply Forall_app. split; [exact Hne|]. now constructor. }
        exists (TrimSpace x :: extra). rewrite <- app_assoc in E, N, F.
        repeat split; auto. now apply sublist_skip.
Qed.

Lemma found_ok_start : found_ok Iter0.
Proof.
  unfold found_ok, Iter0. cbn.
  repeat split; try lia; try constructor;
    intros Hu; [now apply elem_of_empty in Hu | now apply elem_of_nil in Hu].
Qed.

(** [X21]: a catalog that [scrapeCatalogPages] returns has page images
    that are pairwise different and not empty, and its cover image is the
    first of them, or empty when there is none. The images are those of
    the page-by-page loop when it found any; only when it found none is the
    single page asked, once, and the images are then sources of that page
    without surrounding white space, in document order. The call changes no
    file and issues no GET. *)
Theorem scrapeCatalogPages_catalog (fuel : nat) (env : Env) (site : Site)
    (baseURL : string) (config : ScraperConfig) (w w' : World)
    (catalog : ScrapedCatalog) :
  scrapeCatalogPages fuel env site baseURL config w = Some (Ok catalog, w') ->
  NoDup (PageImages catalog) /\
  Forall (fun u => u <> EmptyString) (PageImages catalog) /\
  CoverImage catalog = hd EmptyString (PageImages catalog) /\
  files w' = files w /\ gets w' = gets w /\
  (exists html,
     chromedp_OuterHTML site (clock w) baseURL (waitDuration config) =
       Ok html /\
     Title catalog = extractTitle html config) /\
  exists st w4,
    page_by_page fuel env baseURL config (tick (tick (tick w))) =
      Some (st, w4) /\
    (found st <> [] -> PageImages catalog = found st /\ w' = w4) /\
    (found st = [] ->
     w' = tick w4 /\
     match chromedp_Images site (clock w4) baseURL (waitDuration config) with
     | Err _ => PageImages catalog = []
     | Ok imgs =>
         sublist (PageImages catalog)
           (TrimSpace <$> single_page_sources imgs)
     end).
Proof.
  unfold scrapeCatalogPages. intros Hrun.
  destruct (chromedp_OuterHTML site (clock w) baseURL (waitDuration config))
    as [html|err]; [|discriminate].
  destruct (page_by_page fuel env baseURL config (tick (tick (tick w))))
    as [[st w4]|] eqn:Hloop; [|discriminate].
  unfold page_by_page in Hloop.
  destruct (scrape_loop_found_ok env baseURL config fuel 1 Iter0 _ st w4
              found_ok_start ltac:(cbn; lia) Hloop)
    as ((Hnd & Hseen & Hne & _ & _) & Hf & Hg & _).
  cbn [tick files gets] in Hf, Hg.
  assert (Htitle : forall c, Title (extractDates c html) = Title c).
  { intros c. unfold extractDates.
    now destruct (find_two_dates html) as [|[[? ?] ?] [|[[? ?] ?] ?]]. }
  assert (Hcover : forall c, CoverImage (extractDates c html) = CoverImage c).
  { intros c. unfold extractDates.
    now destruct (find_two_dates html) as [|[[? ?] ?] [|[[? ?] ?] ?]]. }
  destruct (found st) as [|u0 us] eqn:Hfound.
  - cbn [length Nat.eqb] in Hrun.
    destruct (chromedp_Images site (clock w4) baseURL (waitDuration config))
      as [imgs|e] eqn:Himgs.
    + destruct (add_images_spec (single_page_sources imgs) (seen st) [])
        as (extra & E & N & F & S).
      { constructor. } { intros u Hu. inversion Hu. } { constructor. }
      cbn [app] in E, N, F. rewrite E in Hrun.
      injection Hrun as <- <-. cbn [PageImages CoverImage tick files gets].
      split; [exact N|]. split; [exact F|].
      split; [destruct extra; [apply Hcover | reflexivity]|].
      split; [exact Hf|]. split; [exact Hg|].
      split; [exists html; split; [reflexivity | apply Htitle]|].
      exists st, w4. rewrite Hfound. split; [reflexivity|].
      split; [congruence|].
      intros _. split; [reflexivity|]. rewrite Himgs. exact S.
    + injection Hrun as <- <-. cbn [PageImages CoverImage tick files gets].
      split; [constructor|]. split; [constructor|].
      split; [apply Hcover|]. split; [exact Hf|]. split; [exact Hg|].
      split; [exists html; split; [reflexivity | apply Htitle]|].
      exists st, w4. rewrite Hfound. split; [reflexivity|].
      split; [congruence|].
      intros _. split; [reflexivity|]. now rewrite Himgs.
  - cbn [length Nat.eqb] in Hrun.
    injection Hrun as <- <-. cbn [PageImages CoverImage].
    split; [exact Hnd|]. split; [exact Hne|]. split; [reflexivity|].
    split; [exact Hf|]. split; [exact Hg|].
    split; [exists html; split; [reflexivity | apply Htitle]|].
    exists st, w4. rewrite Hfound. split; [reflexivity|].
    split; [intros _; split; reflexivity | intros H; discriminate H].
Qed.

Lemma scrapeCatalogPages_catalog_witness :
  match scrapeCatalogPages 30
          (Examples.store_env StoreExamples.pages_two Examples.answer_ok)
          (StoreExamples.site_of StoreExamples.html_ok
             (Ok StoreExamples.lazy_images))
          "https://shop.example/c" (Examples.store_config 30) Examples.w0 with
  | Some (Ok catalog, w') =>
      NoDup (PageImages catalog) /\
      CoverImage catalog = hd EmptyString (PageImages catalog) /\
      files w' = files Examples.w0
  | _ => False
  end.
Proof.
  destruct (scrapeCatalogPages 30
              (Examples.store_env StoreExamples.pages_two Examples.answer_ok)
              (StoreExamples.site_of StoreExamples.html_ok
                 (Ok StoreExamples.lazy_images))
              "https://shop.example/c" (Examples.store_config 30) Examples.w0)
    as [[[catalog|e] w']|] eqn:Hrun.
  - destruct (scrapeCatalogPages_catalog _ _ _ _ _ _ _ _ Hrun)
      as (H1 & _ & H3 & H4 & _).
    split; [exact H1|]. split; [exact H3 | exact H4].
  - vm_compute in Hrun. discriminate.
  - vm_compute in Hrun. discriminate.
Defined.

(** [X22]: with a page limit below the largest [int], [scrapeCatalogPages]
    returns within as many runs of the loop body as the limit says, and it
    returns an error exactly when the first load of the catalog fails: no
    failure of a page or of the single-page approach makes it fail. *)
Theorem scrapeCatalogPages_returns (fuel : nat) (env : Env) (site : Site)
    (baseURL : string) (config : ScraperConfig) (w : World) :
  MaxPages config < MaxInt -> MaxPages config <= Z.of_nat fuel ->
  exists r w',
    scrapeCatalogPages fuel env site baseURL config w = Some (r, w') /\
    forall e, r = Err e <->
      exists err,
        chromedp_OuterHTML site (clock w) baseURL (waitDuration config) =
          Err err /\
        e = "failed to load catalog: " +:+ err.
Proof.
  intros Hmax Hfuel. unfold scrapeCatalogPages.
  destruct (chromedp_OuterHTML site (clock w) baseURL (waitDuration config))
    as [html|err].
  - set (w3 := tick (tick (tick w))).
    assert (Hstart : at_page env baseURL config w3 1 Iter0 w3).
    { unfold at_page. cbn. repeat split; try lia; try apply found_ok_start. }
    pose proof (scrape_loop_ends env baseURL config w3 Hmax fuel 1 Iter0 w3
                  Hstart) as Hloop.
    unfold page_by_page.
    destruct (scrape_loop fuel env baseURL config 1 Iter0 w3)
      as [[st w4]|]; [|lia].
    destruct (if (length (found st) =? 0)%nat then _ else _) as [images w5].
    eexists _, _. split; [reflexivity|].
    intros e. split; [discriminate|]. intros (err & Herr & _). discriminate.
  - eexists _, _. split; [reflexivity|].
    intros e. split.
    + intros [= <-]. eauto.
    + intros (err' & [= <-] & ->). reflexivity.
Qed.

Lemma scrapeCatalogPages_returns_witness :
  exists r w',
    scrapeCatalogPages 30
      (Examples.store_env Examples.pages_empty Examples.answer_ok)
      (StoreExamples.site_of StoreExamples.html_ok
         (Ok StoreExamples.lazy_images))
      "https://shop.example/c" (Examples.store_config 30) Examples.w0 =
    Some (r, w').
Proof.
  destruct (scrapeCatalogPages_returns 30
              (Examples.store_env Examples.pages_empty Examples.answer_ok)
              (StoreExamples.site_of StoreExamples.html_ok
                 (Ok StoreExamples.lazy_images))
              "https://shop.example/c" (Examples.store_config 30) Examples.w0)
    as (r & w' & Hrun & _).
  - unfold MaxInt. simpl. lia.
  - simpl. lia.
  - exists r, w'. exact Hrun.
Defined.

End CatalogPagesFacts.

(** ** What the download phase asks for and writes *)

Module DownloadFootprint.
Import StoreScraper StoreCatalogs CatalogViews DownloadMore.

Lemma downloadImage_footprint (env : Env) (url dir filename : string)
    (w : World) :
  gets (snd (downloadImage env url dir filename w)) = gets w ++ [url] /\
  forall p, p <> filepath_Join env dir filename ->
    files (snd (downloadImage env url dir filename w)) !! p = files w !! p.
Proof.
  unfold downloadImage.
  destruct (http_Get env (clock w) url) as [resp|e];
    [|split; [reflexivity | intros; reflexivity]].
  destruct (negb (StatusCode resp =? 200));
    [split; [reflexivity | intros; reflexivity]|].
  destruct (os_Create env _ _);
    [split; [reflexivity | intros; reflexivity]|].
  destruct (copy_err (Body resp)); (split; [reflexivity|]);
    intros p Hp; cbn [snd write_file files tick log_get];
    rewrite !lookup_insert_ne by congruence; reflexivity.
Qed.

Lemma run_pool_footprint (env : Env) (id dir : string)
    (tasks : list (Z * string)) :
  forall (schedule : list nat) (pages : list Page) (w : World),
    gets (snd (run_pool env id dir tasks schedule pages w)) =
      gets w ++ scheduled_urls tasks schedule /\
    forall p,
      (forall k num url, tasks !! k = Some (num, url) ->
         p <> filepath_Join env dir (page_file (num + 1))) ->
      files (snd (run_pool env id dir tasks schedule pages w)) !! p =
      files w !! p.
Proof.
  induction schedule as [|k rest IH]; intros pages w.
  - cbn. rewrite app_nil_r. auto.
  - cbn [run_pool]. unfold scheduled_urls. rewrite omap_first.
    fold (scheduled_urls tasks rest).
    destruct (tasks !! k) as [[num url]|] eqn:Hk; cbn [fmap option_fmap option_map snd].
    + unfold goroutine.
      destruct (downloadImage_footprint env url dir (page_file (num + 1)) w)
        as [Hg Hf].
      unfold page_file in Hg, Hf.
      destruct (downloadImage env url dir
                  ("page-" +:+ FormatIntPad 2 (num + 1) +:+ ".jpg") w)
        as [[path|e] w'] eqn:Hd; cbn [snd] in Hg, Hf.
      * destruct (IH (pages ++ [{| PageNumber := num + 1;
                                   ImageURL := "/newsletters/" +:+ id +:+ "/" +:+
                                     ("page-" +:+ FormatIntPad 2 (num + 1) +:+ ".jpg") |}])
                    w') as [IHg IHf].
        split; [rewrite IHg, Hg, <- app_assoc; reflexivity|].
        intros p Hp. rewrite (IHf p Hp). apply Hf. exact (Hp k num url Hk).
      * destruct (IH pages w') as [IHg IHf].
        split; [rewrite IHg, Hg, <- app_assoc; reflexivity|].
        intros p Hp. rewrite (IHf p Hp). apply Hf. exact (Hp k num url Hk).
    + apply IH.
Qed.

Lemma downloadCatalogImages_gets_aux (env : Env) (schedule : list nat)
    (catalog : ScrapedCatalog) (config : ScraperConfig) (w : World) :
  match os_MkdirAll env (clock w) (catalog_dir env catalog config) with
  | Some _ =>
      gets (snd (downloadCatalogImages env schedule catalog config w)) =
        gets w
  | None =>
      gets (snd (downloadCatalogImages env schedule catalog config w)) =
        gets w ++ cover_gets catalog ++
        scheduled_urls (spawn config 0 (PageImages catalog)) schedule
  end.
Proof.
  unfold downloadCatalogImages, catalog_dir.
  set (id := strings_ToLower env (StoreName config) +:+ "-" +:+
             remove_dashes (ValidFrom catalog)).
  set (dir := filepath_Join env "../newsletters" id).
  destruct (os_MkdirAll env (clock w) dir) as [err|]; [reflexivity|].
  set (tasks := spawn config 0 (PageImages catalog)).
  set (w2 := if String.eqb (CoverImage catalog) "" then tick w
             else snd (downloadImage env (CoverImage catalog) dir "cover.jpg"
                         (tick w))).
  assert (Hg2 : gets w2 = gets w ++ cover_gets catalog).
  { unfold w2, cover_gets.
    destruct (String.eqb (CoverImage catalog) "").
    - cbn. now rewrite app_nil_r.
    - now destruct (downloadImage_footprint env (CoverImage catalog) dir
                      "cover.jpg" (tick w)) as [Hg Hf]. }
  destruct (run_pool_footprint env id dir tasks schedule [] w2) as [Hg3 Hf3].
  destruct (run_pool env id dir tasks schedule [] w2) as [pages w3].
  cbn [snd tick gets files] in *.
  rewrite Hg3, Hg2, <- app_assoc; reflexivity.
Qed.

(** [X23]: when the directory of the catalog cannot be created, the
    download phase asks for nothing and writes nothing. Otherwise it asks
    for the cover, when the catalog has one, and then for one image per
    goroutine, in their order of completion, retrying nothing; and it
    changes no file but [cover.jpg] and the files [page-NN.jpg] of its
    directory, [NN] from 1 to the count of page images and not above the
    page limit. *)
Theorem downloadCatalogImages_footprint (env : Env) (schedule : list nat)
    (catalog : ScrapedCatalog) (config : ScraperConfig) (w : World) :
  match os_MkdirAll env (clock w) (catalog_dir env catalog config) with
  | Some _ =>
      gets (snd (downloadCatalogImages env schedule catalog config w)) =
        gets w /\
      files (snd (downloadCatalogImages env schedule catalog config w)) =
        files w
  | None =>
      gets (snd (downloadCatalogImages env schedule catalog config w)) =
        gets w ++ cover_gets catalog ++
        scheduled_urls (spawn config 0 (PageImages catalog)) schedule /\
      forall p,
        files (snd (downloadCatalogImages env schedule catalog config w)) !! p
          <> files w !! p ->
        p = filepath_Join env (catalog_dir env catalog config) "cover.jpg" \/
        exists n,
          1 <= n <= Z.of_nat (length (PageImages catalog)) /\
          n <= MaxPages config /\
          p = filepath_Join env (catalog_dir env catalog config) (page_file n)
  end.
Proof.
  unfold downloadCatalogImages, catalog_dir.
  set (id := strings_ToLower env (StoreName config) +:+ "-" +:+
             remove_dashes (ValidFrom catalog)).
  set (dir := filepath_Join env "../newsletters" id).
  destruct (os_MkdirAll env (clock w) dir) as [err|]; [split; reflexivity|].
  set (tasks := spawn config 0 (PageImages catalog)).
  set (w2 := if String.eqb (CoverImage catalog) "" then tick w
             else snd (downloadImage env (CoverImage catalog) dir "cover.jpg"
                         (tick w))).
  assert (Hw2 : gets w2 = gets w ++ cover_gets catalog /\
                forall p, p <> filepath_Join env dir "cover.jpg" ->
                  files w2 !! p = files w !! p).
  { unfold w2, cover_gets.
    destruct (String.eqb (CoverImage catalog) "").
    - cbn. rewrite app_nil_r. auto.
    - destruct (downloadImage_footprint env (CoverImage catalog) dir
                  "cover.jpg" (tick w)) as [Hg Hf]. auto. }
  destruct Hw2 as [Hg2 Hf2].
  destruct (run_pool_footprint env id dir tasks schedule [] w2) as [Hg3 Hf3].
  destruct (run_pool env id dir tasks schedule [] w2) as [pages w3].
  cbn [snd tick gets files] in *.
  split; [rewrite Hg3, Hg2, <- app_assoc; reflexivity|].
  intros p Hp.
  destruct (decide (p = filepath_Join env dir "cover.jpg")) as [|Hcover];
    [now left | right].
  destruct (decide
    (p ∈ (fun k => filepath_Join env dir (page_file (Z.of_nat k + 1)))
           <$> seq 0 (length tasks))) as [Hin|Hout].
  - apply list_elem_of_fmap in Hin as (k & -> & Hk).
    apply elem_of_seq in Hk as [_ Hk]. cbn in Hk.
    destruct (lookup_lt_is_Some_2 tasks k Hk) as [[num url] Htask].
    destruct (spawn_facts _ _ _ _ _ _ Htask) as (-> & Hlt & Hurl).
    apply lookup_lt_Some in Hurl.
    exists (Z.of_nat k + 1). repeat split; try lia. 
  - exfalso. apply Hp. rewrite Hf3; [now apply Hf2|].
    intros k num url Htask ->. apply Hout.
    destruct (spawn_facts _ _ _ _ _ _ Htask) as (-> & _ & _).
    apply list_elem_of_fmap. exists k. split; [reflexivity|].
    apply elem_of_seq. apply lookup_lt_Some in Htask. cbn. lia.
Qed.

Lemma downloadCatalogImages_footprint_witness :
  gets (snd (downloadCatalogImages
               (Examples.store_env Examples.pages_one
                  Examples.answer_but_second)
               [3; 1; 0; 2]%nat Examples.catalog4 (Examples.store_config 3)
               Examples.w0)) =
  [ "https://cdn.example/flyer/p1.jpg"; "https://cdn.example/flyer/p2.jpg";
    "https://cdn.example/flyer/p1.jpg"; "https://cdn.example/flyer/p3.jpg"
  ]%string.
Proof.
  pose proof (downloadCatalogImages_footprint
                (Examples.store_env Examples.pages_one
                   Examples.answer_but_second)
                [3; 1; 0; 2]%nat Examples.catalog4 (Examples.store_config 3)
                Examples.w0) as H.
  change (os_MkdirAll _ _ _) with (@None error) in H. cbv beta iota in H.
  destruct H as [Hg _]. rewrite Hg. reflexivity.
Defined.

(** [X24]: the download phase asks twice for the first page image of a
    catalog whose cover is that image, as [scrapeCatalogPages] makes it:
    once for [cover.jpg] and once more when the goroutine of page 1
    runs. *)
Theorem cover_image_is_asked_twice (env : Env) (schedule : list nat)
    (catalog : ScrapedCatalog) (config : ScraperConfig) (w : World)
    (first : string) (others : list string) :
  PageImages catalog = first :: others -> CoverImage catalog = first ->
  first <> EmptyString -> 0 < MaxPages config -> 0%nat ∈ schedule ->
  os_MkdirAll env (clock w) (catalog_dir env catalog config) = None ->
  exists between after,
    gets (snd (downloadCatalogImages env schedule catalog config w)) =
    gets w ++ first :: between ++ first :: after.
Proof.
  intros Himgs Hcover Hne Hmax Hsched Hmk.
  pose proof (downloadCatalogImages_gets_aux env schedule catalog config w) as H.
  rewrite Hmk in H. rewrite H.
  unfold cover_gets. rewrite Hcover.
  destruct (String.eqb first "") eqn:E; [apply String.eqb_eq in E; congruence|].
  assert (Hin : first ∈ scheduled_urls (spawn config 0 (PageImages catalog))
                          schedule).
  { unfold scheduled_urls. apply list_elem_of_omap. exists 0%nat.
    split; [exact Hsched|]. rewrite Himgs. cbn [spawn].
    destruct (Z.geb_spec 0 (MaxPages config)); [lia | reflexivity]. }
  apply list_elem_of_split in Hin as (between & after & ->).
  exists between, after. reflexivity.
Qed.

Lemma cover_image_is_asked_twice_witness :
  exists between after,
    gets (snd (downloadCatalogImages
                 (Examples.store_env Examples.pages_one Examples.answer_ok)
                 [3; 1; 0; 2]%nat Examples.catalog4 (Examples.store_config 10)
                 Examples.w0)) =
    gets Examples.w0 ++
    "https://cdn.example/flyer/p1.jpg"%string :: between ++
    "https://cdn.example/flyer/p1.jpg"%string :: after.
Proof.
  apply (cover_image_is_asked_twice
           (Examples.store_env Examples.pages_one Examples.answer_ok)
           [3; 1; 0; 2]%nat Examples.catalog4 (Examples.store_config 10)
           Examples.w0 "https://cdn.example/flyer/p1.jpg"
           [ "https://cdn.example/flyer/p2.jpg";
             "https://cdn.example/flyer/p3.jpg";
             "https://cdn.example/flyer/p4.jpg" ]%string).
  - reflexivity.
  - reflexivity.
  - discriminate.
  - simpl. lia.
  - apply (bool_decide_unpack _). vm_compute. exact I.
  - reflexivity.
Defined.

End DownloadFootprint.

(** ** ScrapeAndDownload *)

Module ScrapeFacts.
Import StoreScraper StoreCatalogs CatalogViews IterationViews IterationMore.
Import CatalogPagesFacts.

Lemma scrapeCatalogPages_some (fuel : nat) (env : Env) (site : Site)
    (baseURL : string) (config : ScraperConfig) (w : World) :
  MaxPages config < MaxInt -> MaxPages config <= Z.of_nat fuel ->
  exists r w', scrapeCatalogPages fuel env site baseURL config w = Some (r, w').
Proof.
  intros Hmax Hfuel. unfold scrapeCatalogPages.
  destruct (chromedp_OuterHTML site (clock w) baseURL (waitDuration config))
    as [html|err]; [|eauto].
  set (w3 := tick (tick (tick w))).
  assert (Hstart : at_page env baseURL config w3 1 Iter0 w3).
  { unfold at_page. cbn. repeat split; try lia; try apply found_ok_start. }
  pose proof (scrape_loop_ends env baseURL config w3 Hmax fuel 1 Iter0 w3
                Hstart) as Hloop.
  unfold page_by_page.
  destruct (scrape_loop fuel env baseURL config 1 Iter0 w3)
    as [[st w4]|]; [|lia].
  destruct (if (length (found st) =? 0)%nat then _ else _) as [images w5].
  eauto.
Qed.

Lemma downloadCatalogImages_store (env : Env) (schedule : list nat)
    (catalog : ScrapedCatalog) (config : ScraperConfig) (w w' : World)
    (n : Newsletter) :
  downloadCatalogImages env schedule catalog config w = (Ok n, w') ->
  Store n = StoreName config.
Proof.
  unfold downloadCatalogImages.
  destruct (os_MkdirAll env (clock w) _); [discriminate|].
  destruct (run_pool env _ _ _ schedule [] _) as [pages w3].
  now intros [= <- _].
Qed.

Lemma catalogs_loop_spec (fuel : nat) (env : Env) (site : Site)
    (config : ScraperConfig) (schedules : Z -> list nat) (maxCatalogs : Z) :
  forall (urls : list string) (i : Z) (newsletters : list Newsletter)
         (w : World) (result : list Newsletter) (w' : World),
    catalogs_loop fuel env site config schedules maxCatalogs i urls
      newsletters w = Some (result, w') ->
    exists extra,
      result = newsletters ++ extra /\
      (length extra <= length urls)%nat /\
      Z.of_nat (length extra) <= Z.max 0 (maxCatalogs - i) /\
      Forall (fun n => Store n = StoreName config /\
                       produced fuel env site config urls n) extra.
Proof.
  induction urls as [|url rest IH]; intros i newsletters w result w' Hrun;
    cbn [catalogs_loop] in Hrun.
  - injection Hrun as <- <-. exists []. rewrite app_nil_r.
    split; [reflexivity|]. split; [reflexivity|]. split; [cbn; lia|].
    constructor.
  - destruct (Z.geb_spec i maxCatalogs) as [Hge|Hlt].
    { injection Hrun as <- <-. exists []. rewrite app_nil_r.
      split; [reflexivity|]. split; [cbn; lia|]. split; [cbn; lia|].
      constructor. }
    assert (Hweak : forall n,
              produced fuel env site config rest n ->
              produced fuel env site config (url :: rest) n).
    { intros n (u & c & s & w1 & w2 & w3 & Hu & Hs & Hd).
      exists u, c, s, w1, w2, w3. split; [now right | auto]. }
    assert (Hrest : forall extra : list Newsletter,
              (length extra <= length rest)%nat ->
              Z.of_nat (length extra) <= Z.max 0 (maxCatalogs - (i + 1)) ->
              Forall (fun n => Store n = StoreName config /\
                        produced fuel env site config rest n) extra ->
              (length extra <= length (url :: rest))%nat /\
              Z.of_nat (length extra) <= Z.max 0 (maxCatalogs - i) /\
              Forall (fun n => Store n = StoreName config /\
                        produced fuel env site config (url :: rest) n) extra).
    { intros extra H1 H2 H3. split; [cbn; lia|]. split; [lia|].
      eapply Forall_impl; [exact H3|]. intros n [Hs Hp]. auto. }
    destruct (scrapeCatalogPages fuel env site url config w)
      as [[[catalog|e] w1]|] eqn:Hscrape; [| |discriminate].
    + destruct (downloadCatalogImages env (schedules i) catalog config w1)
        as [[n|e] w2] eqn:Hdl.
      * destruct (IH _ _ _ _ _ Hrun) as (extra & -> & H1 & H2 & H3).
        exists (n :: extra). rewrite <- app_assoc.
        split; [reflexivity|]. split; [cbn; lia|].
        split; [cbn [length]; lia|].
        constructor.
        -- split; [eapply downloadCatalogImages_store; eauto|].
           exists url, catalog, (schedules i), w, w1, w2.
           split; [now left | auto].
        -- eapply Forall_impl; [exact H3|]. intros m [Hs Hp]. auto.
      * destruct (IH _ _ _ _ _ Hrun) as (extra & -> & H1 & H2 & H3).
        exists extra. split; [reflexivity|]. now apply Hrest.
    + destruct (IH _ _ _ _ _ Hrun) as (extra & -> & H1 & H2 & H3).
      exists extra. split; [reflexivity|]. now apply Hrest.
Qed.

Lemma catalogs_loop_some (fuel : nat) (env : Env) (site : Site)
    (config : ScraperConfig) (schedules : Z -> list nat) (maxCatalogs : Z) :
  MaxPages config < MaxInt -> MaxPages config <= Z.of_nat fuel ->
  forall (urls : list string) (i : Z) (newsletters : list Newsletter)
         (w : World),
    exists result w',
      catalogs_loop fuel env site config schedules maxCatalogs i urls
        newsletters w = Some (result, w').
Proof.
  intros Hmax Hfuel. induction urls as [|url rest IH];
    intros i newsletters w; cbn [catalogs_loop]; [eauto|].
  destruct (i >=? maxCatalogs); [eauto|].
  destruct (scrapeCatalogPages_some fuel env site url config w Hmax Hfuel)
    as ([catalog|e] & w1 & ->); [|apply IH].
  destruct (downloadCatalogImages env (schedules i) catalog config w1)
    as [[n|e] w2]; apply IH.
Qed.

(** [X25]: with a page limit below the largest [int] and fuel for that
    many pages, [ScrapeAndDownload] ends. It returns an error exactly when
    the catalog list cannot be loaded, and it panics exactly when the list
    is loaded and the catalog pattern of the config does not compile; no
    failure of a catalog, of a download or of the saving makes it fail.
    The newsletters it returns are no more than the catalog URLs found,
    and no more than [MaxCatalogs] when that is positive; a negative
    [MaxCatalogs] gives no newsletter at all. Each of them carries the
    store name of the config and is what the download phase made of a
    catalog scraped from one of the URLs found. *)
Theorem ScrapeAndDownload_outcome (fuel : nat) (env : Env) (site : Site)
    (schedules : Z -> list nat) (config : ScraperConfig) (w : World) :
  MaxPages config < MaxInt -> MaxPages config <= Z.of_nat fuel ->
  exists r w',
    ScrapeAndDownload fuel env site schedules config w = Some (r, w') /\
    (forall e, r = Returns (Err e) <->
       exists err,
         chromedp_OuterHTML site (clock w) (CatalogListURL config)
           (waitDuration config) = Err err /\
         e = "failed to scrape: " +:+ err) /\
    (forall v, r = Panics v <->
       exists html,
         chromedp_OuterHTML site (clock w) (CatalogListURL config)
           (waitDuration config) = Ok html /\
         extractCatalogURLs site html config = Panics v) /\
    (forall newsletters, r = Returns (Ok newsletters) ->
       exists html urls,
         chromedp_OuterHTML site (clock w) (CatalogListURL config)
           (waitDuration config) = Ok html /\
         extractCatalogURLs site html config = Returns urls /\
         (length newsletters <= length urls)%nat /\
         (0 < MaxCatalogs config ->
          Z.of_nat (length newsletters) <= MaxCatalogs config) /\
         (MaxCatalogs config < 0 -> newsletters = []) /\
         Forall (fun n => Store n = StoreName config /\
                          produced fuel env site config urls n) newsletters).
Proof.
  intros Hmax Hfuel. unfold ScrapeAndDownload.
  destruct (chromedp_OuterHTML site (clock w) (CatalogListURL config)
              (waitDuration config)) as [html|err].
  2:{ eexists _, _. split; [reflexivity|]. split; [|split].
      - intros e. split.
        + intros [= <-]. eauto.
        + intros (err' & [= <-] & ->). reflexivity.
      - intros v. split; [discriminate|]. intros (h & Hh & _). discriminate.
      - intros nl H. discriminate H. }
  destruct (extractCatalogURLs site html config) as [urls|v0] eqn:Hurls.
  2:{ eexists _, _. split; [reflexivity|]. split; [|split].
      - intros e. split; [discriminate|]. intros (err & Herr & _). discriminate.
      - intros v. split.
        + intros [= <-]. eauto.
        + intros (h & [= <-] & Hp). rewrite Hurls in Hp. now injection Hp as ->.
      - intros nl H. discriminate H. }
  set (maxCatalogs := if MaxCatalogs config =? 0
                      then Z.of_nat (length urls) else MaxCatalogs config).
  destruct (catalogs_loop_some fuel env site config schedules maxCatalogs
              Hmax Hfuel urls 0 [] (tick w)) as (result & w1 & Hloop).
  rewrite Hloop. eexists _, _. split; [reflexivity|]. split; [|split].
  - intros e. split; [discriminate|]. intros (err & Herr & _). discriminate.
  - intros v. split; [discriminate|].
    intros (h & [= <-] & Hp). rewrite Hurls in Hp. discriminate.
  - intros nl [= <-]. exists html, urls. split; [reflexivity|].
    split; [exact Hurls|].
    destruct (catalogs_loop_spec _ _ _ _ _ _ _ _ _ _ _ _ Hloop)
      as (extra & -> & H1 & H2 & H3).
    cbn [app]. split; [exact H1|].
    unfold maxCatalogs in H2.
    split; [|split; [|exact H3]].
    + intros Hpos. destruct (Z.eqb_spec (MaxCatalogs config) 0); lia.
    + intros Hneg. destruct (Z.eqb_spec (MaxCatalogs config) 0); [lia|].
      destruct extra; [reflexivity | cbn in H2; lia].
Qed.

Lemma ScrapeAndDownload_outcome_witness :
  exists r w',
    ScrapeAndDownload 30
      (Examples.store_env StoreExamples.pages_two Examples.answer_ok)
      (StoreExamples.site_of StoreExamples.html_ok
         (Ok StoreExamples.lazy_images))
      (fun _ => [1; 0]%nat) (Examples.store_config 30) Examples.w0 =
    Some (r, w').
Proof.
  destruct (ScrapeAndDownload_outcome 30
              (Examples.store_env StoreExamples.pages_two Examples.answer_ok)
              (StoreExamples.site_of StoreExamples.html_ok
                 (Ok StoreExamples.lazy_images))
              (fun _ => [1; 0]%nat) (Examples.store_config 30) Examples.w0)
    as (r & w' & Hrun & _).
  - unfold MaxInt. simpl. lia.
  - simpl. lia.
  - exists r, w'. exact Hrun.
Defined.

End ScrapeFacts.

(** ** The Lidl scraper *)

Module LidlFacts.
Import LidlScraper LidlViews CatalogFacts.
Import ConfigScraper(is_digit, strip_prefix, all_digits).
Import StoreCatalogs(take_digits).

Lemma strip_prefix_app : forall (p r : string),
  strip_prefix p (p +:+ r) = Some r.
Proof.
  induction p as [|a p IH]; intros r; [reflexivity|].
  change (String a p +:+ r) with (String a (p +:+ r)). simpl.
  now rewrite Ascii.eqb_refl.
Qed.

Lemma take_digits_exact (n : nat) (d r : string) :
  all_digits d = true -> String.length d = n ->
  take_digits n (d +:+ r) = Some (d, r).
Proof. intros Hd <-. now apply take_digits_run. Qed.




Lemma find_period_skip : forall (before s : string),
  no_period_before (String.length before) (before +:+ s) ->
  find_period (before +:+ s) = find_period s.
Proof.
  induction before as [|c before IH]; intros s Hno; [reflexivity|].
  change (String c before +:+ s) with (String c (before +:+ s)).
  pose proof (Hno O ltac:(simpl; lia)) as H0.
  change (period_here (String c (before +:+ s)) = None) in H0.
  simpl find_period. rewrite H0.
  apply IH. intros k Hk. apply (Hno (S k)). simpl. lia.
Qed.

Lemma find_period_here (s : string)
    (m : string * string * string * string * string) :
  period_here s = Some m -> find_period s = Some m.
Proof.
  intros H. destruct s as [|c s]; [discriminate|].
  simpl find_period. now rewrite H.
Qed.

Lemma find_period_without : forall s : string,
  Contains s "perioada-" = false -> find_period s = None.
Proof.
  assert (Hhere : forall s, String.prefix "perioada-" s = false ->
                            period_here s = None).
  { intros s Hp. unfold period_here.
    destruct (strip_prefix "perioada-" s) as [t|] eqn:Ht; [|reflexivity].
    apply strip_prefix_drop in Ht as [_ Ht]. congruence. }
  induction s as [|c s IH]; intros H; cbn [Contains] in H;
    apply orb_false_iff in H as [Hp Hs].
  - reflexivity.
  - simpl find_period. rewrite (Hhere _ Hp). now apply IH.
Qed.

Lemma period_here_period (g1 g2 g3 g4 g5 rest : string) :
  all_digits g1 = true -> String.length g1 = 2%nat ->
  all_digits g2 = true -> String.length g2 = 2%nat ->
  all_digits g3 = true -> String.length g3 = 2%nat ->
  all_digits g4 = true -> String.length g4 = 2%nat ->
  all_digits g5 = true -> String.length g5 = 4%nat ->
  period_here ("perioada-" +:+ g1 +:+ "-" +:+ g2 +:+ "-" +:+ g3 +:+ "-" +:+
               g4 +:+ "-" +:+ g5 +:+ rest) =
  Some (g1, g2, g3, g4, g5).
Proof.
  intros D1 L1 D2 L2 D3 L3 D4 L4 D5 L5. unfold period_here.
  rewrite strip_prefix_app. cbn [mbind option_bind].
  rewrite (take_digits_exact 2 g1 _ D1 L1). cbn [mbind option_bind].
  rewrite strip_prefix_app. cbn [mbind option_bind].
  rewrite (take_digits_exact 2 g2 _ D2 L2). cbn [mbind option_bind].
  rewrite strip_prefix_app. cbn [mbind option_bind].
  rewrite (take_digits_exact 2 g3 _ D3 L3). cbn [mbind option_bind].
  rewrite strip_prefix_app. cbn [mbind option_bind].
  rewrite (take_digits_exact 2 g4 _ D4 L4). cbn [mbind option_bind].
  rewrite strip_prefix_app. cbn [mbind option_bind].
  rewrite (take_digits_exact 4 g5 _ D5 L5). reflexivity.
Qed.

(** [X27]: the Lidl scraper reads the validity of a catalog from the first
    [perioada-dd-mm-dd-mm-yyyy] of its URL: the first day and month with the
    year give [ValidFrom], the second day and month with the same year give
    [ValidUntil], so a period that crosses the new year ends before it
    starts; the digits are not checked to be dates. A URL without
    [perioada-] gives a catalog with an empty title and empty dates. *)
Theorem lidl_validity_from_url (browser : Browser) (baseURL : string)
    (w : World) :
  (forall a g1 g2 g3 g4 g5 b,
     baseURL = a +:+ "perioada-" +:+ g1 +:+ "-" +:+ g2 +:+ "-" +:+ g3 +:+
               "-" +:+ g4 +:+ "-" +:+ g5 +:+ b ->
     all_digits g1 = true /\ String.length g1 = 2%nat ->
     all_digits g2 = true /\ String.length g2 = 2%nat ->
     all_digits g3 = true /\ String.length g3 = 2%nat ->
     all_digits g4 = true /\ String.length g4 = 2%nat ->
     all_digits g5 = true /\ String.length g5 = 4%nat ->
     no_period_before (String.length a) baseURL ->
     exists catalog,
       fst (scrapeCatalogPages browser baseURL w) = Ok catalog /\
       ValidFrom catalog = g5 +:+ "-" +:+ g2 +:+ "-" +:+ g1 /\
       ValidUntil catalog = g5 +:+ "-" +:+ g4 +:+ "-" +:+ g3 /\
       Title catalog =
         "Catalogul săptămânal pentru perioada " +:+
         g1 +:+ "." +:+ g2 +:+ "-" +:+ g3 +:+ "." +:+ g4 +:+ "." +:+ g5) /\
  (Contains baseURL "perioada-" = false ->
   exists catalog,
     fst (scrapeCatalogPages browser baseURL w) = Ok catalog /\
     ValidFrom catalog = EmptyString /\ ValidUntil catalog = EmptyString /\
     Title catalog = EmptyString).
Proof.
  split.
  - intros a g1 g2 g3 g4 g5 b -> [D1 L1] [D2 L2] [D3 L3] [D4 L4] [D5 L5] Hno.
    unfold scrapeCatalogPages.
    rewrite (find_period_skip _ _ Hno).
    rewrite (find_period_here _ _
               (period_here_period g1 g2 g3 g4 g5 b
                  D1 L1 D2 L2 D3 L3 D4 L4 D5 L5)).
    cbn [PageImages].
    destruct (flyer_loop 30 browser _ 1 [] w) as [images w'].
    eexists. split; [reflexivity|]. repeat split.
  - intros Hno. unfold scrapeCatalogPages.
    rewrite (find_period_without _ Hno). cbn [PageImages].
    destruct (flyer_loop 30 browser baseURL 1 [] w) as [images w'].
    eexists. split; [reflexivity|]. repeat split.
Qed.

Lemma lidl_validity_from_url_witness :
  exists catalog,
    fst (scrapeCatalogPages MoreExamples.flyer3 MoreExamples.lidl_url
           Examples.w0) = Ok catalog /\
    ValidFrom catalog = "2026-12-29"%string /\
    ValidUntil catalog = "2026-01-04"%string.
Proof.
  destruct (lidl_validity_from_url MoreExamples.flyer3 MoreExamples.lidl_url
              Examples.w0) as [H _].
  destruct (H "https://www.lidl.ro/l/ro/cataloage/catalog-"%string
              "29"%string "12"%string "04"%string "01"%string "2026"%string
              EmptyString)
    as (catalog & Hrun & Hfrom & Huntil & _).
  - reflexivity.
  - split; reflexivity.
  - split; reflexivity.
  - split; reflexivity.
  - split; reflexivity.
  - split; reflexivity.
  - intros k Hk. simpl in Hk.
    do 43 (destruct k as [|k]; [reflexivity|]). lia.
  - exists catalog. split; [exact Hrun|]. split; [exact Hfrom | exact Huntil].
Defined.

End LidlFacts.

(** ** The config entries *)

Module ConfigFacts.
Import Configs ConfigViews.
Import StoreCatalogs(outcome, Returns, Panics).

Lemma sapp_empty_r (s : string) : s +:+ "" = s.
Proof. induction s as [|c s IH]; simpl; [reflexivity | now rewrite IH]. Qed.

Lemma rev_string_app (a b : string) :
  rev_string (a +:+ b) = rev_string b +:+ rev_string a.
Proof.
  induction a as [|c a IH]; simpl.
  - now rewrite sapp_empty_r.
  - change (String c a +:+ b) with (String c (a +:+ b)). simpl.
    now rewrite IH, sapp_assoc.
Qed.

Lemma rev_string_involutive (s : string) : rev_string (rev_string s) = s.
Proof.
  induction s as [|c s IH]; [reflexivity|]. simpl.
  rewrite rev_string_app, IH. reflexivity.
Qed.

(** What [ext_scan] returns, when not empty, ends the path. *)
Lemma ext_scan_suffix : forall (rev suffix e : string),
  ext_scan rev suffix = e -> e <> EmptyString ->
  exists stem, rev_string rev +:+ suffix = stem +:+ e.
Proof.
  induction rev as [|c r IH]; intros suffix e H Hne; simpl in H.
  - congruence.
  - simpl rev_string. rewrite sapp_assoc.
    change (String c "" +:+ suffix) with (String c suffix).
    destruct (Ascii.eqb c "/"); [congruence|].
    destruct (Ascii.eqb c "."); [subst e; eauto|].
    now apply IH.
Qed.

Lemma Ext_json (name : string) :
  Ext name = ".json" <-> exists stem, name = stem +:+ ".json".
Proof.
  unfold Ext. split.
  - intros H. destruct (ext_scan_suffix _ _ _ H) as [stem Hs]; [discriminate|].
    rewrite rev_string_involutive, sapp_empty_r in Hs. eauto.
  - intros [stem ->]. rewrite rev_string_app. reflexivity.
Qed.

Lemma config_file_test (file : DirEntry) :
  negb (IsDir file) && String.eqb (Ext (Name file)) ".json" = true <->
  config_file file.
Proof.
  unfold config_file. rewrite andb_true_iff, negb_true_iff, String.eqb_eq.
  now rewrite Ext_json.
Qed.

Lemma config_names_spec : forall (entries : list DirEntry) (configs : list string),
  exists extra,
    config_names entries configs = configs ++ extra /\
    sublist extra (Name <$> entries) /\
    forall name, name ∈ extra <->
      exists file, file ∈ entries /\ Name file = name /\ config_file file.
Proof.
  induction entries as [|file rest IH]; intros configs.
  - exists []. rewrite app_nil_r. split; [reflexivity|]. split; [constructor|].
    intros name. split; [inversion 1|]. intros (f & Hf & _). inversion Hf.
  - cbn [config_names fmap list_fmap]. fold (fmap (M := list) Name rest).
    destruct (negb (IsDir file) && String.eqb (Ext (Name file)) ".json")
      eqn:Htest.
    + apply config_file_test in Htest.
      destruct (IH (configs ++ [Name file])) as (extra & E & S & M).
      exists (Name file :: extra). rewrite E, <- app_assoc.
      split; [reflexivity|]. split; [now apply sublist_skip|].
      intros name. rewrite elem_of_cons, M. split.
      * intros [-> | (f & Hf & Hn & Hc)].
        -- exists file. split; [now left | auto].
        -- exists f. split; [now right | auto].
      * intros (f & Hf & Hn & Hc). apply elem_of_cons in Hf as [-> | Hf];
          [now left | right; eauto].
    + destruct (IH configs) as (extra & E & S & M).
      exists extra. split; [exact E|]. split; [now apply sublist_cons|].
      intros name. rewrite M. split.
      * intros (f & Hf & Hn & Hc). exists f. split; [now right | auto].
      * intros (f & Hf & Hn & Hc). apply elem_of_cons in Hf as [-> | Hf];
          [|eauto].
        apply config_file_test in Hc. congruence.
Qed.

(** [X28]: [ListAvailableConfigs] fails exactly when the directory
    [configs] cannot be read. Otherwise it returns, in the order of the
    directory, the names of the entries that are not directories and whose
    name ends with [.json], the entry named [.json] included, and of no
    other entry. *)
Theorem ListAvailableConfigs_json_files (env : Env) (w : World) :
  match os_ReadDir env (clock w) "configs" with
  | Err err => fst (ListAvailableConfigs env w) = Err err
  | Ok entries =>
      exists configs,
        fst (ListAvailableConfigs env w) = Ok configs /\
        sublist configs (Name <$> entries) /\
        forall name, name ∈ configs <->
          exists file, file ∈ entries /\ Name file = name /\
            IsDir file = false /\ exists stem, name = stem +:+ ".json"
  end.
Proof.
  unfold ListAvailableConfigs.
  destruct (os_ReadDir env (clock w) "configs") as [entries|err];
    [|reflexivity].
  destruct (config_names_spec entries []) as (extra & E & S & M).
  cbn [app] in E. exists extra. cbn [fst]. split; [now rewrite E|].
  split; [exact S|].
  intros name. rewrite M. unfold config_file. split.
  - intros (f & Hf & Hn & Hd & stem & Hs). exists f.
    repeat split; auto. exists stem. congruence.
  - intros (f & Hf & Hn & Hd & stem & Hs). exists f.
    repeat split; auto. exists stem. congruence.
Qed.

Lemma ListAvailableConfigs_json_files_witness :
  fst (ListAvailableConfigs MoreExamples.config_env Examples.w0) =
  Ok [ "lidl.json"; ".json" ]%string.
Proof.
  pose proof (ListAvailableConfigs_json_files MoreExamples.config_env
                Examples.w0) as H.
  change (os_ReadDir _ _ _) with
    (@Ok (list DirEntry) MoreExamples.config_entries) in H.
  cbv beta iota in H. destruct H as (configs & Hrun & _).
  rewrite Hrun. vm_compute in Hrun. injection Hrun as <-. reflexivity.
Defined.

Lemma substring_stem : forall (stem rest : string),
  String.substring 0 (String.length stem) (stem +:+ rest) = stem.
Proof.
  induction stem as [|c stem IH]; intros rest.
  - simpl. now destruct rest.
  - change (String c stem +:+ rest) with (String c (stem +:+ rest)).
    simpl. now rewrite IH.
Qed.

Lemma slice_json (stem : string) :
  slice_to (stem +:+ ".json")
    (Z.of_nat (String.length (stem +:+ ".json")) - 5) = Returns stem.
Proof.
  unfold slice_to. rewrite slength_app. cbn [String.length].
  replace (Z.of_nat (String.length stem + 5) - 5)
    with (Z.of_nat (String.length stem)) by lia.
  rewrite Nat2Z.id, substring_stem.
  destruct (Z.leb_spec 0 (Z.of_nat (String.length stem))); [|lia].
  destruct (Z.leb_spec (Z.of_nat (String.length stem))
              (Z.of_nat (String.length stem + 5))); [reflexivity | lia].
Qed.

Lemma store_names_spec : forall (entries : list DirEntry) (stores : list string),
  exists extra,
    store_names entries stores = Returns (stores ++ extra) /\
    (fun stem => stem +:+ ".json") <$> extra = config_names entries [].
Proof.
  assert (Hacc : forall entries configs,
            config_names entries configs = configs ++ config_names entries []).
  { induction entries as [|file rest IH]; intros configs; cbn [config_names].
    - now rewrite app_nil_r.
    - destruct (negb (IsDir file) && String.eqb (Ext (Name file)) ".json");
        [|apply IH].
      rewrite (IH (configs ++ [Name file])), (IH ([] ++ [Name file])).
      now rewrite <- app_assoc. }
  induction entries as [|file rest IH]; intros stores.
  - exists []. now rewrite app_nil_r.
  - cbn [store_names config_names].
    destruct (negb (IsDir file) && String.eqb (Ext (Name file)) ".json")
      eqn:Htest; [|apply IH].
    apply config_file_test in Htest as [_ [stem Hstem]].
    rewrite Hstem, slice_json.
    destruct (IH (stores ++ [stem])) as (extra & E & M).
    exists (stem :: extra). rewrite E, <- app_assoc.
    split; [reflexivity|]. rewrite Hacc. cbn. now rewrite M.
Qed.

(** [X29]: [ListAvailableStores] never panics on cutting the extension
    off: when the directory is read, it returns one store name for each
    name that [ListAvailableConfigs] lists, in the same order, and the
    store name followed by [.json] is that name; so [LoadScraperConfig]
    of a listed store reads the listed file. *)
Theorem ListAvailableStores_names (env : Env) (w : World) :
  match os_ReadDir env (clock w) "configs" with
  | Err err => fst (ListAvailableStores env w) = Returns (Err err)
  | Ok entries =>
      exists stores,
        fst (ListAvailableStores env w) = Returns (Ok stores) /\
        Ok ((fun stem => stem +:+ ".json") <$> stores) =
          fst (ListAvailableConfigs env w) /\
        forall storeName w1, storeName ∈ stores ->
          exists file, file ∈ entries /\ IsDir file = false /\
            Name file = storeName +:+ ".json" /\
            fst (LoadScraperConfig env storeName w1) =
              match os_ReadFile env (clock w1)
                      (filepath_Join env "configs" (Name file)) with
              | Err err => Err err
              | Ok data => json_Unmarshal env data
              end
  end.
Proof.
  unfold ListAvailableStores, ListAvailableConfigs.
  destruct (os_ReadDir env (clock w) "configs") as [entries|err];
    [|reflexivity].
  destruct (store_names_spec entries []) as (stores & E & M).
  cbn [app] in E. rewrite E. exists stores. cbn [fst].
  split; [reflexivity|]. split; [now rewrite M|].
  intros storeName w1 Hin.
  assert (Hname : storeName +:+ ".json" ∈ config_names entries []).
  { rewrite <- M. apply list_elem_of_fmap. eauto. }
  destruct (config_names_spec entries []) as (extra & E' & _ & M').
  cbn [app] in E'. rewrite E' in Hname. apply M' in Hname
    as (file & Hfile & Hn & Hd & _).
  exists file. split; [exact Hfile|]. split; [exact Hd|].
  split; [exact Hn|]. unfold LoadScraperConfig. rewrite Hn.
  destruct (os_ReadFile env (clock w1) _) as [data|err]; [|reflexivity].
  now destruct (json_Unmarshal env data).
Qed.

Lemma ListAvailableStores_names_witness :
  fst (ListAvailableStores MoreExamples.config_env Examples.w0) =
  Returns (Ok [ "lidl"; "" ]%string).
Proof.
  pose proof (ListAvailableStores_names MoreExamples.config_env
                Examples.w0) as H.
  change (os_ReadDir _ _ _) with
    (@Ok (list DirEntry) MoreExamples.config_entries) in H.
  cbv beta iota in H. destruct H as (stores & Hrun & _).
  rewrite Hrun. vm_compute in Hrun. injection Hrun as <-. reflexivity.
Defined.

End ConfigFacts.

(** ** The catalog list of the Lidl scraper *)

Module LidlCatalogFacts.
Import StoreCatalogs CatalogViews CatalogFacts CatalogURLFacts LidlCatalogs.
Import ConfigScraper(is_digit, strip_prefix, span_digits).

Lemma span_digits_drop : forall (s ds rest : string),
  span_digits s = (ds, rest) -> rest = drop_bytes (String.length ds) s.
Proof.
  induction s as [|c s IH]; intros ds rest H; simpl in H.
  - now injection H as <- <-.
  - destruct (is_digit c); [|now injection H as <- <-].
    destruct (span_digits s) as [ds' rest'] eqn:Hs.
    injection H as <- <-. simpl. now apply IH.
Qed.

Lemma drop_bytes_shorter (n : nat) (s : string) :
  (0 < n)%nat -> s <> EmptyString ->
  (String.length (drop_bytes n s) < String.length s)%nat.
Proof.
  intros Hn Hs. destruct n; [lia|]. destruct s; [congruence|].
  simpl. pose proof (length_drop_bytes n s). lia.
Qed.

(** What follows a match is shorter than the string searched. *)
Lemma find_lit_digits_shorter (lit : string) : forall (s pre rest : string),
  find_lit_digits lit s = Some (pre, rest) ->
  (String.length rest < String.length s)%nat.
Proof.
  induction s as [|c s IH]; intros pre rest H.
  - cbn [find_lit_digits] in H.
    destruct (lit_digits_here lit "") as [r|] eqn:Hh; [|discriminate].
    unfold lit_digits_here in Hh.
    destruct (strip_prefix lit "") as [t|] eqn:Ht; [|discriminate].
    apply strip_prefix_drop in Ht as [-> _].
    assert (E : drop_bytes (String.length lit) "" = EmptyString)
      by now destruct (String.length lit).
    rewrite E in Hh. discriminate.
  - cbn [find_lit_digits] in H.
    destruct (lit_digits_here lit (String c s)) as [r|] eqn:Hh.
    + injection H as <- <-. unfold lit_digits_here in Hh.
      destruct (strip_prefix lit (String c s)) as [t|] eqn:Ht; [|discriminate].
      apply strip_prefix_drop in Ht as [-> _].
      destruct (span_digits (drop_bytes (String.length lit) (String c s)))
        as [ds r'] eqn:Hd.
      destruct ds as [|d ds]; [discriminate|]. injection Hh as <-.
      apply span_digits_drop in Hd. rewrite Hd, drop_bytes_add.
      apply drop_bytes_shorter; [simpl; lia | discriminate].
    + destruct (find_lit_digits lit s) as [[pre' rest']|] eqn:Hf;
        [|discriminate].
      injection H as <- <-. specialize (IH _ _ eq_refl). simpl. lia.
Qed.

(** [remove_all] has fuel enough in [RemoveAll]: more fuel changes
    nothing. *)
Lemma remove_all_enough (lit : string) : forall (f1 f2 : nat) (s : string),
  (String.length s <= f1)%nat -> (String.length s <= f2)%nat ->
  remove_all f1 lit s = remove_all f2 lit s.
Proof.
  assert (Hempty : forall f, remove_all f lit "" = EmptyString).
  { intros [|f]; [reflexivity|]. cbn [remove_all].
    destruct (find_lit_digits lit "") as [[pre rest]|] eqn:Hf; [|reflexivity].
    apply find_lit_digits_shorter in Hf. simpl in Hf. lia. }
  induction f1 as [|f1 IH]; intros f2 s H1 H2.
  - destruct s; [|simpl in H1; lia]. now rewrite !Hempty.
  - destruct f2 as [|f2].
    + destruct s; [|simpl in H2; lia]. now rewrite !Hempty.
    + cbn [remove_all].
      destruct (find_lit_digits lit s) as [[pre rest]|] eqn:Hf; [|reflexivity].
      apply find_lit_digits_shorter in Hf.
      rewrite (IH f2 rest); [reflexivity | lia | lia].
Qed.

Lemma href_here_group (s group rest : string) :
  href_here s = Some (group, rest) ->
  (String.length rest < String.length s)%nat /\
  exists text,
    group = "/l/ro/cataloage/" +:+ text \/
    group = "https://www.lidl.ro/l/ro/cataloage/" +:+ text.
Proof.
  unfold href_here. intros H.
  assert (Hs : s <> EmptyString) by (intros ->; discriminate H).
  destruct (strip_prefix ("href=" +:+ String dquote "") s) as [s0|] eqn:H0;
    [|discriminate].
  cbn [mbind option_bind] in H.
  apply strip_prefix_drop in H0 as [-> _].
  destruct (strip_prefix "https://www.lidl.ro" _) as [t|] eqn:Hsite.
  - apply strip_prefix_drop in Hsite as [-> _]. rewrite drop_bytes_add in H.
    destruct (strip_prefix "/l/ro/cataloage/" _) as [s2|] eqn:H2;
      [|discriminate].
    cbn [mbind option_bind] in H.
    apply strip_prefix_drop in H2 as [-> _]. rewrite drop_bytes_add in H.
    destruct (span_until dquote _) as [text after] eqn:Hspan.
    apply span_until_drop in Hspan. rewrite drop_bytes_add in Hspan.
    destruct text as [|c text]; [discriminate|].
    destruct after as [|q after]; [discriminate|].
    injection H as <- <-. split; [|eauto].
    assert (Hr : after = drop_bytes 1 (String q after)) by reflexivity.
    rewrite Hspan, drop_bytes_add in Hr. rewrite Hr.
    apply drop_bytes_shorter; [simpl; lia | exact Hs].
  - destruct (strip_prefix "/l/ro/cataloage/" _) as [s2|] eqn:H2;
      [|discriminate].
    cbn [mbind option_bind] in H.
    apply strip_prefix_drop in H2 as [-> _]. rewrite drop_bytes_add in H.
    destruct (span_until dquote _) as [text after] eqn:Hspan.
    apply span_until_drop in Hspan. rewrite drop_bytes_add in Hspan.
    destruct text as [|c text]; [discriminate|].
    destruct after as [|q after]; [discriminate|].
    injection H as <- <-. split; [|eauto].
    assert (Hr : after = drop_bytes 1 (String q after)) by reflexivity.
    rewrite Hspan, drop_bytes_add in Hr. rewrite Hr.
    apply drop_bytes_shorter; [simpl; lia | exact Hs].
Qed.

Lemma find_href_group : forall (s group rest : string),
  find_href s = Some (group, rest) ->
  (String.length rest < String.length s)%nat /\
  exists text,
    group = "/l/ro/cataloage/" +:+ text \/
    group = "https://www.lidl.ro/l/ro/cataloage/" +:+ text.
Proof.
  induction s as [|c s IH]; intros group rest H; cbn [find_href] in H.
  - destruct (href_here "") as [[g r]|] eqn:Hh; [|discriminate].
    injection H as <- <-. now apply href_here_group.
  - destruct (href_here (String c s)) as [[g r]|] eqn:Hh.
    + injection H as <- <-. now apply href_here_group.
    + destruct (IH _ _ H) as [Hlen Hg]. split; [simpl; lia | exact Hg].
Qed.

(** [find_all_hrefs] has fuel enough in [extractCatalogURLs]. *)
Lemma find_all_hrefs_enough : forall (f1 f2 : nat) (s : string),
  (String.length s <= f1)%nat -> (String.length s <= f2)%nat ->
  find_all_hrefs f1 s = find_all_hrefs f2 s.
Proof.
  assert (Hempty : forall f, find_all_hrefs f "" = []).
  { intros [|f]; [reflexivity|]. cbn [find_all_hrefs].
    destruct (find_href "") as [[g r]|] eqn:Hf; [|reflexivity].
    apply find_href_group in Hf as [Hf _]. simpl in Hf. lia. }
  induction f1 as [|f1 IH]; intros f2 s H1 H2.
  - destruct s; [|simpl in H1; lia]. now rewrite !Hempty.
  - destruct f2 as [|f2].
    + destruct s; [|simpl in H2; lia]. now rewrite !Hempty.
    + cbn [find_all_hrefs].
      destruct (find_href s) as [[g r]|] eqn:Hf; [|reflexivity].
      apply find_href_group in Hf as [Hf _].
      rewrite (IH f2 r); [reflexivity | lia | lia].
Qed.

(** Every match has its group, a catalog path of the site. *)
Lemma find_all_hrefs_groups : forall (fuel : nat) (s : string) (m : list string),
  m ∈ find_all_hrefs fuel s ->
  exists text,
    m !! 1%nat = Some ("/l/ro/cataloage/" +:+ text) \/
    m !! 1%nat = Some ("https://www.lidl.ro/l/ro/cataloage/" +:+ text).
Proof.
  induction fuel as [|fuel IH]; intros s m Hm; cbn [find_all_hrefs] in Hm;
    [inversion Hm|].
  destruct (find_href s) as [[g r]|] eqn:Hf; [|inversion Hm].
  apply elem_of_cons in Hm as [-> | Hm]; [|now apply (IH r)].
  apply find_href_group in Hf as [_ [text [-> | ->]]]; exists text;
    [left | right]; reflexivity.
Qed.

(** Removing the page parts leaves the catalog path of the site in
    front. *)
Lemma remove_all_keeps_site (lit : string) :
  lit = "/ar/"%string \/ lit = "/view/flyer/page/"%string ->
  forall (fuel : nat) (t : string),
    exists t',
      remove_all fuel lit ("https://www.lidl.ro/l/ro/cataloage" +:+ t) =
      "https://www.lidl.ro/l/ro/cataloage" +:+ t'.
Proof.
  intros Hlit [|fuel] t; [eauto|].
  cbn [remove_all].
  cbv [String.append].
  destruct Hlit as [-> | ->];
    cbn [find_lit_digits lit_digits_here strip_prefix Ascii.eqb Bool.eqb];
    (destruct (find_lit_digits _ t) as [[pre rest]|];
     [eexists (pre +:+ remove_all fuel _ rest) | exists t]);
    reflexivity.
Qed.

Lemma clean_url_site (text : string) (group : string) :
  group = "/l/ro/cataloage/" +:+ text \/
  group = "https://www.lidl.ro/l/ro/cataloage/" +:+ text ->
  HasPrefix (clean_url group) "https://www.lidl.ro/l/ro/cataloage" = true.
Proof.
  intros Hg. unfold clean_url, RemoveAll.
  assert (E : (if negb (HasPrefix group "http")
               then "https://www.lidl.ro" +:+ group else group) =
              "https://www.lidl.ro/l/ro/cataloage" +:+ String "/" text).
  { destruct Hg as [-> | ->]; reflexivity. }
  rewrite E.
  destruct (remove_all_keeps_site "/ar/" (or_introl eq_refl)
              (String.length ("https://www.lidl.ro/l/ro/cataloage" +:+
                              String "/" text)) (String "/" text))
    as [t1 ->].
  destruct (remove_all_keeps_site "/view/flyer/page/" (or_intror eq_refl)
              (String.length ("https://www.lidl.ro/l/ro/cataloage" +:+ t1)) t1)
    as [t2 ->].
  unfold HasPrefix. apply prefix_app.
Qed.

(** [X30]: the catalog URLs of the Lidl scraper are pairwise different;
    each starts with [https://www.lidl.ro/l/ro/cataloage], whether the link
    in the page named the site or not, contains [perioada] and does not
    contain [reduceri]; and there are no more of them than links to
    catalogs in the page. *)
Theorem lidl_catalog_urls (html : string) :
  NoDup (extractCatalogURLs html) /\
  Forall (fun u =>
            HasPrefix u "https://www.lidl.ro/l/ro/cataloage" = true /\
            Contains u "perioada" = true /\
            Contains u "reduceri" = false)
         (extractCatalogURLs html) /\
  (length (extractCatalogURLs html) <=
   length (find_all_hrefs (String.length html) html))%nat.
Proof.
  unfold extractCatalogURLs.
  set (matches := find_all_hrefs (String.length html) html).
  assert (Hgroups : forall m, m ∈ matches -> exists text,
            m !! 1%nat = Some ("/l/ro/cataloage/" +:+ text) \/
            m !! 1%nat = Some ("https://www.lidl.ro/l/ro/cataloage/" +:+ text))
    by (intros m; apply find_all_hrefs_groups).
  clearbody matches.
  destruct (collect_urls_spec matches ∅ []) as (extra & E & N & S & F & C).
  { constructor. }
  { intros u. rewrite elem_of_empty. split; [tauto | inversion 1]. }
  cbn [app] in E, N. rewrite E. split; [exact N|]. split.
  - apply Forall_forall. intros u Hu.
    pose proof (proj1 (Forall_forall _ _) F u Hu) as Hw.
    unfold wanted in Hw. apply andb_true_iff in Hw as [Hr Hp].
    apply negb_true_iff in Hr. split; [|split; assumption].
    assert (Hc : u ∈ cleaned matches).
    { eapply elem_of_submseteq; [exact Hu | now apply sublist_submseteq]. }
    unfold cleaned in Hc. apply list_elem_of_omap in Hc as (m & Hm & Hg).
    destruct (Hgroups m Hm) as [text [Ht | Ht]]; rewrite Ht in Hg;
      injection Hg as <-; apply (clean_url_site text); auto.
  - apply sublist_length in S. unfold cleaned in S.
    etransitivity; [exact S|]. clear.
    induction matches as [|m rest IH]; [reflexivity|].
    cbn [omap list_omap]. fold (omap (fun m => clean_url <$> m !! 1%nat) rest).
    destruct (clean_url <$> m !! 1%nat); cbn [length]; lia.
Qed.

Lemma lidl_catalog_urls_witness :
  NoDup
    (extractCatalogURLs
       ("<a href=" +:+ quoted "/l/ro/cataloage/x-perioada-01-02/ar/0" +:+
        "><a href=" +:+
        quoted "https://www.lidl.ro/l/ro/cataloage/ar/5perioada/view/flyer/page/3"
        +:+ ">")) /\
  extractCatalogURLs
    ("<a href=" +:+ quoted "/l/ro/cataloage/x-perioada-01-02/ar/0" +:+
     "><a href=" +:+
     quoted "https://www.lidl.ro/l/ro/cataloage/ar/5perioada/view/flyer/page/3"
     +:+ ">") =
  [ "https://www.lidl.ro/l/ro/cataloage/x-perioada-01-02";
    "https://www.lidl.ro/l/ro/cataloageperioada" ]%string.
Proof.
  split; [apply lidl_catalog_urls | vm_compute; reflexivity].
Defined.

End LidlCatalogFacts.
